(** * Sandquake: the sandpile core, its sources, controller and signal buffer

    A shallow embedding of the JavaScript classes [SandPile], [SandSource],
    [Simulation] and [SeismographData] together with the helpers of
    [MathUtils], followed by the properties established about them.

    Conventions of the embedding.
    - Grid coordinates, heights, grain counts and iteration counters are
      JavaScript integers and are modelled by [Z]; JavaScript computes
      exactly on integers below 2^53, and the model has no such bound.
    - Rates, times, the randomness factor and the values returned by
      [Math.random()] are JavaScript doubles; they are modelled by exact
      rationals [Q], so rounding of the floating-point operations is not
      part of the model.
    - A method is a computation in a state-and-error monad over the object
      it is called on.  [None] stands for a JavaScript run-time failure: a
      [TypeError], or arithmetic on [undefined].
    - [Math.random()] and [Math.sqrt] are supplied by an environment. *)

From Stdlib Require Import ZArith QArith Qround Qminmax Lia Lqa.
From stdpp Require Import list.

Local Open Scope Z_scope.

(** ** The JavaScript run time seen by the core *)

(** [random k] is the value of the [k]-th call of [Math.random()];
    [sqrt n] is [Math.sqrt(n)] for an integer argument. *)
Record Env := mkEnv {
  random : nat -> Q;
  sqrt : Z -> Q
}.

(** Instrumentation that the source does not store: how many times
    [Math.random()] has been called, and how many grains have been
    discarded (every [this.totalSand -= ...] of [SandPile]). *)
Record Rt := mkRt {
  randomCalls : nat;
  exited : Z
}.

Record St (T : Type) := mkSt {
  this : T;
  rt : Rt
}.
Arguments mkSt {T} _ _.
Arguments this {T} _.
Arguments rt {T} _.

(** ** State-and-error monad *)

Definition M (T A : Type) : Type := St T -> option (A * St T).

Definition ret {T A} (a : A) : M T A := fun s => Some (a, s).

Definition bind {T A B} (m : M T A) (k : A -> M T B) : M T B :=
  fun s => match m s with
           | Some (a, s') => k a s'
           | None => None
           end.

Definition gets {T A} (f : T -> A) : M T A := fun s => Some (f (this s), s).

Definition modify {T} (f : T -> T) : M T unit :=
  fun s => Some (tt, mkSt (f (this s)) (rt s)).

Definition liftOpt {T A} (o : option A) : M T A :=
  fun s => match o with
           | Some a => Some (a, s)
           | None => None
           end.

Definition mathRandom {T} (env : Env) : M T Q :=
  fun s => Some (random env (randomCalls (rt s)),
                 mkSt (this s) (mkRt (S (randomCalls (rt s))) (exited (rt s)))).

Definition noteExit {T} (n : Z) : M T unit :=
  fun s => Some (tt, mkSt (this s) (mkRt (randomCalls (rt s)) (exited (rt s) + n))).

Declare Scope monad_scope.
Delimit Scope monad_scope with monad.
Notation "'let*' x ':=' m 'in' k" := (bind m (fun x => k))
  (at level 10, x name, m at level 100, k at level 200) : monad_scope.
Notation "'let*' ' p ':=' m 'in' k" := (bind m (fun p => k))
  (at level 10, p pattern, m at level 100, k at level 200) : monad_scope.
Notation "m ;; k" := (bind m (fun _ => k))
  (at level 100, k at level 200, right associativity) : monad_scope.
Local Open Scope monad_scope.

(** [for (const a of l) body], threading the loop-carried value [acc]. *)
Fixpoint forEach {T A B} (l : list A) (body : A -> B -> M T B) (acc : B) : M T B :=
  match l with
  | [] => ret acc
  | a :: l' => let* acc' := body a acc in forEach l' body acc'
  end.

(** ** MathUtils.js *)

Module MathUtils.

Definition isValidGridPosition (x y gridSize : Z) : bool :=
  (0 <=? x) && (x <? gridSize) && (0 <=? y) && (y <? gridSize).

Definition getNeighbors (x y : Z) : list (Z * Z) :=
  [ (x - 1, y); (x + 1, y); (x, y - 1); (x, y + 1) ].

(** [Math.random() * (max - min) + min] *)
Definition randomFloat {T} (env : Env) (min max : Q) : M T Q :=
  let* u := mathRandom env in ret (u * (max - min) + min)%Q.

(** [Math.floor(Math.random() * (max - min + 1)) + min], for integer
    bounds *)
Definition randomInt {T} (env : Env) (min max : Z) : M T Z :=
  let* u := mathRandom env in
  ret (Qfloor (u * inject_Z (max - min + 1)) + min).

(** [Math.min(Math.max(value, min), max)] *)
Definition clamp (value min max : Q) : Q := Qmin (Qmax value min) max.

End MathUtils.

(** ** SandPile.js *)

Module SandPile.
Import MathUtils.

Record t := mk {
  size : Z;
  criticalMass : Z;
  grid : list (list Z);
  (* a JavaScript [Set] of keys [`${x},${y}`]: insertion ordered, no
     duplicates; the key of a pair of integers determines the pair *)
  unstableCells : list (Z * Z);
  randomnessFactor : Q;
  totalSand : Z;
  totalAvalanches : Z;
  avalancheSize : Z
}.

Definition setGrid (g : list (list Z)) (p : t) : t :=
  mk (size p) (criticalMass p) g (unstableCells p) (randomnessFactor p)
     (totalSand p) (totalAvalanches p) (avalancheSize p).
Definition setUnstableCells (u : list (Z * Z)) (p : t) : t :=
  mk (size p) (criticalMass p) (grid p) u (randomnessFactor p)
     (totalSand p) (totalAvalanches p) (avalancheSize p).
Definition setRandomness (r : Q) (p : t) : t :=
  mk (size p) (criticalMass p) (grid p) (unstableCells p) r
     (totalSand p) (totalAvalanches p) (avalancheSize p).
Definition setTotalSand (n : Z) (p : t) : t :=
  mk (size p) (criticalMass p) (grid p) (unstableCells p) (randomnessFactor p)
     n (totalAvalanches p) (avalancheSize p).
Definition setTotalAvalanches (n : Z) (p : t) : t :=
  mk (size p) (criticalMass p) (grid p) (unstableCells p) (randomnessFactor p)
     (totalSand p) n (avalancheSize p).
Definition setAvalancheSize (n : Z) (p : t) : t :=
  mk (size p) (criticalMass p) (grid p) (unstableCells p) (randomnessFactor p)
     (totalSand p) (totalAvalanches p) n.

(** [set.add(key)] *)
Definition setAdd (c : Z * Z) (s : list (Z * Z)) : list (Z * Z) :=
  if decide (c ∈ s) then s else s ++ [c].

(** [g[x][y]] as a number: fails when the row or the entry is absent. *)
Definition readCell (g : list (list Z)) (x y : Z) : option Z :=
  if (x <? 0) || (y <? 0) then None
  else match g !! Z.to_nat x with
       | Some row => row !! Z.to_nat y
       | None => None
       end.

(** [g[x][y] = v], for an entry that exists. *)
Definition writeCell (g : list (list Z)) (x y v : Z) : option (list (list Z)) :=
  if (x <? 0) || (y <? 0) then None
  else match g !! Z.to_nat x with
       | Some row =>
           if decide (Z.to_nat y < length row)%nat
           then Some (<[Z.to_nat x := <[Z.to_nat y := v]> row]> g)
           else None
       | None => None
       end.

Definition getCell (x y : Z) : M t Z :=
  let* g := gets grid in liftOpt (readCell g x y).

Definition putCell (x y v : Z) : M t unit :=
  let* g := gets grid in
  let* g' := liftOpt (writeCell g x y v) in
  modify (setGrid g').

(** [new SandPile(size, criticalMass)]; [new Array(size)] throws a
    [RangeError] for a negative size. *)
Definition create (size criticalMass : Z) : option t :=
  if size <? 0 then None
  else Some (mk size criticalMass
                (replicate (Z.to_nat size) (replicate (Z.to_nat size) 0))
                [] 0%Q 0 0 0).

Definition addSand (x y amount : Z) : M t unit :=
  let* n := gets size in
  if negb (isValidGridPosition x y n) then ret tt
  else
    let* h := getCell x y in
    putCell x y (h + amount) ;;
    let* total := gets totalSand in
    modify (setTotalSand (total + amount)) ;;
    let* h' := getCell x y in
    let* cm := gets criticalMass in
    if cm <=? h' then
      let* u := gets unstableCells in modify (setUnstableCells (setAdd (x, y) u))
    else ret tt.

Definition getSand (x y : Z) : M t Z :=
  let* n := gets size in
  if negb (isValidGridPosition x y n) then ret 0
  else getCell x y.

Definition addSandToCell (x y amount : Z) (newUnstableCells : list (Z * Z))
  : M t (list (Z * Z)) :=
  let* h := getCell x y in
  putCell x y (h + amount) ;;
  let* h' := getCell x y in
  let* cm := gets criticalMass in
  ret (if cm <=? h' then setAdd (x, y) newUnstableCells else newUnstableCells).

(** [this.totalSand -= n], recorded as grains that left the grid. *)
Definition loseSand (n : Z) : M t unit :=
  let* total := gets totalSand in
  modify (setTotalSand (total - n)) ;;
  noteExit n.

Definition distributeToNeighbors (sandPerNeighbor : Z) (neighbors : list (Z * Z))
    (newUnstableCells : list (Z * Z)) : M t (list (Z * Z)) :=
  forEach neighbors (fun neighbor new =>
    let* n := gets size in
    if isValidGridPosition (fst neighbor) (snd neighbor) n then
      addSandToCell (fst neighbor) (snd neighbor) sandPerNeighbor new
    else
      loseSand sandPerNeighbor ;; ret new) newUnstableCells.

(** A candidate of [distributeJitteredSand]: [{ x, y, weight }]. *)
Record candidate := mkCandidate { cx : Z; cy : Z; weight : Q }.

(** The integers [lo, lo+1, ..., hi]. *)
Definition range (lo hi : Z) : list Z := seqZ lo (hi - lo + 1).

Definition jitterCandidates (env : Env) (centerX centerY radius n : Z)
  : list candidate :=
  flat_map (fun dx =>
    flat_map (fun dy =>
      if (dx =? 0) && (dy =? 0) then []
      else
        let targetX := centerX + dx in
        let targetY := centerY + dy in
        if isValidGridPosition targetX targetY n then
          let distance := sqrt env (dx * dx + dy * dy) in
          if Qle_bool distance (inject_Z radius) then
            [ mkCandidate targetX targetY (1 / (1 + distance))%Q ]
          else []
        else [])
      (range (- radius) radius))
    (range (- radius) radius).

Section WithEnv.
Variable env : Env.

Definition distributeJitteredSand (centerX centerY totalJitter radius : Z)
    (newUnstableCells : list (Z * Z)) : M t (list (Z * Z)) :=
  let* n := gets size in
  let candidates := jitterCandidates env centerX centerY radius n in
  if (Z.of_nat (length candidates) =? 0) then
    loseSand totalJitter ;; ret newUnstableCells
  else
    let totalWeight :=
      fold_left (fun sum c => (sum + weight c)%Q) candidates 0%Q in
    (* the loop stops as soon as remainingJitter is 0 *)
    let* '(remainingJitter, new) :=
      forEach candidates (fun c '(remainingJitter, new) =>
        if 0 <? remainingJitter then
          let proportion := (weight c / totalWeight)%Q in
          let amount :=
            Z.min remainingJitter
                  (Qfloor (inject_Z totalJitter * proportion)) in
          if 0 <? amount then
            let* new' := addSandToCell (cx c) (cy c) amount new in
            ret (remainingJitter - amount, new')
          else ret (remainingJitter, new)
        else ret (remainingJitter, new))
        (totalJitter, newUnstableCells) in
    if (0 <? remainingJitter) && (0 <? Z.of_nat (length candidates)) then
      let* u := mathRandom env in
      let i := Qfloor (u * inject_Z (Z.of_nat (length candidates))) in
      let* c := liftOpt (if i <? 0 then None else candidates !! Z.to_nat i) in
      addSandToCell (cx c) (cy c) remainingJitter new
    else ret new.

(** The [distributionMap] that the source builds first is never read
    and is left out. *)
Definition distributeWithRandomness (sourceX sourceY sandPerNeighbor : Z)
    (baseNeighbors : list (Z * Z)) (newUnstableCells : list (Z * Z))
  : M t (list (Z * Z)) :=
  let* randomnessIntensity := gets randomnessFactor in
  let jitterRadius := Qceiling (randomnessIntensity * 2) in
  forEach baseNeighbors (fun neighbor new =>
    let* n := gets size in
    if negb (isValidGridPosition (fst neighbor) (snd neighbor) n) then
      loseSand sandPerNeighbor ;; ret new
    else
      let* u := mathRandom env in
      let jitterAmount :=
        Qfloor (inject_Z sandPerNeighbor * randomnessIntensity * u) in
      let stableAmount := sandPerNeighbor - jitterAmount in
      let* new1 := addSandToCell (fst neighbor) (snd neighbor) stableAmount new in
      if 0 <? jitterAmount then
        distributeJitteredSand (fst neighbor) (snd neighbor)
                               jitterAmount jitterRadius new1
      else ret new1) newUnstableCells.

Definition topple (x y : Z) (newUnstableCells : list (Z * Z))
  : M t (list (Z * Z)) :=
  let* sandToDistribute := getCell x y in
  let sandPerNeighbor := sandToDistribute / 4 in
  let remainder := Z.rem sandToDistribute 4 in
  putCell x y remainder ;;
  let neighbors := getNeighbors x y in
  let* r := gets randomnessFactor in
  let* new :=
    (if Qlt_le_dec 0 r
     then distributeWithRandomness x y sandPerNeighbor neighbors newUnstableCells
     else distributeToNeighbors sandPerNeighbor neighbors newUnstableCells) in
  let* h := getCell x y in
  let* cm := gets criticalMass in
  ret (if cm <=? h then setAdd (x, y) new else new).

Definition processAvalanches : M t bool :=
  let* u := gets unstableCells in
  if Z.of_nat (length u) =? 0 then ret false
  else
    modify (setAvalancheSize 0) ;;
    let* '(avalancheOccurred, newUnstableCells) :=
      forEach u (fun cell '(occurred, new) =>
        let* h := getCell (fst cell) (snd cell) in
        let* cm := gets criticalMass in
        if cm <=? h then
          let* new' := topple (fst cell) (snd cell) new in
          let* k := gets avalancheSize in
          modify (setAvalancheSize (k + 1)) ;;
          ret (true, new')
        else ret (occurred, new)) (false, []) in
    modify (setUnstableCells newUnstableCells) ;;
    (if avalancheOccurred : bool then
       let* k := gets totalAvalanches in modify (setTotalAvalanches (k + 1))
     else ret tt) ;;
    ret avalancheOccurred.

(** The [while] loop of [stabilize]; [fuel] is the number of
    iterations that [maxIterations] still allows. *)
Fixpoint stabilizeLoop (fuel : nat) (iterations : Z) : M t Z :=
  match fuel with
  | O => ret iterations
  | S fuel' =>
      let* u := gets unstableCells in
      if 0 <? Z.of_nat (length u) then
        processAvalanches ;; stabilizeLoop fuel' (iterations + 1)
      else ret iterations
  end.

Definition stabilize (maxIterations : Z) : M t Z :=
  stabilizeLoop (Z.to_nat maxIterations) 0.

End WithEnv.

(** The default of [maxIterations] in [stabilize]. *)
Definition defaultMaxIterations : Z := 1000.

Definition isStable : M t bool :=
  let* u := gets unstableCells in ret (Z.of_nat (length u) =? 0).

Definition setRandomnessFactor (factor : Q) : M t unit :=
  modify (setRandomness (Qmax 0 (Qmin 1 factor))).

Definition getRandomnessFactor : M t Q := gets randomnessFactor.

Definition getMaxHeight : M t Z :=
  let* n := gets size in
  forEach (range 0 (n - 1)) (fun x maxHeight =>
    forEach (range 0 (n - 1)) (fun y maxHeight =>
      let* h := getCell x y in ret (Z.max maxHeight h)) maxHeight) 0.

Definition reset : M t unit :=
  let* n := gets size in
  forEach (range 0 (n - 1)) (fun x _ =>
    forEach (range 0 (n - 1)) (fun y _ => putCell x y 0) tt) tt ;;
  modify (setUnstableCells []) ;;
  modify (setTotalSand 0) ;;
  modify (setTotalAvalanches 0) ;;
  modify (setAvalancheSize 0).

(** [this.grid.map(row => [...row])]: a copy is the same value. *)
Definition getGridCopy : M t (list (list Z)) := gets grid.

Definition getSize : M t Z := gets size.

Definition getCriticalMass : M t Z := gets criticalMass.

End SandPile.

(** ** core/SandPile.js: the pile without the randomness factor *)

Module PlainSandPile.
Import MathUtils.

Record t := mk {
  size : Z;
  criticalMass : Z;
  grid : list (list Z);
  unstableCells : list (Z * Z);
  totalSand : Z;
  totalAvalanches : Z;
  avalancheSize : Z
}.

Definition setGrid (g : list (list Z)) (p : t) : t :=
  mk (size p) (criticalMass p) g (unstableCells p)
     (totalSand p) (totalAvalanches p) (avalancheSize p).
Definition setUnstableCells (u : list (Z * Z)) (p : t) : t :=
  mk (size p) (criticalMass p) (grid p) u
     (totalSand p) (totalAvalanches p) (avalancheSize p).
Definition setTotalSand (n : Z) (p : t) : t :=
  mk (size p) (criticalMass p) (grid p) (unstableCells p)
     n (totalAvalanches p) (avalancheSize p).
Definition setTotalAvalanches (n : Z) (p : t) : t :=
  mk (size p) (criticalMass p) (grid p) (unstableCells p)
     (totalSand p) n (avalancheSize p).
Definition setAvalancheSize (n : Z) (p : t) : t :=
  mk (size p) (criticalMass p) (grid p) (unstableCells p)
     (totalSand p) (totalAvalanches p) n.

Definition getCell (x y : Z) : M t Z :=
  let* g := gets grid in liftOpt (SandPile.readCell g x y).

Definition putCell (x y v : Z) : M t unit :=
  let* g := gets grid in
  let* g' := liftOpt (SandPile.writeCell g x y v) in
  modify (setGrid g').

Definition create (size criticalMass : Z) : option t :=
  if size <? 0 then None
  else Some (mk size criticalMass
                (replicate (Z.to_nat size) (replicate (Z.to_nat size) 0))
                [] 0 0 0).

Definition addSand (x y amount : Z) : M t unit :=
  let* n := gets size in
  if negb (isValidGridPosition x y n) then ret tt
  else
    let* h := getCell x y in
    putCell x y (h + amount) ;;
    let* total := gets totalSand in
    modify (setTotalSand (total + amount)) ;;
    let* h' := getCell x y in
    let* cm := gets criticalMass in
    if cm <=? h' then
      let* u := gets unstableCells in
      modify (setUnstableCells (SandPile.setAdd (x, y) u))
    else ret tt.

Definition getSand (x y : Z) : M t Z :=
  let* n := gets size in
  if negb (isValidGridPosition x y n) then ret 0
  else getCell x y.

Definition topple (x y : Z) (newUnstableCells : list (Z * Z))
  : M t (list (Z * Z)) :=
  let* sandToDistribute := getCell x y in
  let sandPerNeighbor := sandToDistribute / 4 in
  let remainder := Z.rem sandToDistribute 4 in
  putCell x y remainder ;;
  let neighbors := getNeighbors x y in
  let* new :=
    forEach neighbors (fun neighbor new =>
      let* n := gets size in
      if isValidGridPosition (fst neighbor) (snd neighbor) n then
        let* h := getCell (fst neighbor) (snd neighbor) in
        putCell (fst neighbor) (snd neighbor) (h + sandPerNeighbor) ;;
        let* h' := getCell (fst neighbor) (snd neighbor) in
        let* cm := gets criticalMass in
        ret (if cm <=? h'
             then SandPile.setAdd (fst neighbor, snd neighbor) new else new)
      else
        let* total := gets totalSand in
        modify (setTotalSand (total - sandPerNeighbor)) ;;
        noteExit sandPerNeighbor ;;
        ret new) newUnstableCells in
  let* h := getCell x y in
  let* cm := gets criticalMass in
  ret (if cm <=? h then SandPile.setAdd (x, y) new else new).

Definition processAvalanches : M t bool :=
  let* u := gets unstableCells in
  if Z.of_nat (length u) =? 0 then ret false
  else
    modify (setAvalancheSize 0) ;;
    let* '(avalancheOccurred, newUnstableCells) :=
      forEach u (fun cell '(occurred, new) =>
        let* h := getCell (fst cell) (snd cell) in
        let* cm := gets criticalMass in
        if cm <=? h then
          let* new' := topple (fst cell) (snd cell) new in
          let* k := gets avalancheSize in
          modify (setAvalancheSize (k + 1)) ;;
          ret (true, new')
        else ret (occurred, new)) (false, []) in
    modify (setUnstableCells newUnstableCells) ;;
    (if avalancheOccurred : bool then
       let* k := gets totalAvalanches in modify (setTotalAvalanches (k + 1))
     else ret tt) ;;
    ret avalancheOccurred.

Fixpoint stabilizeLoop (fuel : nat) (iterations : Z) : M t Z :=
  match fuel with
  | O => ret iterations
  | S fuel' =>
      let* u := gets unstableCells in
      if 0 <? Z.of_nat (length u) then
        processAvalanches ;; stabilizeLoop fuel' (iterations + 1)
      else ret iterations
  end.

Definition stabilize (maxIterations : Z) : M t Z :=
  stabilizeLoop (Z.to_nat maxIterations) 0.

Definition isStable : M t bool :=
  let* u := gets unstableCells in ret (Z.of_nat (length u) =? 0).

End PlainSandPile.

(** Run a method of a contained object [u] from a method of another
    object; the run time is shared, the result comes with the object as
    the call left it. *)
Definition runOn {T U A} (m : M U A) (u : U) : M T (A * U) :=
  fun s => match m (mkSt u (rt s)) with
           | Some (a, s') => Some ((a, this s'), mkSt (this s) (rt s'))
           | None => None
           end.

(** ** SandSource.js *)

Module SandSource.
Import MathUtils.

Record t := mk {
  gridX : Z;
  gridY : Z;
  sandRate : Q;
  gridSize : Z;
  accumulator : Q;
  worldX : Q;
  worldY : Q;
  worldZ : Q;
  (* the draw that [Math.random().toString(36).substr(2, 9)] prints *)
  id : Q;
  active : bool
}.

Definition setAccumulator (a : Q) (s : t) : t :=
  mk (gridX s) (gridY s) (sandRate s) (gridSize s) a
     (worldX s) (worldY s) (worldZ s) (id s) (active s).
Definition setRate (r : Q) (s : t) : t :=
  mk (gridX s) (gridY s) r (gridSize s) (accumulator s)
     (worldX s) (worldY s) (worldZ s) (id s) (active s).
Definition setActiveFlag (b : bool) (s : t) : t :=
  mk (gridX s) (gridY s) (sandRate s) (gridSize s) (accumulator s)
     (worldX s) (worldY s) (worldZ s) (id s) b.

(** [gridToWorld(gridX, gridY, gridSize)] with [worldSize = 10] *)
Definition gridToWorld (gridX gridY gridSize : Z) : Q * Q :=
  let scale := (10 / inject_Z gridSize)%Q in
  (((inject_Z gridX - inject_Z gridSize / 2) * scale)%Q,
   ((inject_Z gridY - inject_Z gridSize / 2) * scale)%Q).

(** [new SandSource(gridX, gridY, sandRate, gridSize)] *)
Definition create {T} (env : Env) (gridX gridY : Z) (sandRate : Q) (gridSize : Z)
  : M T t :=
  let worldPos := gridToWorld gridX gridY gridSize in
  let* u := mathRandom env in
  ret (mk gridX gridY sandRate gridSize 0%Q
          (fst worldPos) (snd worldPos) 5%Q u true).

(** [SandSource.createRandom(gridSize)] with [minRate = 0.5] and
    [maxRate = 2.0] *)
Definition createRandom {T} (env : Env) (gridSize : Z) : M T t :=
  let margin := Qfloor (inject_Z gridSize * (1 # 10)) in
  let* u1 := mathRandom env in
  let gridX := Qfloor (u1 * inject_Z (gridSize - 2 * margin)) + margin in
  let* u2 := mathRandom env in
  let gridY := Qfloor (u2 * inject_Z (gridSize - 2 * margin)) + margin in
  let* sandRate := randomFloat env (1 # 2) 2 in
  create env gridX gridY sandRate gridSize.

Definition update (deltaTime globalSpeedMultiplier : Q) : M t Z :=
  let* a := gets active in
  if negb a then ret 0
  else
    let* rate := gets sandRate in
    let effectiveRate := (rate * globalSpeedMultiplier)%Q in
    let* acc := gets accumulator in
    modify (setAccumulator (acc + effectiveRate * deltaTime)%Q) ;;
    let* acc1 := gets accumulator in
    let grainsToAdd := Qfloor acc1 in
    modify (setAccumulator (acc1 - inject_Z grainsToAdd)%Q) ;;
    ret grainsToAdd.

Definition setSandRate (rate : Q) : M t unit :=
  modify (setRate (Qmax 0 rate)).

Definition setActive (b : bool) : M t unit := modify (setActiveFlag b).

Definition getGridPosition : M t (Z * Z) :=
  let* x := gets gridX in
  let* y := gets gridY in
  ret (x, y).

Definition getSandRate : M t Q := gets sandRate.

Definition isActive : M t bool := gets active.

(** The object that [toJSON()] returns. *)
Record json := mkJson {
  jsonGridX : Z;
  jsonGridY : Z;
  jsonSandRate : Q;
  jsonActive : bool
}.

(** [toJSON()] reads four fields and changes nothing. *)
Definition toJSON (s : t) : json :=
  mkJson (gridX s) (gridY s) (sandRate s) (active s).

(** [SandSource.fromJSON(data, gridSize)] *)
Definition fromJSON {T} (env : Env) (data : json) (gridSize : Z) : M T t :=
  let* source :=
    create env (jsonGridX data) (jsonGridY data) (jsonSandRate data) gridSize in
  let* '(_, source') := runOn (setActive (jsonActive data)) source in
  ret source'.

End SandSource.

(** ** Simulation.js *)

Module Simulation.

Record t := mk {
  sandPile : SandPile.t;
  sources : list SandSource.t;
  targetFPS : Q;
  targetFrameTime : Q;
  lastUpdateTime : Q;
  accumulator : Q;
  globalSpeed : Q;
  paused : bool;
  gridSize : Z;
  frameCount : Z;
  simulationTime : Q
}.

Definition setSandPile (p : SandPile.t) (s : t) : t :=
  mk p (sources s) (targetFPS s) (targetFrameTime s) (lastUpdateTime s)
     (accumulator s) (globalSpeed s) (paused s) (gridSize s)
     (frameCount s) (simulationTime s).
Definition setSources (l : list SandSource.t) (s : t) : t :=
  mk (sandPile s) l (targetFPS s) (targetFrameTime s) (lastUpdateTime s)
     (accumulator s) (globalSpeed s) (paused s) (gridSize s)
     (frameCount s) (simulationTime s).
Definition setLastUpdateTime (q : Q) (s : t) : t :=
  mk (sandPile s) (sources s) (targetFPS s) (targetFrameTime s) q
     (accumulator s) (globalSpeed s) (paused s) (gridSize s)
     (frameCount s) (simulationTime s).
Definition setSpeed (q : Q) (s : t) : t :=
  mk (sandPile s) (sources s) (targetFPS s) (targetFrameTime s)
     (lastUpdateTime s) (accumulator s) q (paused s) (gridSize s)
     (frameCount s) (simulationTime s).
Definition setPausedFlag (b : bool) (s : t) : t :=
  mk (sandPile s) (sources s) (targetFPS s) (targetFrameTime s)
     (lastUpdateTime s) (accumulator s) (globalSpeed s) b (gridSize s)
     (frameCount s) (simulationTime s).
Definition setFrameCount (n : Z) (s : t) : t :=
  mk (sandPile s) (sources s) (targetFPS s) (targetFrameTime s)
     (lastUpdateTime s) (accumulator s) (globalSpeed s) (paused s)
     (gridSize s) n (simulationTime s).
Definition setSimulationTime (q : Q) (s : t) : t :=
  mk (sandPile s) (sources s) (targetFPS s) (targetFrameTime s)
     (lastUpdateTime s) (accumulator s) (globalSpeed s) (paused s)
     (gridSize s) (frameCount s) q.

(** A call [this.sandPile.m(...)]. *)
Definition onPile {A} (m : M SandPile.t A) : M t A :=
  let* p := gets sandPile in
  let* '(a, p') := runOn m p in
  modify (setSandPile p') ;;
  ret a.

Section WithEnv.
Variable env : Env.

(** [const source = SandSource.createRandom(...); this.sources.push(source)] *)
Definition addRandomSource : M t SandSource.t :=
  let* n := gets gridSize in
  let* source := SandSource.createRandom env n in
  let* l := gets sources in
  modify (setSources (l ++ [source])) ;;
  ret source.

(** The loop [for (let i = 0; i < count; i++) this.addRandomSource()]. *)
Fixpoint addRandomSources (count : nat) : M t unit :=
  match count with
  | O => ret tt
  | S count' => addRandomSource ;; addRandomSources count'
  end.

(** [new Simulation({ gridSize, criticalMass, initialSources, targetFPS })];
    [now] is the value of [performance.now()]. *)
Definition create (gridSize criticalMass initialSources : Z) (targetFPS now : Q)
  : M unit t :=
  let* p := liftOpt (SandPile.create gridSize criticalMass) in
  let sim := mk p [] targetFPS (1000 / targetFPS)%Q now 0%Q 1%Q false
                gridSize 0 0%Q in
  let* '(_, sim') := runOn (addRandomSources (Z.to_nat initialSources)) sim in
  ret sim'.

(** The sources are objects that [source.update] mutates in place;
    [done] holds the sources already visited, as the call left them. *)
Definition updateSources (deltaTime : Q) : M t unit :=
  let* l := gets sources in
  let* done :=
    forEach l (fun source done =>
      let* speed := gets globalSpeed in
      let* '(sandToAdd, source') :=
        runOn (SandSource.update deltaTime speed) source in
      (if 0 <? sandToAdd then
         let* '(pos, _) := runOn SandSource.getGridPosition source' in
         onPile (SandPile.addSand (fst pos) (snd pos) sandToAdd)
       else ret tt) ;;
      ret (done ++ [source'])) [] in
  modify (setSources done).

(** The [while] loop of [Simulation.processAvalanches]; [fuel] is what is
    left of [maxIterationsPerFrame]. *)
Fixpoint processLoop (fuel : nat) : M t unit :=
  match fuel with
  | O => ret tt
  | S fuel' =>
      let* stable := onPile SandPile.isStable in
      if negb stable then
        onPile (SandPile.processAvalanches env) ;; processLoop fuel'
      else ret tt
  end.

Definition maxIterationsPerFrame : nat := 5.

Definition processAvalanches : M t unit := processLoop maxIterationsPerFrame.

(** [update()]; [currentTime] is the value of [performance.now()]. *)
Definition update (currentTime : Q) : M t unit :=
  let* p := gets paused in
  if p then ret tt
  else
    let* last := gets lastUpdateTime in
    let deltaTime := ((currentTime - last) / 1000)%Q in
    modify (setLastUpdateTime currentTime) ;;
    let* time := gets simulationTime in
    modify (setSimulationTime (time + deltaTime)%Q) ;;
    let* k := gets frameCount in
    modify (setFrameCount (k + 1)) ;;
    updateSources deltaTime ;;
    processAvalanches.

Definition stabilize : M t Z :=
  onPile (SandPile.stabilize env SandPile.defaultMaxIterations).

(** [reset()]; [now] is the value of [performance.now()]. *)
Definition reset (now : Q) : M t unit :=
  onPile SandPile.reset ;;
  modify (setSources []) ;;
  modify (setFrameCount 0) ;;
  modify (setSimulationTime 0) ;;
  modify (setLastUpdateTime now) ;;
  addRandomSources 3.

(** The object that [importState] reads; a field that is absent or
    [undefined] is [None].  The [statistics] that [exportState] adds are
    formatted for display and never read back; they are left out. *)
Record state := mkState {
  stateGridSize : option Z;
  stateGrid : option (list (list Z));
  stateSources : option (list SandSource.json);
  stateGlobalSpeed : option Q
}.

Definition exportState : M t state :=
  let* n := gets gridSize in
  let* g := onPile SandPile.getGridCopy in
  let* l := gets sources in
  let* speed := gets globalSpeed in
  ret (mkState (Some n) (Some g) (Some (SandSource.toJSON <$> l)) (Some speed)).

(** [importState(state)]; [now] is the value of [performance.now()]
    that the [reset()] at its start reads. *)
Definition importState (now : Q) (st : state) : M t unit :=
  reset now ;;
  match stateGrid st with
  | Some g =>
      let* n := gets gridSize in
      forEach (SandPile.range 0 (n - 1)) (fun x _ =>
        forEach (SandPile.range 0 (n - 1)) (fun y _ =>
          match g !! Z.to_nat x with
          | Some row =>
              match row !! Z.to_nat y with
              | Some v => onPile (SandPile.addSand x y v)
              | None => ret tt
              end
          | None => ret tt
          end) tt) tt
  | None => ret tt
  end ;;
  match stateSources st with
  | Some l =>
      let* n := gets gridSize in
      let* restored :=
        forEach l (fun sourceData restored =>
          let* source := SandSource.fromJSON env sourceData n in
          ret (restored ++ [source])) [] in
      modify (setSources restored)
  | None => ret tt
  end ;;
  match stateGlobalSpeed st with
  | Some speed => modify (setSpeed speed)
  | None => ret tt
  end.

End WithEnv.

(** [removeSource(index = -1)]; [None] is a call without argument, the
    result [None] is [null]. *)
Definition removeSource (index : option Z) : M t (option SandSource.t) :=
  let index := default (-1) index in
  let* l := gets sources in
  if Z.of_nat (length l) =? 0 then ret None
  else if index =? -1 then
    (* this.sources.pop() *)
    modify (setSources (removelast l)) ;;
    ret (last l)
  else if (0 <=? index) && (index <? Z.of_nat (length l)) then
    (* this.sources.splice(index, 1)[0] *)
    modify (setSources (delete (Z.to_nat index) l)) ;;
    ret (l !! Z.to_nat index)
  else ret None.

Definition getSourceCount : M t Z :=
  let* l := gets sources in ret (Z.of_nat (length l)).

Definition setGlobalSpeed (speed : Q) : M t unit :=
  modify (setSpeed (Qmax 0 (Qmin 5 speed))).

(** [setPaused(paused)]; [now] is the value of [performance.now()]. *)
Definition setPaused (p : bool) (now : Q) : M t unit :=
  modify (setPausedFlag p) ;;
  if negb p then modify (setLastUpdateTime now) else ret tt.

Definition isPaused : M t bool := gets paused.

(** [[...this.sources]] *)
Definition getSources : M t (list SandSource.t) := gets sources.

Definition getGlobalSpeed : M t Q := gets globalSpeed.

Definition getGrid : M t (list (list Z)) := onPile SandPile.getGridCopy.

End Simulation.

(** ** SeismographData.js: the circular signal buffer and the signal *)

Module SeismographData.

Section Float32.
(** The elements of a [Float32Array]; [fround] is the conversion of a
    number that a store into the array performs, [nan] what a store
    of [undefined] leaves. *)
Variable f32 : Type.
Variable fround : Q -> f32.
Variable nan : f32.

Record t := mk {
  bufferSize : Z;
  signalBuffer : list f32;
  bufferIndex : Z;
  bufferFull : bool
}.

(** The buffer fields that [new SeismographData(gridSize, bufferSize,
    sampleRate)] sets up; [new Float32Array(bufferSize)] throws a
    [RangeError] for a negative size. *)
Definition create (bufferSize : Z) : option t :=
  if bufferSize <? 0 then None
  else Some (mk bufferSize (replicate (Z.to_nat bufferSize) (fround 0)) 0 false).

(** [a[i]] for a typed array: [undefined] outside the array. *)
Definition readAt (a : list f32) (i : Z) : option f32 :=
  if i <? 0 then None else a !! Z.to_nat i.

(** [a[i] = v] for a typed array: ignored outside the array. *)
Definition storeAt (a : list f32) (i : Z) (v : f32) : list f32 :=
  if i <? 0 then a else <[Z.to_nat i := v]> a.

(** [addSample(sample)].  With [bufferSize = 0] the cursor becomes
    [NaN]; the model stops there. *)
Definition addSample (sample : Q) (d : t) : option t :=
  if bufferSize d =? 0 then None
  else
    let buffer := storeAt (signalBuffer d) (bufferIndex d) (fround sample) in
    let index := Z.rem (bufferIndex d + 1) (bufferSize d) in
    Some (mk (bufferSize d) buffer index
             (if index =? 0 then true else bufferFull d)).

Definition getAvailableDataLength (d : t) : Z :=
  if bufferFull d then bufferSize d else bufferIndex d.

(** [getSignalData(length)]; [None] as argument is a call without
    argument or with [null], [None] as result is the [RangeError] of
    [new Float32Array].  With [bufferSize = 0] the position [... % 0]
    is [NaN] and the read is [undefined]. *)
Definition getSignalData (length : option Z) (d : t) : option (list f32) :=
  let dataLength :=
    match length with
    | Some l => if l =? 0 then getAvailableDataLength d else l
    | None => getAvailableDataLength d
    end in
  if dataLength <? 0 then None
  else
    let result := replicate (Z.to_nat dataLength) (fround 0) in
    if negb (bufferFull d) && (bufferIndex d <? dataLength) then
      Some (fold_left (fun result i =>
              storeAt result i (default nan (readAt (signalBuffer d) i)))
            (seqZ 0 (bufferIndex d)) result)
    else
      Some (fold_left (fun result i =>
              let bufferPos :=
                if bufferSize d =? 0 then None
                else Some (Z.rem (bufferIndex d - dataLength + i + bufferSize d)
                                 (bufferSize d)) in
              storeAt result i
                (default nan (bufferPos ≫= readAt (signalBuffer d))))
            (seqZ 0 dataLength) result).

(** [addSample] for each sample of a list, oldest first; [update]
    pushes the one sample it derives with [addSample]. *)
Fixpoint addSamples (samples : list Q) (d : t) : option t :=
  match samples with
  | [] => Some d
  | s :: rest =>
      match addSample s d with
      | Some d' => addSamples rest d'
      | None => None
      end
  end.

(** [reset()], the buffer fields: [signalBuffer.fill(0)] keeps the
    length of the array. *)
Definition resetBuffer (d : t) : t :=
  mk (bufferSize d) (replicate (length (signalBuffer d)) (fround 0)) 0 false.

(** *** The signal derived from the grid *)

(** The whole object: the buffer [t] with the fields that [update] and
    [calculateSignal] use; [previousGrid] is [None] while it is [null]. *)
Record processor := mkProcessor {
  gridSize : Z;
  sampleRate : Q;
  buffer : t;
  previousGrid : option (list (list Z));
  distanceWeights : list (list Q);
  maxSignalValue : Q;
  signalDecay : Q;
  baselineNoise : Q;
  eventSensitivity : Q;
  currentSignal : Q;
  peakSignal : Q;
  averageSignal : Q;
  lastUpdateTime : Q;
  samplesGenerated : Z
}.

Definition setBuffer (b : t) (d : processor) : processor :=
  mkProcessor (gridSize d) (sampleRate d) b (previousGrid d) (distanceWeights d)
    (maxSignalValue d) (signalDecay d) (baselineNoise d) (eventSensitivity d)
    (currentSignal d) (peakSignal d) (averageSignal d) (lastUpdateTime d)
    (samplesGenerated d).
Definition setPreviousGrid (g : option (list (list Z))) (d : processor) : processor :=
  mkProcessor (gridSize d) (sampleRate d) (buffer d) g (distanceWeights d)
    (maxSignalValue d) (signalDecay d) (baselineNoise d) (eventSensitivity d)
    (currentSignal d) (peakSignal d) (averageSignal d) (lastUpdateTime d)
    (samplesGenerated d).
Definition setMaxSignalValue (q : Q) (d : processor) : processor :=
  mkProcessor (gridSize d) (sampleRate d) (buffer d) (previousGrid d) (distanceWeights d)
    q (signalDecay d) (baselineNoise d) (eventSensitivity d)
    (currentSignal d) (peakSignal d) (averageSignal d) (lastUpdateTime d)
    (samplesGenerated d).
Definition setSignalDecay (q : Q) (d : processor) : processor :=
  mkProcessor (gridSize d) (sampleRate d) (buffer d) (previousGrid d) (distanceWeights d)
    (maxSignalValue d) q (baselineNoise d) (eventSensitivity d)
    (currentSignal d) (peakSignal d) (averageSignal d) (lastUpdateTime d)
    (samplesGenerated d).
Definition setBaselineNoise (q : Q) (d : processor) : processor :=
  mkProcessor (gridSize d) (sampleRate d) (buffer d) (previousGrid d) (distanceWeights d)
    (maxSignalValue d) (signalDecay d) q (eventSensitivity d)
    (currentSignal d) (peakSignal d) (averageSignal d) (lastUpdateTime d)
    (samplesGenerated d).
Definition setCurrentSignal (q : Q) (d : processor) : processor :=
  mkProcessor (gridSize d) (sampleRate d) (buffer d) (previousGrid d) (distanceWeights d)
    (maxSignalValue d) (signalDecay d) (baselineNoise d) (eventSensitivity d)
    q (peakSignal d) (averageSignal d) (lastUpdateTime d) (samplesGenerated d).
Definition setPeakSignal (q : Q) (d : processor) : processor :=
  mkProcessor (gridSize d) (sampleRate d) (buffer d) (previousGrid d) (distanceWeights d)
    (maxSignalValue d) (signalDecay d) (baselineNoise d) (eventSensitivity d)
    (currentSignal d) q (averageSignal d) (lastUpdateTime d) (samplesGenerated d).
Definition setAverageSignal (q : Q) (d : processor) : processor :=
  mkProcessor (gridSize d) (sampleRate d) (buffer d) (previousGrid d) (distanceWeights d)
    (maxSignalValue d) (signalDecay d) (baselineNoise d) (eventSensitivity d)
    (currentSignal d) (peakSignal d) q (lastUpdateTime d) (samplesGenerated d).
Definition setLastUpdateTime (q : Q) (d : processor) : processor :=
  mkProcessor (gridSize d) (sampleRate d) (buffer d) (previousGrid d) (distanceWeights d)
    (maxSignalValue d) (signalDecay d) (baselineNoise d) (eventSensitivity d)
    (currentSignal d) (peakSignal d) (averageSignal d) q (samplesGenerated d).
Definition setSamplesGenerated (n : Z) (d : processor) : processor :=
  mkProcessor (gridSize d) (sampleRate d) (buffer d) (previousGrid d) (distanceWeights d)
    (maxSignalValue d) (signalDecay d) (baselineNoise d) (eventSensitivity d)
    (currentSignal d) (peakSignal d) (averageSignal d) (lastUpdateTime d) n.

(** The weight of the cell (x, y): 1 at the corner (0, gridSize - 1),
    smaller with the distance from it. *)
Definition distanceWeight (env : Env) (gridSize x y : Z) : Q :=
  let maxDistance := sqrt env (gridSize * gridSize + gridSize * gridSize) in
  let dx := x - 0 in
  let dy := (gridSize - 1) - y in
  let distance := sqrt env (dx * dx + dy * dy) in
  let normalizedDistance := (distance / maxDistance)%Q in
  (1 / (1 + normalizedDistance * 3))%Q.

Definition computeDistanceWeights (env : Env) (gridSize : Z) : list (list Q) :=
  (fun x => (fun y => distanceWeight env gridSize x y) <$> seqZ 0 gridSize)
    <$> seqZ 0 gridSize.

(** [new SeismographData(gridSize, bufferSize, sampleRate)]; [now] is
    the value of [performance.now()].  [new Array(gridSize)] throws a
    [RangeError] for a negative size. *)
Definition construct (env : Env) (gridSize bufferSize : Z) (sampleRate now : Q)
  : option processor :=
  match create bufferSize with
  | Some b =>
      if gridSize <? 0 then None
      else Some (mkProcessor gridSize sampleRate b None
                   (computeDistanceWeights env gridSize)
                   10 (8 # 10) (2 # 100) 5 0 0 0 now 0)
  | None => None
  end.

(** [(Math.random() - 0.5) * this.baselineNoise] *)
Definition generateBaselineNoise (env : Env) : M processor Q :=
  let* u := mathRandom env in
  let* noise := gets baselineNoise in
  ret ((u - (1 # 2)) * noise)%Q.

(** [calculateSignal(currentGrid)].  A row that the grid lacks is a
    [TypeError]; an entry that a row lacks is [undefined], the change is
    then [NaN] and [change > 0] is false.  The weights have [gridSize]
    rows and columns; the model stops at a weight that is absent. *)
Definition calculateSignal (env : Env) (currentGrid : list (list Z)) : M processor Q :=
  let* previous := gets previousGrid in
  match previous with
  | None =>
      modify (setPreviousGrid (Some currentGrid)) ;;
      generateBaselineNoise env
  | Some previousGrid =>
      let* n := gets gridSize in
      let* weights := gets distanceWeights in
      let* '(totalChangeSignal, totalWeight) :=
        forEach (seqZ 0 n) (fun x totals =>
          forEach (seqZ 0 n) (fun y '(totalChangeSignal, totalWeight) =>
            let* currentRow := liftOpt (currentGrid !! Z.to_nat x) in
            let* previousRow := liftOpt (previousGrid !! Z.to_nat x) in
            match currentRow !! Z.to_nat y, previousRow !! Z.to_nat y with
            | Some currentValue, Some previousValue =>
                let change := Z.abs (currentValue - previousValue) in
                if 0 <? change then
                  let* weightRow := liftOpt (weights !! Z.to_nat x) in
                  let* weight := liftOpt (weightRow !! Z.to_nat y) in
                  ret ((totalChangeSignal + inject_Z change * weight)%Q,
                       (totalWeight + weight)%Q)
                else ret (totalChangeSignal, totalWeight)
            | _, _ => ret (totalChangeSignal, totalWeight)
            end) totals) (0%Q, 0%Q) in
      let* sensitivity := gets eventSensitivity in
      let signal :=
        if Qlt_le_dec 0 totalWeight
        then (totalChangeSignal / totalWeight * sensitivity)%Q
        else 0%Q in
      let* max := gets maxSignalValue in
      let signal := Qmin signal max in
      let* noise := generateBaselineNoise env in
      let signal := (signal + noise)%Q in
      let* current := gets currentSignal in
      let* decay := gets signalDecay in
      modify (setCurrentSignal (current * decay + signal * (1 - decay))%Q) ;;
      gets currentSignal
  end.

(** [this.addSample(sample)] on the buffer of the object. *)
Definition pushSample (sample : Q) : M processor unit :=
  let* b := gets buffer in
  let* b' := liftOpt (addSample sample b) in
  modify (setBuffer b').

(** [updateStatistics(signal)] with [alpha = 0.01] *)
Definition updateStatistics (signal : Q) : M processor unit :=
  let* peak := gets peakSignal in
  modify (setPeakSignal (Qmax peak signal)) ;;
  let alpha := (1 # 100)%Q in
  let* average := gets averageSignal in
  modify (setAverageSignal (average * (1 - alpha) + signal * alpha)%Q).

(** [update(currentGrid)]; [now] is the value of [performance.now()].
    The copy [currentGrid.map(row => [...row])] is the same value. *)
Definition update (env : Env) (now : Q) (currentGrid : list (list Z))
  : M processor unit :=
  modify (setLastUpdateTime now) ;;
  let* signal := calculateSignal env currentGrid in
  pushSample signal ;;
  updateStatistics signal ;;
  modify (setPreviousGrid (Some currentGrid)) ;;
  let* k := gets samplesGenerated in
  modify (setSamplesGenerated (k + 1)).

Definition getCurrentSignal : M processor Q := gets currentSignal.

(** [reset()]; [now] is the value of [performance.now()]. *)
Definition reset (now : Q) : M processor unit :=
  let* b := gets buffer in
  modify (setBuffer (resetBuffer b)) ;;
  modify (setPreviousGrid None) ;;
  modify (setCurrentSignal 0) ;;
  modify (setPeakSignal 0) ;;
  modify (setAverageSignal 0) ;;
  modify (setSamplesGenerated 0) ;;
  modify (setLastUpdateTime now).

(** [setParameters({ maxSignalValue, signalDecay, baselineNoise })]; a
    parameter that is absent or [undefined] is [None]. *)
Definition setParameters (maxSignalValue signalDecay baselineNoise : option Q)
  : M processor unit :=
  match maxSignalValue with
  | Some v => modify (setMaxSignalValue (Qmax 1 v))
  | None => ret tt
  end ;;
  match signalDecay with
  | Some v => modify (setSignalDecay (Qmax 0 (Qmin 1 v)))
  | None => ret tt
  end ;;
  match baselineNoise with
  | Some v => modify (setBaselineNoise (Qmax 0 v))
  | None => ret tt
  end.

(** The three parameters of [getParameters()] that [setParameters] sets. *)
Definition getParameters : M processor (Q * Q * Q) :=
  let* max := gets maxSignalValue in
  let* decay := gets signalDecay in
  let* noise := gets baselineNoise in
  ret (max, decay, noise).

End Float32.

End SeismographData.

(** * Vocabulary of the properties *)

(** Total correctness: from a state in [P] the computation [m] returns, and
    its result and final state are in [Q]. *)
Definition hoare {T A} (P : St T -> Prop) (m : M T A) (Q : A -> St T -> Prop) : Prop :=
  forall s, P s -> exists a s', m s = Some (a, s') /\ Q a s'.

(** The sum of a row. *)
Definition sumZ (l : list Z) : Z := foldr Z.add 0 l.

(** The sum of all heights. *)
Definition sumGrid (g : list (list Z)) : Z := sumZ (map sumZ g).

(** [g] has [n] rows of [n] entries. *)
Definition wfGrid (n : Z) (g : list (list Z)) : Prop :=
  length g = Z.to_nat n /\ forall i row, g !! i = Some row -> length row = Z.to_nat n.

(** The cell [c] is on a grid of size [n]. *)
Definition valid (n : Z) (c : Z * Z) : Prop :=
  MathUtils.isValidGridPosition (fst c) (snd c) n = true.

(** No height is negative. *)
Definition nonneg (g : list (list Z)) : Prop :=
  forall x y v, SandPile.readCell g x y = Some v -> 0 <= v.

(** Every cell at or above the critical mass is listed in [l]; asked of
    a positive critical mass only (the empty grid has all its cells at 0
    and lists none). *)
Definition covered (cm : Z) (g : list (list Z)) (l : list (Z * Z)) : Prop :=
  0 < cm ->
  forall x y v, SandPile.readCell g x y = Some v -> cm <= v -> (x, y) ∈ l.

(** The state inside [processAvalanches]: [d] is the sand taken out of a
    toppling cell and not yet handed out, [k] the grains injected so far,
    [cover] the cells that the pass will still examine, [new] the set
    [newUnstableCells]. *)
Record Pass (n cm : Z) (r : Q) (d k : Z) (cover new : list (Z * Z))
    (s : St SandPile.t) : Prop := mkPass {
  pass_size : SandPile.size (this s) = n;
  pass_cm : SandPile.criticalMass (this s) = cm;
  pass_r : SandPile.randomnessFactor (this s) = r;
  pass_wf : wfGrid n (SandPile.grid (this s));
  pass_nonneg : nonneg (SandPile.grid (this s));
  pass_sum : sumGrid (SandPile.grid (this s)) - SandPile.totalSand (this s) = d;
  pass_total : SandPile.totalSand (this s) + exited (rt s) = k;
  pass_exited : 0 <= exited (rt s);
  pass_new : forall c, c ∈ new -> valid n c;
  pass_cover : covered cm (SandPile.grid (this s)) (cover ++ new)
}.

(** The state between two calls of the pile's methods: [Pass] with nothing
    pending, the unstable set as the cells still to examine, and the
    unstable set within the grid. *)
Record Inv (n cm : Z) (r : Q) (k : Z) (s : St SandPile.t) : Prop := mkInv {
  inv_pass : Pass n cm r 0 k (SandPile.unstableCells (this s)) [] s;
  inv_unstable : forall c, c ∈ SandPile.unstableCells (this s) -> valid n c
}.

(** The calls a client makes on a pile. *)
Inductive op : Type :=
| AddSand (x y amount : Z)
| ProcessAvalanches
| Stabilize (maxIterations : Z)
| SetRandomnessFactor (factor : Q).

(** One call, its result dropped. *)
Definition call (env : Env) (o : op) : M SandPile.t unit :=
  match o with
  | AddSand x y amount => SandPile.addSand x y amount
  | ProcessAvalanches => SandPile.processAvalanches env ;; ret tt
  | Stabilize maxIterations => SandPile.stabilize env maxIterations ;; ret tt
  | SetRandomnessFactor factor => SandPile.setRandomnessFactor factor
  end.

(** The calls of [ops], first to last. *)
Fixpoint calls (env : Env) (ops : list op) : M SandPile.t unit :=
  match ops with
  | [] => ret tt
  | o :: rest => call env o ;; calls env rest
  end.

(** [new SandPile(n, cm)] before any call of [Math.random()]. *)
Definition fresh (n cm : Z) : option (St SandPile.t) :=
  match SandPile.create n cm with
  | Some p => Some (mkSt p (mkRt 0 0))
  | None => None
  end.

(** The state after [new SandPile(n, cm)] and the calls [ops]. *)
Definition session (env : Env) (n cm : Z) (ops : list op) : option (St SandPile.t) :=
  match fresh n cm with
  | Some s0 =>
      match calls env ops s0 with
      | Some (_, s) => Some s
      | None => None
      end
  | None => None
  end.

(** The grains that the [addSand] calls of [ops] put on a grid of size [n]. *)
Fixpoint injected (n : Z) (ops : list op) : Z :=
  match ops with
  | [] => 0
  | AddSand x y amount :: rest =>
      (if MathUtils.isValidGridPosition x y n then amount else 0) + injected n rest
  | _ :: rest => injected n rest
  end.

(** No [addSand] of [ops] has a negative amount. *)
Definition nonnegAmounts (ops : list op) : Prop :=
  Forall (fun o => match o with AddSand _ _ amount => 0 <= amount | _ => True end) ops.

(** [ops] are calls of [addSand] only. *)
Definition onlyAddSand (ops : list op) : Prop :=
  Forall (fun o => match o with AddSand _ _ _ => True | _ => False end) ops.

(** Every listed cell is at or above the critical mass. *)
Definition exact (s : St SandPile.t) : Prop :=
  forall x y, (x, y) ∈ SandPile.unstableCells (this s) ->
    exists v, SandPile.readCell (SandPile.grid (this s)) x y = Some v /\
              SandPile.criticalMass (this s) <= v.

(** [Math.random()] returns values in [0, 1). *)
Definition randomInRange (env : Env) : Prop :=
  forall i, (0 <= random env i)%Q /\ (random env i < 1)%Q.

(** The randomness factor is not positive and [Math.random()] has been
    called [k] times. *)
Definition Zero (k : nat) (s : St SandPile.t) : Prop :=
  (SandPile.randomnessFactor (this s) <= 0)%Q /\ randomCalls (rt s) = k.

(** [m] keeps [P] whenever it returns. *)
Definition preserves {T A} (P : St T -> Prop) (m : M T A) : Prop :=
  forall s a s', P s -> m s = Some (a, s') -> P s'.

(** From a state in [P], [m1] and [m2] do the same and keep [P]. *)
Definition agree {T A} (P : St T -> Prop) (m1 m2 : M T A) : Prop :=
  forall s, P s -> m1 s = m2 s /\ forall a s', m1 s = Some (a, s') -> P s'.

(** [topple] with the deterministic distribution in the place of the choice
    on the randomness factor. *)
Definition toppleDeterministic (x y : Z) (newUnstableCells : list (Z * Z))
  : M SandPile.t (list (Z * Z)) :=
  let* sandToDistribute := SandPile.getCell x y in
  SandPile.putCell x y (Z.rem sandToDistribute 4) ;;
  let* new := SandPile.distributeToNeighbors (sandToDistribute / 4)
                (MathUtils.getNeighbors x y) newUnstableCells in
  let* h := SandPile.getCell x y in
  let* cm := gets SandPile.criticalMass in
  ret (if cm <=? h then SandPile.setAdd (x, y) new else new).

(** Calls that leave the randomness factor at 0. *)
Definition deterministicOps (ops : list op) : Prop :=
  Forall (fun o => match o with
                   | SetRandomnessFactor factor => (factor <= 0)%Q
                   | _ => True
                   end) ops.

(** The grid of [s] has size [n] and holds [f x y] at every cell (x, y). *)
Definition Cells (n : Z) (f : Z -> Z -> Z) (s : St SandPile.t) : Prop :=
  SandPile.size (this s) = n /\ wfGrid n (SandPile.grid (this s)) /\
  forall x y, MathUtils.isValidGridPosition x y n = true ->
    SandPile.readCell (SandPile.grid (this s)) x y = Some (f x y).

(** How many times [c] occurs in [l]. *)
Fixpoint occurrences (c : Z * Z) (l : list (Z * Z)) : Z :=
  match l with
  | [] => 0
  | c' :: l' => (if decide (c' = c) then 1 else 0) + occurrences c l'
  end.

(** [getSignalData(length)] on a new buffer of size [bufferSize] after
    the samples [samples] have been pushed, oldest first. *)
Definition signalAfter {f32 : Type} (fround : Q -> f32) (nan : f32)
    (bufferSize : Z) (samples : list Q) (length : option Z) : option (list f32) :=
  match SeismographData.create f32 fround bufferSize with
  | Some d =>
      match SeismographData.addSamples f32 fround samples d with
      | Some d' => SeismographData.getSignalData f32 fround nan length d'
      | None => None
      end
  | None => None
  end.

(** The buffer [d] of size [b] after the samples [l], oldest first: the
    cursor is their number modulo [b], the wrap flag says whether there
    are at least [b] of them, and each of the last [b] samples sits at its
    index modulo [b]. *)
Definition Holds {f32 : Type} (fround : Q -> f32) (b : Z) (l : list Q)
    (d : SeismographData.t f32) : Prop :=
  SeismographData.bufferSize f32 d = b /\
  length (SeismographData.signalBuffer f32 d) = Z.to_nat b /\
  SeismographData.bufferIndex f32 d = Z.of_nat (length l) mod b /\
  SeismographData.bufferFull f32 d = (b <=? Z.of_nat (length l)) /\
  forall j x, l !! j = Some x -> Z.of_nat (length l) - b <= Z.of_nat j ->
    SeismographData.signalBuffer f32 d !! Z.to_nat (Z.of_nat j mod b) = Some (fround x).

(** An environment whose [Math.random()] cycles through 0, 1/7, ..., 6/7 and
    whose [Math.sqrt] is the integer square root. *)
Definition sampleEnv : Env :=
  mkEnv (fun i => (Z.of_nat (i mod 7) # 7)%Q) (fun z => inject_Z (Z.sqrt z)).

(** An environment whose [Math.random()] is always 0. *)
Definition stillEnv : Env := mkEnv (fun _ => 0%Q) (fun z => inject_Z (Z.sqrt z)).

(** The state of a session, an empty pile if the session failed. *)
Definition stateOf (o : option (St SandPile.t)) : St SandPile.t :=
  default (mkSt (SandPile.mk 0 0 [] [] 0%Q 0 0 0) (mkRt 0 0)) o.

(** A paused controller with one source that has a carry of 3/4. *)
Definition pausedSimulation : St Simulation.t :=
  mkSt (Simulation.mk (this (stateOf (session stillEnv 8 4 [AddSand 4 4 5])))
          [SandSource.mk 4 4 (3 # 2) 8 (3 # 4) 0 0 5 (1 # 3) true]
          60 (50 # 3) 1000 0 1 true 8 12 (1 # 5))
       (mkRt 4 0).



(** ** Vocabulary of the further properties *)

(** The state [s] after one more call of [Math.random()]. *)
Definition drawn {T} (s : St T) : St T :=
  mkSt (this s) (mkRt (S (randomCalls (rt s))) (exited (rt s))).



(** The source [src] as [SandSource.createRandom] places it on a grid of
    size [n]: at least [floor(n / 10)] cells away from every edge, with a
    rate in [0.5, 2), active, and with an empty accumulator. *)
Definition placed (n : Z) (src : SandSource.t) : Prop :=
  n / 10 <= SandSource.gridX src < n - n / 10 /\
  n / 10 <= SandSource.gridY src < n - n / 10 /\
  ((1 # 2 <= SandSource.sandRate src)%Q /\ (SandSource.sandRate src < 2)%Q) /\
  SandSource.active src = true /\
  SandSource.accumulator src = 0%Q /\
  SandSource.gridSize src = n.

(** [m] is the largest of 0 and the heights of the cells in [P]. *)
Definition maxOf (g : list (list Z)) (P : Z -> Z -> Prop) (m : Z) : Prop :=
  0 <= m /\
  (forall x y v, P x y -> SandPile.readCell g x y = Some v -> v <= m) /\
  (m = 0 \/ exists x y, P x y /\ SandPile.readCell g x y = Some m).

(** The pile [s] has a grid of size [n] with 0 at every cell in [P], and
    is the pile [s0] apart from its grid. *)
Definition zeroed (n : Z) (s0 : St SandPile.t) (P : Z -> Z -> Prop)
    (s : St SandPile.t) : Prop :=
  wfGrid n (SandPile.grid (this s)) /\
  (forall x y, P x y -> MathUtils.isValidGridPosition x y n = true ->
     SandPile.readCell (SandPile.grid (this s)) x y = Some 0) /\
  SandPile.setGrid [] (this s) = SandPile.setGrid [] (this s0) /\
  rt s = rt s0.

(** Partial correctness: if [m] returns from a state in [P], its result
    and final state are in [Q]. *)
Definition partial {T A} (P : St T -> Prop) (m : M T A) (Q : A -> St T -> Prop) : Prop :=
  forall s a s', P s -> m s = Some (a, s') -> Q a s'.

(** The fields of a pile other than the grid and [totalSand]. *)
Definition others (p : SandPile.t) : SandPile.t :=
  SandPile.setGrid [] (SandPile.setTotalSand 0 p).

(** The pile of [s] is [q] apart from its grid and [totalSand]. *)
Definition Frame (q : SandPile.t) (s : St SandPile.t) : Prop := others (this s) = q.

(** What one pass of [processAvalanches] from the pile [s] leaves: the
    result [b] and the pile [s']. *)
Definition passOutcome (s : St SandPile.t) (b : bool) (s' : St SandPile.t) : Prop :=
  (b = true <->
   exists x y v, (x, y) ∈ SandPile.unstableCells (this s) /\
     SandPile.readCell (SandPile.grid (this s)) x y = Some v /\
     SandPile.criticalMass (this s) <= v) /\
  SandPile.totalAvalanches (this s') =
    SandPile.totalAvalanches (this s) + (if b then 1 else 0) /\
  (b = true ->
   1 <= SandPile.avalancheSize (this s') <=
     Z.of_nat (length (SandPile.unstableCells (this s)))) /\
  (b = false ->
   SandPile.grid (this s') = SandPile.grid (this s) /\
   SandPile.totalSand (this s') = SandPile.totalSand (this s) /\
   SandPile.unstableCells (this s') = [] /\
   rt s' = rt s).

(** What [stabilize(cap)] from the pile [s] leaves: the number [k] of
    passes and the pile [s']. *)
Definition stabilizeOutcome (cap : Z) (s : St SandPile.t) (k : Z)
    (s' : St SandPile.t) : Prop :=
  0 <= k <= Z.max 0 cap /\
  (k < cap -> SandPile.unstableCells (this s') = []) /\
  (k = 0 <-> cap <= 0 \/ SandPile.unstableCells (this s) = []) /\
  SandPile.totalAvalanches (this s) <= SandPile.totalAvalanches (this s') <=
    SandPile.totalAvalanches (this s) + k.

(** The pile of the controller [s], with the run time. *)
Definition pileOf (s : St Simulation.t) : St SandPile.t :=
  mkSt (Simulation.sandPile (this s)) (rt s).

(** The controller [s] is [c] but for its pile, and its pile is in [P]. *)
Definition onController (c : Simulation.t) (P : St SandPile.t -> Prop)
    (s : St Simulation.t) : Prop :=
  exists p, this s = Simulation.setSandPile p c /\ P (mkSt p (rt s)).




(** [update(t)] for each time of [times], first to last. *)
Definition frames (env : Env) (times : list Q) : M Simulation.t unit :=
  forEach times (fun t _ => Simulation.update env t) tt.

(** A running controller with one source that has a carry of 3/4. *)
Definition runningSimulation : St Simulation.t :=
  mkSt (Simulation.mk (this (stateOf (session stillEnv 8 4 [AddSand 4 4 5])))
          [SandSource.mk 4 4 (3 # 2) 8 (3 # 4) 0 0 5 (1 # 3) true]
          60 (50 # 3) 1000 0 1 false 8 12 (1 # 5))
       (mkRt 0 0).

(** The pile [s] while [importState] restores the grid [g]: the cells in
    [P] hold what [g] holds, the others 0; [totalSand] is the sum of the
    heights; the unstable set lists the cells in [P] that [g] has at or
    above the critical mass [cm]; the rest of the pile is [q] and the run
    time [rt0]. *)
Definition restoring (n cm : Z) (g : list (list Z)) (q : SandPile.t) (rt0 : Rt)
    (P : Z -> Z -> Prop) (s : St SandPile.t) : Prop :=
  SandPile.size (this s) = n /\
  SandPile.criticalMass (this s) = cm /\
  wfGrid n (SandPile.grid (this s)) /\
  (forall x y, MathUtils.isValidGridPosition x y n = true -> P x y ->
     SandPile.readCell (SandPile.grid (this s)) x y = SandPile.readCell g x y) /\
  (forall x y, MathUtils.isValidGridPosition x y n = true -> ~ P x y ->
     SandPile.readCell (SandPile.grid (this s)) x y = Some 0) /\
  SandPile.totalSand (this s) = sumGrid (SandPile.grid (this s)) /\
  (forall x y, (x, y) ∈ SandPile.unstableCells (this s) <->
     P x y /\ exists v, SandPile.readCell g x y = Some v /\ cm <= v) /\
  SandPile.setUnstableCells [] (others (this s)) = q /\
  rt s = rt0.

(** The pile that [reset()] leaves of the pile [p]. *)
Definition emptied (p : SandPile.t) : SandPile.t :=
  SandPile.mk (SandPile.size p) (SandPile.criticalMass p)
    (replicate (Z.to_nat (SandPile.size p)) (replicate (Z.to_nat (SandPile.size p)) 0))
    [] (SandPile.randomnessFactor p) 0 0 0.

(** The controller [t'] that [importState] makes of the controller [t]
    from what the controller [e] exported. *)
Definition restoredFrom (now : Q) (e t t' : St Simulation.t) : Prop :=
  let n := Simulation.gridSize (this t) in
  let target := Simulation.sandPile (this t) in
  let g := SandPile.grid (Simulation.sandPile (this e)) in
  let p' := Simulation.sandPile (this t') in
  SandPile.grid p' = g /\
  SandPile.totalSand p' = sumGrid g /\
  (forall x y, (x, y) ∈ SandPile.unstableCells p' <->
     exists v, SandPile.readCell g x y = Some v /\ SandPile.criticalMass target <= v) /\
  SandSource.toJSON <$> Simulation.sources (this t') =
    SandSource.toJSON <$> Simulation.sources (this e) /\
  Forall (fun src => SandSource.accumulator src = 0%Q /\ SandSource.gridSize src = n)
    (Simulation.sources (this t')) /\
  Simulation.globalSpeed (this t') = Simulation.globalSpeed (this e) /\
  (Simulation.frameCount (this t') = 0 /\ Simulation.simulationTime (this t') = 0%Q /\
   Simulation.lastUpdateTime (this t') = now /\
   SandPile.totalAvalanches p' = 0 /\ SandPile.avalancheSize p' = 0) /\
  (Simulation.paused (this t') = Simulation.paused (this t) /\
   Simulation.gridSize (this t') = n /\
   SandPile.size p' = n /\
   SandPile.criticalMass p' = SandPile.criticalMass target /\
   SandPile.randomnessFactor p' = SandPile.randomnessFactor target).

(** The buffer of size [bufferSize] after the samples [samples] have been
    pushed into a new one, oldest first. *)
Definition bufferAfter {f32 : Type} (fround : Q -> f32) (bufferSize : Z)
    (samples : list Q) : option (SeismographData.t f32) :=
  match SeismographData.create f32 fround bufferSize with
  | Some d => SeismographData.addSamples f32 fround samples d
  | None => None
  end.

(** The samples that are available of [samples] in a buffer of size [b]:
    the last [b] of them, or all if they are fewer. *)
Definition availableOf (b : Z) (samples : list Q) : list Q :=
  drop (length samples - Z.to_nat (Z.min (Z.of_nat (length samples)) b)) samples.

(** The parameters as the constructor and [setParameters] leave them. *)
Definition paramsInRange {f32 : Type} (d : SeismographData.processor f32) : Prop :=
  (1 <= SeismographData.maxSignalValue f32 d)%Q /\
  ((0 <= SeismographData.signalDecay f32 d)%Q /\
   (SeismographData.signalDecay f32 d <= 1)%Q) /\
  (0 <= SeismographData.baselineNoise f32 d)%Q.

(** The grid [g] has a row for each of 0 .. n - 1. *)
Definition hasRows (n : Z) (g : list (list Z)) : Prop :=
  forall x, 0 <= x < n -> is_Some (g !! Z.to_nat x).

(** The weights [w] have an entry in (0, 1] for every cell of a grid of
    size [n]. *)
Definition weightsFor (n : Z) (w : list (list Q)) : Prop :=
  forall x y, 0 <= x < n -> 0 <= y < n ->
    exists row q, w !! Z.to_nat x = Some row /\ row !! Z.to_nat y = Some q /\
                  (0 < q)%Q /\ (q <= 1)%Q.

(** [Math.sqrt] returns no negative value. *)
Definition sqrtNonneg (env : Env) : Prop := forall z, (0 <= sqrt env z)%Q.

(** The object [d] can take the grid [g] in [update]: both grids have a
    row for each of 0 .. gridSize - 1 and the weights are in place. *)
Definition ready {f32 : Type} (n : Z) (g : list (list Z))
    (d : SeismographData.processor f32) : Prop :=
  SeismographData.gridSize f32 d = n /\
  hasRows n g /\
  (forall previous, SeismographData.previousGrid f32 d = Some previous ->
     hasRows n previous) /\
  weightsFor n (SeismographData.distanceWeights f32 d).

(** The two loops of [calculateSignal] over the cells, for the weights
    [weights], the current grid [g] and the previous grid [previous]. *)
Definition changeTotals {T : Type} (n : Z) (weights : list (list Q))
    (g previous : list (list Z)) : M T (Q * Q) :=
  forEach (seqZ 0 n) (fun x totals =>
    forEach (seqZ 0 n) (fun y '(totalChangeSignal, totalWeight) =>
      let* currentRow := liftOpt (g !! Z.to_nat x) in
      let* previousRow := liftOpt (previous !! Z.to_nat x) in
      match currentRow !! Z.to_nat y, previousRow !! Z.to_nat y with
      | Some currentValue, Some previousValue =>
          let change := Z.abs (currentValue - previousValue) in
          if 0 <? change then
            let* weightRow := liftOpt (weights !! Z.to_nat x) in
            let* weight := liftOpt (weightRow !! Z.to_nat y) in
            ret ((totalChangeSignal + inject_Z change * weight)%Q,
                 (totalWeight + weight)%Q)
          else ret (totalChangeSignal, totalWeight)
      | _, _ => ret (totalChangeSignal, totalWeight)
      end) totals) (0%Q, 0%Q).

(** What one [update(g)] at time [now] makes of the object [d]: the
    sample [signal] that it pushes and the object [d'] that it leaves;
    [u] is the value that [Math.random()] returned. *)
Definition updateOutcome {f32 : Type} (now : Q) (g : list (list Z)) (u : Q)
    (d : SeismographData.processor f32) (signal : Q)
    (d' : SeismographData.processor f32) : Prop :=
  let noise := ((u - (1 # 2)) * SeismographData.baselineNoise f32 d)%Q in
  SeismographData.previousGrid f32 d' = Some g /\
  SeismographData.samplesGenerated f32 d' = SeismographData.samplesGenerated f32 d + 1 /\
  SeismographData.lastUpdateTime f32 d' = now /\
  SeismographData.peakSignal f32 d' = Qmax (SeismographData.peakSignal f32 d) signal /\
  SeismographData.averageSignal f32 d' =
    (SeismographData.averageSignal f32 d * (1 - (1 # 100)) + signal * (1 # 100))%Q /\
  (SeismographData.gridSize f32 d' = SeismographData.gridSize f32 d /\
   SeismographData.distanceWeights f32 d' = SeismographData.distanceWeights f32 d /\
   SeismographData.maxSignalValue f32 d' = SeismographData.maxSignalValue f32 d /\
   SeismographData.signalDecay f32 d' = SeismographData.signalDecay f32 d /\
   SeismographData.baselineNoise f32 d' = SeismographData.baselineNoise f32 d /\
   SeismographData.eventSensitivity f32 d' = SeismographData.eventSensitivity f32 d) /\
  match SeismographData.previousGrid f32 d with
  | None =>
      signal = noise /\
      SeismographData.currentSignal f32 d' = SeismographData.currentSignal f32 d
  | Some previous =>
      signal = SeismographData.currentSignal f32 d' /\
      exists raw,
        ((0 <= SeismographData.eventSensitivity f32 d)%Q -> (0 <= raw)%Q) /\
        (previous = g -> raw = 0%Q) /\
        SeismographData.currentSignal f32 d' =
          (SeismographData.currentSignal f32 d * SeismographData.signalDecay f32 d +
           (Qmin raw (SeismographData.maxSignalValue f32 d) + noise) *
           (1 - SeismographData.signalDecay f32 d))%Q
  end.

(** A grid of size 4 with one grain on every cell. *)
Definition flatGrid : list (list Z) := replicate 4 (replicate 4 1).

(** An object for a grid of size 4 with a buffer of 8 numbers, no sample
    yet, the grid [flatGrid] as the previous one and a signal of 3. *)
Definition quietProcessor : St (SeismographData.processor Q) :=
  mkSt (SeismographData.mkProcessor Q 4 60
          (SeismographData.mk Q 8 (replicate 8 0%Q) 0 false)
          (Some flatGrid) (SeismographData.computeDistanceWeights sampleEnv 4)
          10 (8 # 10) (2 # 100) 5 3 3 1 0 1)
       (mkRt 0 0).

(** The pile [p] without its randomness factor. *)
Definition plain (p : SandPile.t) : PlainSandPile.t :=
  PlainSandPile.mk (SandPile.size p) (SandPile.criticalMass p) (SandPile.grid p)
    (SandPile.unstableCells p) (SandPile.totalSand p) (SandPile.totalAvalanches p)
    (SandPile.avalancheSize p).

Definition plainSt (s : St SandPile.t) : St PlainSandPile.t :=
  mkSt (plain (this s)) (rt s).

(** The result of a method of the pile, seen without the randomness
    factor. *)
Definition plainResult {A} (o : option (A * St SandPile.t))
  : option (A * St PlainSandPile.t) :=
  match o with
  | Some (a, s) => Some (a, plainSt s)
  | None => None
  end.

(** From a pile whose randomness factor is not positive, [m] does to the
    pile what [m0] does to the pile without the factor and returns what
    [m0] returns, and it leaves the factor not positive. *)
Definition refines {A} (m : M SandPile.t A) (m0 : M PlainSandPile.t A) : Prop :=
  forall s, (SandPile.randomnessFactor (this s) <= 0)%Q ->
    m0 (plainSt s) = plainResult (m s) /\
    forall a s', m s = Some (a, s') -> (SandPile.randomnessFactor (this s') <= 0)%Q.

(** The calls a client makes on a pile of [core/SandPile.js]. *)
Inductive plainOp : Type :=
| PlainAddSand (x y amount : Z)
| PlainProcessAvalanches
| PlainStabilize (maxIterations : Z).

Definition plainCall (o : plainOp) : M PlainSandPile.t unit :=
  match o with
  | PlainAddSand x y amount => PlainSandPile.addSand x y amount
  | PlainProcessAvalanches => PlainSandPile.processAvalanches ;; ret tt
  | PlainStabilize maxIterations => PlainSandPile.stabilize maxIterations ;; ret tt
  end.

Fixpoint plainCalls (ops : list plainOp) : M PlainSandPile.t unit :=
  match ops with
  | [] => ret tt
  | o :: rest => plainCall o ;; plainCalls rest
  end.

(** The state after [new SandPile(n, cm)] of [core/SandPile.js] and the
    calls [ops]. *)
Definition plainSession (n cm : Z) (ops : list plainOp) : option (St PlainSandPile.t) :=
  match PlainSandPile.create n cm with
  | Some p =>
      match plainCalls ops (mkSt p (mkRt 0 0)) with
      | Some (_, s) => Some s
      | None => None
      end
  | None => None
  end.

(** The same call on the pile with the randomness factor. *)
Definition withFactor (o : plainOp) : op :=
  match o with
  | PlainAddSand x y amount => AddSand x y amount
  | PlainProcessAvalanches => ProcessAvalanches
  | PlainStabilize maxIterations => Stabilize maxIterations
  end.

(** * Properties *)

(** ** Total correctness triples for the monad *)

Lemma hoare_ret {T A} (P : St T -> Prop) (Q : A -> St T -> Prop) (a : A) :
  (forall s, P s -> Q a s) -> hoare P (ret a) Q.
Proof. intros H s Hs. exists a, s. split; [reflexivity | auto]. Qed.

Lemma hoare_bind {T A B} (P : St T -> Prop) (R : A -> St T -> Prop)
    (Q : B -> St T -> Prop) (m : M T A) (k : A -> M T B) :
  hoare P m R -> (forall a, hoare (R a) (k a) Q) -> hoare P (bind m k) Q.
Proof.
  intros Hm Hk s Hs. destruct (Hm s Hs) as (a & s1 & E1 & HR).
  destruct (Hk a s1 HR) as (b & s2 & E2 & HQ).
  exists b, s2. split; [| exact HQ]. unfold bind. now rewrite E1.
Qed.

Lemma hoare_conseq {T A} (P P' : St T -> Prop) (Q Q' : A -> St T -> Prop) (m : M T A) :
  hoare P' m Q' -> (forall s, P s -> P' s) -> (forall a s, Q' a s -> Q a s) ->
  hoare P m Q.
Proof.
  intros Hm HP HQ s Hs. destruct (Hm s (HP s Hs)) as (a & s' & E & H).
  exists a, s'. auto.
Qed.

Lemma hoare_gets {T A} (P : St T -> Prop) (f : T -> A) :
  hoare P (gets f) (fun a s => a = f (this s) /\ P s).
Proof. intros s Hs. exists (f (this s)), s. auto. Qed.

Lemma hoare_bind_gets {T A B} (P : St T -> Prop) (f : T -> A) (v : A)
    (k : A -> M T B) (Q : B -> St T -> Prop) :
  (forall s, P s -> f (this s) = v) -> hoare P (k v) Q ->
  hoare P (bind (gets f) k) Q.
Proof.
  intros Hf Hk s Hs. unfold bind, gets. rewrite (Hf s Hs). apply Hk. exact Hs.
Qed.

Lemma hoare_pure {T A} (F : Prop) (P : St T -> Prop) (m : M T A)
    (Q : A -> St T -> Prop) :
  (F -> hoare P m Q) -> hoare (fun s => F /\ P s) m Q.
Proof. intros H s [HF Hs]. exact (H HF s Hs). Qed.

Lemma hoare_bind_modify {T B} (P P' : St T -> Prop) (f : T -> T)
    (k : unit -> M T B) (Q : B -> St T -> Prop) :
  (forall s, P s -> P' (mkSt (f (this s)) (rt s))) -> hoare P' (k tt) Q ->
  hoare P (bind (modify f) k) Q.
Proof. intros Hf Hk s Hs. unfold bind, modify. apply Hk. apply Hf. exact Hs. Qed.

Lemma hoare_modify {T} (P : St T -> Prop) (f : T -> T) (Q : unit -> St T -> Prop) :
  (forall s, P s -> Q tt (mkSt (f (this s)) (rt s))) -> hoare P (modify f) Q.
Proof. intros Hf s Hs. exists tt. eexists. split; [reflexivity |]. auto. Qed.

Lemma hoare_bind_random {T B} (env : Env) (P : St T -> Prop)
    (k : Q -> M T B) (Q' : B -> St T -> Prop) :
  (forall i, (0 <= random env i)%Q /\ (random env i < 1)%Q) ->
  (forall s, P s ->
     P (mkSt (this s) (mkRt (S (randomCalls (rt s))) (exited (rt s))))) ->
  (forall u, (0 <= u)%Q -> (u < 1)%Q -> hoare P (k u) Q') ->
  hoare P (bind (mathRandom env) k) Q'.
Proof.
  intros Hr HP Hk s Hs. unfold bind, mathRandom.
  destruct (Hr (randomCalls (rt s))) as [H0 H1].
  apply (Hk _ H0 H1). apply HP. exact Hs.
Qed.

Lemma hoare_assert {T A} (F : Prop) (P : St T -> Prop) (m : M T A)
    (Q : A -> St T -> Prop) :
  (forall s, P s -> F) -> (F -> hoare P m Q) -> hoare P m Q.
Proof. intros HF H s Hs. exact (H (HF s Hs) s Hs). Qed.

(** The invariant rule of [forEach]: [I done acc] holds when the elements
    [done] have been visited and the loop-carried value is [acc]. *)
Lemma hoare_forEach {T A B} (I : list A -> B -> St T -> Prop)
    (body : A -> B -> M T B) (l : list A) :
  (forall done a acc, (exists rest, l = done ++ a :: rest) ->
     hoare (I done acc) (body a acc) (fun acc' => I (done ++ [a]) acc')) ->
  forall acc, hoare (I [] acc) (forEach l body acc) (fun acc' => I l acc').
Proof.
  intros Hbody.
  assert (G : forall rest done acc, l = done ++ rest ->
            hoare (I done acc) (forEach rest body acc) (fun acc' => I l acc')).
  { induction rest as [| a rest IH]; intros done acc El.
    - rewrite app_nil_r in El. subst done. apply hoare_ret. auto.
    - simpl. eapply hoare_bind.
      + apply Hbody. exists rest. exact El.
      + intros acc'. apply IH. rewrite <- app_assoc. exact El. }
  intros acc. apply (G l [] acc). reflexivity.
Qed.

(** ** Grid coordinates out of range (SandPile.addSand, SandPile.getSand) *)

(** C6. For every state of the pile and every amount, [addSand] at
    coordinates outside the grid returns normally and leaves the whole state
    (grid, totalSand, unstable set and everything else) as it was, and
    [getSand] at such coordinates returns 0 without changing the state. *)
Theorem out_of_range_is_ignored (s : St SandPile.t) (x y amount : Z) :
  MathUtils.isValidGridPosition x y (SandPile.size (this s)) = false ->
  SandPile.addSand x y amount s = Some (tt, s) /\
  SandPile.getSand x y s = Some (0, s).
Proof.
  intros H. unfold SandPile.addSand, SandPile.getSand, bind, gets, ret.
  rewrite H. auto.
Qed.

(** The coordinates (-1, -1) are outside every grid. *)
Lemma minus_one_is_out_of_range (n : Z) :
  MathUtils.isValidGridPosition (-1) (-1) n = false.
Proof. reflexivity. Qed.

(** ** Pause (Simulation.update) *)

(** C8. A paused simulation is not changed by [update]: the call returns
    normally and the controller (pile, sources with their accumulators,
    frame count, simulation time, time baseline) and the run time are the
    ones before the call. *)
Theorem paused_update_changes_nothing (env : Env) (now : Q) (s : St Simulation.t) :
  Simulation.paused (this s) = true ->
  Simulation.update env now s = Some (tt, s).
Proof.
  intros H. unfold Simulation.update, bind, gets, ret. rewrite H. reflexivity.
Qed.

(** ** Emission carry (SandSource.update) *)



(** ** Removing a source (Simulation.removeSource) *)

(** C10. [removeSource] returns null and changes nothing when there is no
    source, or when an index other than -1 lies outside [0, count).
    Without index, or with -1, it removes and returns the last source of
    the collection, which is the one added most recently; with an index
    in range it removes and returns the source at that index.  In both
    cases the count drops by one and the other sources keep their order. *)
Theorem removeSource_cases (env : Env) (s : St Simulation.t) :
  let l := Simulation.sources (this s) in
  let without (l' : list SandSource.t) := mkSt (Simulation.setSources l' (this s)) (rt s) in
  (forall index, l = [] -> Simulation.removeSource index s = Some (None, s)) /\
  (forall i, i <> -1 -> ~ (0 <= i < Z.of_nat (length l)) ->
     Simulation.removeSource (Some i) s = Some (None, s)) /\
  (forall index l' x, index = None \/ index = Some (-1) -> l = l' ++ [x] ->
     Simulation.removeSource index s = Some (Some x, without l') /\
     Simulation.getSourceCount (without l') =
       Some (Z.of_nat (length l) - 1, without l')) /\
  (forall i, 0 <= i < Z.of_nat (length l) ->
     exists x, l !! Z.to_nat i = Some x /\
       Simulation.removeSource (Some i) s =
         Some (Some x, without (delete (Z.to_nat i) l)) /\
       Simulation.getSourceCount (without (delete (Z.to_nat i) l)) =
         Some (Z.of_nat (length l) - 1, without (delete (Z.to_nat i) l))) /\
  (exists src s1, Simulation.addRandomSource env s = Some (src, s1) /\
     Simulation.sources (this s1) = l ++ [src] /\
     forall index, index = None \/ index = Some (-1) ->
       exists s2, Simulation.removeSource index s1 = Some (Some src, s2) /\
                  Simulation.sources (this s2) = l).
Proof.
  intros l without. repeat split.
  - intros index El. unfold Simulation.removeSource, bind, gets, ret.
    fold l. rewrite El. reflexivity.
  - intros i Hi Hr. unfold Simulation.removeSource, bind, gets, ret. fold l.
    simpl. destruct (Z.of_nat (length l) =? 0); [reflexivity |].
    destruct (Z.eqb_spec i (-1)); [contradiction |].
    destruct (Z.leb_spec 0 i), (Z.ltb_spec i (Z.of_nat (length l))); simpl;
      try reflexivity.
    exfalso. apply Hr. lia.
  - unfold Simulation.removeSource, bind, gets, ret, modify. fold l.
    rewrite H0. rewrite length_app. simpl.
    replace (Z.of_nat (length l' + 1) =? 0) with false
      by (symmetry; apply Z.eqb_neq; lia).
    rewrite removelast_last, last_snoc.
    destruct H as [-> | ->]; reflexivity.
  - unfold Simulation.getSourceCount, bind, gets, ret. simpl.
    rewrite H0, length_app. simpl. do 2 f_equal. lia.
  - intros i Hi.
    destruct (lookup_lt_is_Some_2 l (Z.to_nat i)) as [x Hx]; [lia |].
    exists x. split; [exact Hx |]. split.
    + unfold Simulation.removeSource, bind, gets, ret, modify. fold l. simpl.
      replace (Z.of_nat (length l) =? 0) with false
        by (symmetry; apply Z.eqb_neq; lia).
      replace (i =? -1) with false by (symmetry; apply Z.eqb_neq; lia).
      replace (0 <=? i) with true by (symmetry; apply Z.leb_le; lia).
      replace (i <? Z.of_nat (length l)) with true
        by (symmetry; apply Z.ltb_lt; lia).
      simpl. rewrite Hx. reflexivity.
    + unfold Simulation.getSourceCount, bind, gets, ret. simpl.
      rewrite length_delete by (exists x; exact Hx). do 2 f_equal. lia.
  - unfold Simulation.addRandomSource, SandSource.createRandom,
      SandSource.create, MathUtils.randomFloat, bind, gets, ret, modify,
      mathRandom. simpl. fold l.
    eexists _, _. split; [reflexivity |]. split; [reflexivity |].
    intros index Hindex.
    unfold Simulation.removeSource, bind, gets, ret, modify. simpl.
    rewrite length_app. simpl.
    replace (Z.of_nat (length l + 1) =? 0) with false
      by (symmetry; apply Z.eqb_neq; lia).
    rewrite removelast_last, last_snoc.
    destruct Hindex as [-> | ->]; eexists; split; reflexivity.
Qed.

(** ** The grid as an array of rows *)

Lemma isValid_spec (x y n : Z) :
  MathUtils.isValidGridPosition x y n = true <-> 0 <= x < n /\ 0 <= y < n.
Proof.
  unfold MathUtils.isValidGridPosition.
  rewrite !andb_true_iff, !Z.leb_le, !Z.ltb_lt. lia.
Qed.

Lemma isValid_false (x y n : Z) :
  MathUtils.isValidGridPosition x y n = false <-> ~ (0 <= x < n /\ 0 <= y < n).
Proof.
  rewrite <- isValid_spec. destruct (MathUtils.isValidGridPosition x y n); split;
    intros H; try discriminate; try reflexivity; try (intros E; discriminate).
  exfalso. apply H. reflexivity.
Qed.

Lemma sumZ_insert (l : list Z) (i : nat) (old v : Z) :
  l !! i = Some old -> sumZ (<[i := v]> l) = sumZ l - old + v.
Proof.
  revert i. induction l as [| a l IH]; intros [| i] H; simpl in *; try discriminate.
  - injection H as ->. lia.
  - rewrite (IH i H). lia.
Qed.

Lemma sumGrid_insert (g : list (list Z)) (i : nat) (row row' : list Z) :
  g !! i = Some row -> sumGrid (<[i := row']> g) = sumGrid g - sumZ row + sumZ row'.
Proof.
  unfold sumGrid. revert i.
  induction g as [| a g IH]; intros [| i] H; simpl in *; try discriminate.
  - injection H as ->. lia.
  - rewrite (IH i H). lia.
Qed.

Lemma readCell_Some (g : list (list Z)) (x y v : Z) :
  SandPile.readCell g x y = Some v <->
  0 <= x /\ 0 <= y /\ exists row, g !! Z.to_nat x = Some row /\ row !! Z.to_nat y = Some v.
Proof.
  unfold SandPile.readCell.
  destruct (Z.ltb_spec x 0), (Z.ltb_spec y 0); simpl;
    try (split; [discriminate | intros (? & ? & _); lia]).
  destruct (g !! Z.to_nat x) as [row |].
  - split.
    + intros E. repeat split; try assumption. exists row. auto.
    + intros (_ & _ & row' & E & E'). injection E as <-. exact E'.
  - split; [discriminate | intros (_ & _ & row' & E & _); discriminate].
Qed.

Lemma readCell_valid (n : Z) (g : list (list Z)) (x y v : Z) :
  wfGrid n g -> SandPile.readCell g x y = Some v -> valid n (x, y).
Proof.
  intros [Hlen Hrows] H. apply readCell_Some in H as (Hx & Hy & row & Er & Ev).
  pose proof (Hrows _ _ Er) as Hrow.
  apply lookup_lt_Some in Er, Ev. apply isValid_spec. simpl. lia.
Qed.

Lemma readCell_total (n : Z) (g : list (list Z)) (x y : Z) :
  wfGrid n g -> MathUtils.isValidGridPosition x y n = true ->
  exists v, SandPile.readCell g x y = Some v.
Proof.
  intros [Hlen Hrows] H. apply isValid_spec in H.
  destruct (lookup_lt_is_Some_2 g (Z.to_nat x)) as [row Er]; [lia |].
  pose proof (Hrows _ _ Er) as Hrow.
  destruct (lookup_lt_is_Some_2 row (Z.to_nat y)) as [v Ev]; [lia |].
  exists v. apply readCell_Some. repeat split; try lia. exists row. auto.
Qed.

Lemma writeCell_Some (g g' : list (list Z)) (x y v : Z) :
  SandPile.writeCell g x y v = Some g' <->
  0 <= x /\ 0 <= y /\
  exists row, g !! Z.to_nat x = Some row /\ (Z.to_nat y < length row)%nat /\
              g' = <[Z.to_nat x := <[Z.to_nat y := v]> row]> g.
Proof.
  unfold SandPile.writeCell.
  destruct (Z.ltb_spec x 0), (Z.ltb_spec y 0); simpl;
    try (split; [discriminate | intros (? & ? & _); lia]).
  destruct (g !! Z.to_nat x) as [row |].
  - destruct (decide (Z.to_nat y < length row)%nat) as [Hy | Hy]; split.
    + intros E. injection E as <-. repeat split; try assumption.
      exists row. auto.
    + intros (_ & _ & row' & E & _ & ->). injection E as <-. reflexivity.
    + discriminate.
    + intros (_ & _ & row' & E & Hy' & _). injection E as <-. contradiction.
  - split; [discriminate | intros (_ & _ & row' & E & _); discriminate].
Qed.

Lemma writeCell_total (n : Z) (g : list (list Z)) (x y v : Z) :
  wfGrid n g -> MathUtils.isValidGridPosition x y n = true ->
  exists g', SandPile.writeCell g x y v = Some g'.
Proof.
  intros [Hlen Hrows] H. apply isValid_spec in H.
  destruct (lookup_lt_is_Some_2 g (Z.to_nat x)) as [row Er]; [lia |].
  pose proof (Hrows _ _ Er) as Hrow.
  eexists. apply writeCell_Some. repeat split; try lia.
  exists row. repeat split; [exact Er | lia].
Qed.

Lemma writeCell_wf (n : Z) (g g' : list (list Z)) (x y v : Z) :
  wfGrid n g -> SandPile.writeCell g x y v = Some g' -> wfGrid n g'.
Proof.
  intros [Hlen Hrows] H. apply writeCell_Some in H as (_ & _ & row & Er & Hy & ->).
  split.
  - rewrite length_insert. exact Hlen.
  - intros i row' E. destruct (decide (i = Z.to_nat x)) as [-> | Hne].
    + rewrite list_lookup_insert_eq in E by (eapply lookup_lt_Some; exact Er).
      injection E as <-. rewrite length_insert. eapply Hrows. exact Er.
    + rewrite list_lookup_insert_ne in E by congruence. eapply Hrows. exact E.
Qed.

Lemma readCell_writeCell_eq (g g' : list (list Z)) (x y v : Z) :
  SandPile.writeCell g x y v = Some g' -> SandPile.readCell g' x y = Some v.
Proof.
  intros H. apply writeCell_Some in H as (Hx & Hy & row & Er & Hlt & ->).
  apply readCell_Some. repeat split; try assumption.
  exists (<[Z.to_nat y := v]> row). split.
  - apply list_lookup_insert_eq. eapply lookup_lt_Some. exact Er.
  - apply list_lookup_insert_eq. exact Hlt.
Qed.

Lemma readCell_writeCell_ne (g g' : list (list Z)) (x y v x' y' : Z) :
  SandPile.writeCell g x y v = Some g' -> (x', y') <> (x, y) ->
  SandPile.readCell g' x' y' = SandPile.readCell g x' y'.
Proof.
  intros H Hne. apply writeCell_Some in H as (Hx & Hy & row & Er & Hlt & ->).
  unfold SandPile.readCell.
  destruct ((x' <? 0) || (y' <? 0)) eqn:Eneg; [reflexivity |].
  apply orb_false_iff in Eneg as [Hx' Hy'].
  apply Z.ltb_ge in Hx', Hy'.
  destruct (decide (Z.to_nat x' = Z.to_nat x)) as [Ex | Ex].
  - rewrite Ex. rewrite list_lookup_insert_eq by (eapply lookup_lt_Some; exact Er).
    rewrite Er. apply list_lookup_insert_ne.
    intros Ey. apply Hne. f_equal; lia.
  - rewrite list_lookup_insert_ne by congruence. reflexivity.
Qed.

Lemma sumGrid_writeCell (g g' : list (list Z)) (x y v old : Z) :
  SandPile.writeCell g x y v = Some g' -> SandPile.readCell g x y = Some old ->
  sumGrid g' = sumGrid g - old + v.
Proof.
  intros H Hr. apply writeCell_Some in H as (Hx & Hy & row & Er & Hlt & ->).
  apply readCell_Some in Hr as (_ & _ & row' & Er' & Ev).
  rewrite Er in Er'. injection Er' as <-.
  rewrite (sumGrid_insert _ _ row) by exact Er.
  rewrite (sumZ_insert _ _ old) by exact Ev. lia.
Qed.

(** ** The invariant of a relaxation pass *)

Lemma elem_of_setAdd (c c' : Z * Z) (l : list (Z * Z)) :
  c' ∈ SandPile.setAdd c l <-> c' = c \/ c' ∈ l.
Proof.
  unfold SandPile.setAdd. destruct (decide (c ∈ l)) as [Hin | Hin].
  - split; [auto | intros [-> | H]; assumption].
  - rewrite elem_of_app, list_elem_of_singleton. tauto.
Qed.

Lemma pair_eq_dec_Z (x y x' y' : Z) : (x', y') = (x, y) \/ (x', y') <> (x, y).
Proof. destruct (decide ((x', y') = (x, y))); auto. Qed.

(** [Pass] reads the size, the critical mass, the randomness factor, the
    grid, the running total and the count of exited grains only. *)
Lemma Pass_same (n cm : Z) (r : Q) (d k : Z) (cover new : list (Z * Z))
    (s s' : St SandPile.t) :
  SandPile.size (this s') = SandPile.size (this s) ->
  SandPile.criticalMass (this s') = SandPile.criticalMass (this s) ->
  SandPile.randomnessFactor (this s') = SandPile.randomnessFactor (this s) ->
  SandPile.grid (this s') = SandPile.grid (this s) ->
  SandPile.totalSand (this s') = SandPile.totalSand (this s) ->
  exited (rt s') = exited (rt s) ->
  Pass n cm r d k cover new s -> Pass n cm r d k cover new s'.
Proof.
  intros E1 E2 E3 E4 E5 E6 []. constructor; rewrite ?E1, ?E2, ?E3, ?E4, ?E5, ?E6;
    assumption.
Qed.

Lemma Pass_cover (n cm : Z) (r : Q) (d k : Z) (cover new cover' new' : list (Z * Z))
    (s : St SandPile.t) :
  (forall c, c ∈ new' -> valid n c) ->
  (forall x y v, SandPile.readCell (SandPile.grid (this s)) x y = Some v ->
     cm <= v -> (x, y) ∈ cover ++ new -> (x, y) ∈ cover' ++ new') ->
  Pass n cm r d k cover new s -> Pass n cm r d k cover' new' s.
Proof.
  intros Hnew Hcov []. constructor; try assumption.
  intros Hpos x y v E Hv. eauto.
Qed.

(** Projections of updated piles. *)
Ltac pile_fields :=
  cbn [this rt SandPile.size SandPile.criticalMass SandPile.grid
       SandPile.unstableCells SandPile.randomnessFactor SandPile.totalSand
       SandPile.totalAvalanches SandPile.avalancheSize
       SandPile.setGrid SandPile.setUnstableCells SandPile.setRandomness
       SandPile.setTotalSand SandPile.setTotalAvalanches
       SandPile.setAvalancheSize] in *.

Section PassSpecs.
Variable env : Env.
Hypothesis random_range :
  forall i, (0 <= random env i)%Q /\ (random env i < 1)%Q.
Variables (n cm : Z) (r : Q).
Hypothesis r_range : (0 <= r)%Q /\ (r <= 1)%Q.

Lemma addSandToCell_spec (d k : Z) (cover new : list (Z * Z)) (x y a : Z) :
  MathUtils.isValidGridPosition x y n = true -> 0 <= a ->
  hoare (Pass n cm r d k cover new)
        (SandPile.addSandToCell x y a new)
        (fun new' => Pass n cm r (d + a) k cover new').
Proof.
  intros Hv Ha s [Hn Hcm Hr Hwf Hnn Hsum Htot Hex Hnew Hcov].
  destruct (readCell_total _ _ _ _ Hwf Hv) as [h Hh].
  destruct (writeCell_total _ _ _ _ (h + a) Hwf Hv) as [g' Hg'].
  unfold SandPile.addSandToCell, SandPile.getCell, SandPile.putCell,
    bind, gets, liftOpt, modify, ret.
  rewrite Hh. simpl. rewrite Hg'. simpl.
  rewrite (readCell_writeCell_eq _ _ _ _ _ Hg'). simpl. rewrite Hcm.
  eexists _, _. split; [reflexivity |].
  constructor; simpl; try assumption.
  - eapply writeCell_wf; eauto.
  - intros x' y' v E. destruct (pair_eq_dec_Z x y x' y') as [Heq | Hne].
    + injection Heq as -> ->. rewrite (readCell_writeCell_eq _ _ _ _ _ Hg') in E.
      injection E as <-. pose proof (Hnn _ _ _ Hh). lia.
    + rewrite (readCell_writeCell_ne _ _ _ _ _ _ _ Hg' Hne) in E. eauto.
  - rewrite (sumGrid_writeCell _ _ _ _ _ _ Hg' Hh). lia.
  - intros c Hc. destruct (cm <=? h + a); [| auto].
    apply elem_of_setAdd in Hc as [-> | Hc]; [exact Hv | auto].
  - intros Hpos x' y' v E Hv'.
    destruct (pair_eq_dec_Z x y x' y') as [Heq | Hne].
    + injection Heq as -> ->. rewrite (readCell_writeCell_eq _ _ _ _ _ Hg') in E.
      injection E as <-.
      replace (cm <=? h + a) with true by (symmetry; apply Z.leb_le; lia).
      apply elem_of_app. right. apply elem_of_setAdd. auto.
    + rewrite (readCell_writeCell_ne _ _ _ _ _ _ _ Hg' Hne) in E.
      specialize (Hcov Hpos _ _ _ E Hv'). apply elem_of_app in Hcov as [H | H];
        apply elem_of_app; [left; exact H | right].
      destruct (cm <=? h + a); [apply elem_of_setAdd |]; auto.
Qed.

Lemma loseSand_spec (d k : Z) (cover new : list (Z * Z)) (a : Z) :
  0 <= a ->
  hoare (Pass n cm r d k cover new) (SandPile.loseSand a)
        (fun _ => Pass n cm r (d + a) k cover new).
Proof.
  intros Ha s [Hn Hcm Hr Hwf Hnn Hsum Htot Hex Hnew Hcov].
  unfold SandPile.loseSand, bind, gets, modify, noteExit. simpl.
  eexists _, _. split; [reflexivity |].
  constructor; simpl; try assumption; lia.
Qed.

Lemma distributeToNeighbors_spec (d k : Z) (cover : list (Z * Z)) (a : Z)
    (neighbors new : list (Z * Z)) :
  0 <= a ->
  hoare (Pass n cm r d k cover new)
        (SandPile.distributeToNeighbors a neighbors new)
        (fun new' => Pass n cm r (d + a * Z.of_nat (length neighbors)) k cover new').
Proof.
  intros Ha. unfold SandPile.distributeToNeighbors.
  eapply hoare_conseq.
  - apply (hoare_forEach
      (fun done new' => Pass n cm r (d + a * Z.of_nat (length done)) k cover new')).
    intros done c new' _. eapply hoare_bind; [apply hoare_gets |].
    intros m. simpl.
    destruct (MathUtils.isValidGridPosition (fst c) (snd c) m) eqn:Ev.
    + intros s [-> Hs]. rewrite (pass_size _ _ _ _ _ _ _ _ Hs) in Ev.
      destruct (addSandToCell_spec _ _ _ _ _ _ _ Ev Ha s Hs)
        as (new2 & s2 & E & H2).
      exists new2, s2. split; [exact E |].
      rewrite length_app. simpl.
      replace (d + a * Z.of_nat (length done + 1))
        with (d + a * Z.of_nat (length done) + a) by lia.
      exact H2.
    + intros s [_ Hs].
      destruct (loseSand_spec _ _ _ _ _ Ha s Hs) as ([] & s2 & E & H2).
      exists new', s2. split.
      * unfold bind. rewrite E. reflexivity.
      * rewrite length_app. simpl.
        replace (d + a * Z.of_nat (length done + 1))
          with (d + a * Z.of_nat (length done) + a) by lia.
        exact H2.
  - intros s Hs. simpl. rewrite Z.mul_0_r, Z.add_0_r. exact Hs.
  - intros new' s Hs. exact Hs.
Qed.

Lemma random_index (u : Q) (len : Z) :
  (0 <= u)%Q -> (u < 1)%Q -> 0 < len -> 0 <= Qfloor (u * inject_Z len) < len.
Proof using Type.
  intros H0 H1 Hlen.
  assert (Hl : (0 < inject_Z len)%Q).
  { change (inject_Z 0 < inject_Z len)%Q. rewrite <- Zlt_Qlt. exact Hlen. }
  split.
  - change 0 with (Qfloor 0). apply Qfloor_resp_le.
    apply Qmult_le_0_compat; [exact H0 | apply Qlt_le_weak; exact Hl].
  - rewrite Zlt_Qlt. eapply Qle_lt_trans; [apply Qfloor_le |]. nra.
Qed.

Lemma jitter_amount_range (a : Z) (u : Q) :
  0 <= a -> (0 <= u)%Q -> (u < 1)%Q -> 0 <= Qfloor (inject_Z a * r * u) <= a.
Proof using r_range.
  intros Ha H0 H1. destruct r_range as [Hr0 Hr1].
  assert (Hq : (0 <= inject_Z a)%Q).
  { change (inject_Z 0 <= inject_Z a)%Q. rewrite <- Zle_Qle. exact Ha. }
  assert (Hp : (0 <= inject_Z a * r)%Q) by (apply Qmult_le_0_compat; assumption).
  split.
  - change 0 with (Qfloor 0). apply Qfloor_resp_le.
    apply Qmult_le_0_compat; assumption.
  - rewrite <- (Qfloor_Z a) at 2. apply Qfloor_resp_le. nra.
Qed.

Lemma jitterCandidates_valid (x y radius m : Z) (c : SandPile.candidate) :
  In c (SandPile.jitterCandidates env x y radius m) ->
  MathUtils.isValidGridPosition (SandPile.cx c) (SandPile.cy c) m = true.
Proof using Type.
  unfold SandPile.jitterCandidates. intros H.
  apply in_flat_map in H as (dx & _ & H). apply in_flat_map in H as (dy & _ & H).
  destruct ((dx =? 0) && (dy =? 0)); [destruct H |].
  destruct (MathUtils.isValidGridPosition (x + dx) (y + dy) m) eqn:E; [| destruct H].
  destruct (Qle_bool _ _); [| destruct H].
  destruct H as [<- | []]. exact E.
Qed.

Lemma distributeJitteredSand_spec (d k : Z) (cover new : list (Z * Z))
    (x y totalJitter radius : Z) :
  0 <= totalJitter ->
  hoare (Pass n cm r d k cover new)
        (SandPile.distributeJitteredSand env x y totalJitter radius new)
        (fun new' => Pass n cm r (d + totalJitter) k cover new').
Proof using random_range.
  intros Htj. unfold SandPile.distributeJitteredSand.
  apply (hoare_bind_gets _ _ n); [intros s Hs; apply (pass_size _ _ _ _ _ _ _ _ Hs) |].
  set (candidates := SandPile.jitterCandidates env x y radius n).
  assert (Hcand : forall c, c ∈ candidates ->
            MathUtils.isValidGridPosition (SandPile.cx c) (SandPile.cy c) n = true).
  { intros c Hc. apply list_elem_of_In in Hc. eapply jitterCandidates_valid. exact Hc. }
  destruct (Z.eqb_spec (Z.of_nat (length candidates)) 0) as [Hlen | Hlen].
  - eapply hoare_bind; [apply loseSand_spec; exact Htj |].
    intros ?. apply hoare_ret. auto.
  - eapply hoare_bind.
    + eapply hoare_conseq;
        [ apply (hoare_forEach
            (fun (_ : list SandPile.candidate) (acc : Z * list (Z * Z)) s =>
               0 <= fst acc <= totalJitter /\
               Pass n cm r (d + (totalJitter - fst acc)) k cover (snd acc) s))
        | intros s Hs; simpl; split; [lia |];
          replace (d + (totalJitter - totalJitter)) with d by lia; exact Hs
        | intros a s Hs; exact Hs ].
      intros done c [remaining new1] [rest El]. simpl.
      apply hoare_pure. intros Hrange.
      assert (Hc : MathUtils.isValidGridPosition (SandPile.cx c) (SandPile.cy c) n = true).
      { apply Hcand. rewrite El. apply elem_of_app. right. apply list_elem_of_here. }
      destruct (Z.ltb_spec 0 remaining) as [Hrem | Hrem];
        [| apply hoare_ret; auto].
      match goal with |- context [Z.min remaining ?q] => set (amount := Z.min remaining q) end.
      destruct (Z.ltb_spec 0 amount) as [Ham | Ham]; [| apply hoare_ret; auto].
      eapply hoare_bind.
      * apply (addSandToCell_spec (d + (totalJitter - remaining)) k cover new1
                 _ _ amount Hc). lia.
      * intros new2. apply hoare_ret. intros s Hs. simpl. split; [lia |].
        replace (d + (totalJitter - (remaining - amount)))
          with (d + (totalJitter - remaining) + amount) by lia.
        exact Hs.
    + intros [remaining new1]. cbn beta iota. apply hoare_pure. intros Hrange.
      cbn [fst snd] in Hrange |- *.
      destruct (Z.ltb_spec 0 remaining) as [Hrem | Hrem]; cbn [andb].
      * replace (0 <? Z.of_nat (length candidates)) with true
          by (symmetry; apply Z.ltb_lt; lia).
        intros s Hs.
        unfold bind at 1, mathRandom.
        destruct (random_range (randomCalls (rt s))) as [Hu0 Hu1].
        destruct (random_index _ (Z.of_nat (length candidates)) Hu0 Hu1) as [Hi0 Hi1];
          [lia |].
        set (i := Qfloor (random env (randomCalls (rt s)) *
                          inject_Z (Z.of_nat (length candidates)))) in *.
        replace (i <? 0) with false by (symmetry; apply Z.ltb_ge; lia).
        destruct (lookup_lt_is_Some_2 candidates (Z.to_nat i)) as [c Ec]; [lia |].
        unfold bind, liftOpt. rewrite Ec.
        assert (Hc : MathUtils.isValidGridPosition (SandPile.cx c) (SandPile.cy c) n = true).
        { apply Hcand. eapply list_elem_of_lookup_2. exact Ec. }
        assert (Hs' : Pass n cm r (d + (totalJitter - remaining)) k cover new1
                  (mkSt (this s) (mkRt (S (randomCalls (rt s))) (exited (rt s))))).
        { destruct Hs. constructor; assumption. }
        destruct (addSandToCell_spec _ k cover new1 _ _ remaining Hc
                    ltac:(lia) _ Hs') as (new2 & s2 & E & H2).
        exists new2, s2. split; [exact E |].
        replace (d + totalJitter) with (d + (totalJitter - remaining) + remaining)
          by lia.
        exact H2.
      * apply hoare_ret. intros s Hs.
        replace (d + totalJitter) with (d + (totalJitter - remaining)) by lia.
        exact Hs.
Qed.

Lemma Pass_random (d k : Z) (cover new : list (Z * Z)) (s : St SandPile.t) :
  Pass n cm r d k cover new s ->
  Pass n cm r d k cover new
       (mkSt (this s) (mkRt (S (randomCalls (rt s))) (exited (rt s)))).
Proof using Type. intros []. constructor; assumption. Qed.

Lemma distributeWithRandomness_spec (d k : Z) (cover : list (Z * Z))
    (x y a : Z) (neighbors new : list (Z * Z)) :
  0 <= a ->
  hoare (Pass n cm r d k cover new)
        (SandPile.distributeWithRandomness env x y a neighbors new)
        (fun new' => Pass n cm r (d + a * Z.of_nat (length neighbors)) k cover new').
Proof using random_range r_range.
  intros Ha. unfold SandPile.distributeWithRandomness.
  apply (hoare_bind_gets _ _ r); [intros s Hs; apply (pass_r _ _ _ _ _ _ _ _ Hs) |].
  cbv zeta.
  eapply hoare_conseq;
    [ apply (hoare_forEach
        (fun done new' => Pass n cm r (d + a * Z.of_nat (length done)) k cover new'))
    | intros s Hs; simpl; rewrite Z.mul_0_r, Z.add_0_r; exact Hs
    | intros new' s Hs; exact Hs ].
  intros done c new1 _.
  apply (hoare_bind_gets _ _ n); [intros s Hs; apply (pass_size _ _ _ _ _ _ _ _ Hs) |].
  rewrite length_app. simpl length.
  replace (d + a * Z.of_nat (length done + 1))
    with (d + a * Z.of_nat (length done) + a) by lia.
  destruct (MathUtils.isValidGridPosition (fst c) (snd c) n) eqn:Ev; cbn [negb].
  - apply hoare_bind_random; [exact random_range | apply Pass_random |].
    intros u Hu0 Hu1.
    destruct (jitter_amount_range a u Ha Hu0 Hu1) as [Hj0 Hj1].
    set (jitter := Qfloor (inject_Z a * r * u)) in *.
    eapply hoare_bind.
    + apply (addSandToCell_spec _ k cover new1 _ _ (a - jitter) Ev). lia.
    + intros new2. destruct (Z.ltb_spec 0 jitter) as [Hj | Hj].
      * eapply hoare_conseq.
        -- apply (distributeJitteredSand_spec
                    (d + a * Z.of_nat (length done) + (a - jitter))
                    k cover new2 _ _ jitter). lia.
        -- auto.
        -- intros new3 s Hs.
           replace (d + a * Z.of_nat (length done) + a)
             with (d + a * Z.of_nat (length done) + (a - jitter) + jitter) by lia.
           exact Hs.
      * apply hoare_ret. intros s Hs.
        replace (d + a * Z.of_nat (length done) + a)
          with (d + a * Z.of_nat (length done) + (a - jitter)) by lia.
        exact Hs.
  - eapply hoare_bind; [apply loseSand_spec; exact Ha |].
    intros ?. apply hoare_ret. auto.
Qed.

Lemma Z_rem_4 (h : Z) : 0 <= h -> 0 <= Z.rem h 4 /\ h - Z.rem h 4 = 4 * (h / 4) /\ 0 <= h / 4.
Proof using Type.
  intros Hh. rewrite Z.rem_mod_nonneg by lia.
  pose proof (Z.mod_pos_bound h 4 ltac:(lia)).
  pose proof (Z.div_mod h 4 ltac:(lia)).
  pose proof (Z.div_pos h 4 Hh ltac:(lia)). lia.
Qed.

Lemma topple_spec (k : Z) (cover new : list (Z * Z)) (x y : Z) :
  MathUtils.isValidGridPosition x y n = true ->
  hoare (Pass n cm r 0 k ((x, y) :: cover) new)
        (SandPile.topple env x y new)
        (fun new' => Pass n cm r 0 k cover new').
Proof using random_range r_range.
  intros Hv s Hs.
  destruct Hs as [Hn Hcm Hr Hwf Hnn Hsum Htot Hex Hnew Hcov].
  destruct (readCell_total _ _ _ _ Hwf Hv) as [h Hh].
  destruct (Z_rem_4 h (Hnn _ _ _ Hh)) as (Hrem & Hdiv & Hquot).
  destruct (writeCell_total _ _ _ _ (Z.rem h 4) Hwf Hv) as [g1 Hg1].
  set (s1 := mkSt (SandPile.setGrid g1 (this s)) (rt s)).
  assert (H1 : Pass n cm r (- (4 * (h / 4))) k ((x, y) :: cover) new s1).
  { constructor; simpl; try assumption.
    - eapply writeCell_wf; eauto.
    - intros x' y' v E. destruct (pair_eq_dec_Z x y x' y') as [Heq | Hne].
      + injection Heq as -> ->. rewrite (readCell_writeCell_eq _ _ _ _ _ Hg1) in E.
        injection E as <-. exact Hrem.
      + rewrite (readCell_writeCell_ne _ _ _ _ _ _ _ Hg1 Hne) in E. eauto.
    - rewrite (sumGrid_writeCell _ _ _ _ _ _ Hg1 Hh). lia.
    - intros Hpos x' y' v E Hv'. destruct (pair_eq_dec_Z x y x' y') as [Heq | Hne].
      + rewrite Heq. apply list_elem_of_here.
      + rewrite (readCell_writeCell_ne _ _ _ _ _ _ _ Hg1 Hne) in E. eauto. }
  assert (Hdist : exists new1 s2,
            (if Qlt_le_dec 0 r
             then SandPile.distributeWithRandomness env x y (h / 4)
                    (MathUtils.getNeighbors x y) new
             else SandPile.distributeToNeighbors (h / 4)
                    (MathUtils.getNeighbors x y) new) s1 = Some (new1, s2) /\
            Pass n cm r 0 k ((x, y) :: cover) new1 s2).
  { destruct (Qlt_le_dec 0 r).
    - destruct (distributeWithRandomness_spec _ k ((x, y) :: cover) x y (h / 4)
                  (MathUtils.getNeighbors x y) new Hquot s1 H1)
        as (new1 & s2 & E & H2).
      exists new1, s2. split; [exact E |]. simpl length in H2.
      replace (- (4 * (h / 4)) + h / 4 * Z.of_nat 4) with 0 in H2 by lia. exact H2.
    - destruct (distributeToNeighbors_spec _ k ((x, y) :: cover) (h / 4)
                  (MathUtils.getNeighbors x y) new Hquot s1 H1)
        as (new1 & s2 & E & H2).
      exists new1, s2. split; [exact E |]. simpl length in H2.
      replace (- (4 * (h / 4)) + h / 4 * Z.of_nat 4) with 0 in H2 by lia. exact H2. }
  destruct Hdist as (new1 & s2 & E & H2).
  destruct (readCell_total _ _ _ _ (pass_wf _ _ _ _ _ _ _ _ H2) Hv) as [h' Hh'].
  unfold SandPile.topple, SandPile.getCell, SandPile.putCell,
    bind, gets, liftOpt, modify, ret.
  rewrite Hh. cbn beta iota. rewrite Hg1. cbn beta iota.
  cbn [this SandPile.randomnessFactor SandPile.setGrid]. rewrite Hr.
  fold s1. rewrite E. rewrite Hh'.
  rewrite (pass_cm _ _ _ _ _ _ _ _ H2).
  eexists _, _. split; [reflexivity |].
  destruct H2 as [Hn2 Hcm2 Hr2 Hwf2 Hnn2 Hsum2 Htot2 Hex2 Hnew2 Hcov2].
  constructor; try assumption.
  - intros c Hc. destruct (cm <=? h'); [| auto].
    apply elem_of_setAdd in Hc as [-> | Hc]; [exact Hv | auto].
  - intros Hpos x' y' v E' Hv'.
    specialize (Hcov2 Hpos _ _ _ E' Hv'). apply elem_of_app.
    apply elem_of_app in Hcov2 as [Hc | Hc].
    + apply elem_of_cons in Hc as [Hc | Hc]; [| left; exact Hc].
      injection Hc as -> ->. rewrite Hh' in E'. injection E' as <-.
      right. replace (cm <=? h') with true by (symmetry; apply Z.leb_le; lia).
      apply elem_of_setAdd. auto.
    + right. destruct (cm <=? h'); [apply elem_of_setAdd |]; auto.
Qed.

Lemma getCell_spec (d k : Z) (cover new : list (Z * Z)) (x y : Z) :
  MathUtils.isValidGridPosition x y n = true ->
  hoare (Pass n cm r d k cover new) (SandPile.getCell x y)
        (fun h s => SandPile.readCell (SandPile.grid (this s)) x y = Some h /\
                    Pass n cm r d k cover new s).
Proof using Type.
  intros Hv s Hs.
  destruct (readCell_total _ _ _ _ (pass_wf _ _ _ _ _ _ _ _ Hs) Hv) as [h Hh].
  unfold SandPile.getCell, bind, gets, liftOpt. rewrite Hh.
  exists h, s. auto.
Qed.

Lemma processAvalanches_spec (k : Z) :
  hoare (Inv n cm r k) (SandPile.processAvalanches env) (fun _ => Inv n cm r k).
Proof using random_range r_range.
  unfold SandPile.processAvalanches.
  eapply hoare_bind; [apply hoare_gets |]. intros u. cbn beta.
  apply (hoare_assert (forall c, c ∈ u -> valid n c)).
  { intros s [-> HI]. apply (inv_unstable _ _ _ _ _ HI). }
  intros Hu.
  destruct (Z.of_nat (length u) =? 0).
  { apply hoare_ret. intros s [_ HI]. exact HI. }
  apply (hoare_bind_modify _ (Pass n cm r 0 k u [])).
  { intros s [-> [HP _]]. revert HP. apply Pass_same; reflexivity. }
  eapply hoare_bind.
  - eapply hoare_conseq;
      [ apply (hoare_forEach
          (fun done (acc : bool * list (Z * Z)) s =>
             exists rest, u = done ++ rest /\ Pass n cm r 0 k rest (snd acc) s))
      | intros s Hs; exists u; split; [reflexivity | exact Hs]
      | intros acc s Hs; exact Hs ].
    intros done [x y] [occurred new] [rest El]. cbn [fst snd].
    assert (Hc : MathUtils.isValidGridPosition x y n = true).
    { apply (Hu (x, y)). rewrite El. apply elem_of_app. right. apply list_elem_of_here. }
    eapply hoare_bind.
    + eapply hoare_conseq;
        [ apply (getCell_spec 0 k ((x, y) :: rest) new x y Hc)
        | | intros h s Hs; exact Hs ].
      intros s (rest' & El' & Hs). rewrite El in El'.
      apply app_inv_head in El'. subst rest'. exact Hs.
    + intros h. cbn beta.
      eapply (hoare_bind_gets _ _ cm);
        [intros s [_ Hs]; apply (pass_cm _ _ _ _ _ _ _ _ Hs) |].
      destruct (Z.leb_spec cm h) as [Hh | Hh].
      * eapply hoare_bind.
        -- eapply hoare_conseq;
             [ apply (topple_spec k rest new x y Hc)
             | intros s [_ Hs]; exact Hs
             | intros new' s Hs; exact Hs ].
        -- intros new'. cbn beta.
           eapply hoare_bind; [apply hoare_gets |]. intros size'.
           apply (hoare_bind_modify _ (Pass n cm r 0 k rest new')).
           { intros s [_ Hs]. revert Hs. apply Pass_same; reflexivity. }
           apply hoare_ret. intros s Hs. exists rest. split; [| exact Hs].
           rewrite <- app_assoc. exact El.
      * apply hoare_ret. intros s [Hread Hs]. exists rest.
        split; [rewrite <- app_assoc; exact El |]. cbn [snd].
        apply (Pass_cover n cm r 0 k ((x, y) :: rest) new rest new);
          [ apply (pass_new _ _ _ _ _ _ _ _ Hs) | | exact Hs ].
        -- intros x' y' v E Hv Hin. apply elem_of_app.
           apply elem_of_app in Hin as [Hin | Hin]; [| right; exact Hin].
           apply elem_of_cons in Hin as [Hin | Hin]; [| left; exact Hin].
           injection Hin as -> ->. rewrite Hread in E. injection E as <-. lia.
  - intros [occurred new]. cbn beta iota.
    apply (hoare_bind_modify _ (Inv n cm r k)).
    { intros s (rest & El & Hs). cbn [snd] in Hs.
      assert (rest = []) as ->.
      { apply (app_inv_head u). rewrite app_nil_r. symmetry. exact El. }
      constructor; cbn.
      - apply (Pass_cover n cm r 0 k [] new new []).
        + intros c Hc. apply elem_of_nil in Hc. destruct Hc.
        + intros x y v _ _ Hin. rewrite app_nil_r. exact Hin.
        + revert Hs. apply Pass_same; reflexivity.
      - intros c. apply (pass_new _ _ _ _ _ _ _ _ Hs). }
    eapply hoare_bind.
    + instantiate (1 := fun _ => Inv n cm r k). destruct occurred.
      * eapply hoare_bind; [apply hoare_gets |]. intros count.
        apply hoare_modify.
        intros s [_ [HP HU]]. constructor; cbn.
        -- revert HP. apply Pass_same; reflexivity.
        -- exact HU.
      * apply hoare_ret. auto.
    + intros ?. apply hoare_ret. auto.
Qed.

(** What [addSand] does inside the grid, field by field. *)
Lemma addSand_inside (s : St SandPile.t) (x y a h : Z) (g' : list (list Z)) :
  MathUtils.isValidGridPosition x y (SandPile.size (this s)) = true ->
  SandPile.readCell (SandPile.grid (this s)) x y = Some h ->
  SandPile.writeCell (SandPile.grid (this s)) x y (h + a) = Some g' ->
  SandPile.addSand x y a s =
    Some (tt, mkSt (SandPile.mk (SandPile.size (this s))
                      (SandPile.criticalMass (this s)) g'
                      (if SandPile.criticalMass (this s) <=? h + a
                       then SandPile.setAdd (x, y) (SandPile.unstableCells (this s))
                       else SandPile.unstableCells (this s))
                      (SandPile.randomnessFactor (this s))
                      (SandPile.totalSand (this s) + a)
                      (SandPile.totalAvalanches (this s))
                      (SandPile.avalancheSize (this s)))
                   (rt s)).
Proof using Type.
  intros Hv Hh Hg'.
  unfold SandPile.addSand, SandPile.getCell, SandPile.putCell,
    bind, gets, liftOpt, modify, ret.
  rewrite Hv. cbn [negb]. rewrite Hh. cbn beta iota. rewrite Hg'. cbn beta iota.
  pile_fields. rewrite (readCell_writeCell_eq _ _ _ _ _ Hg').
  cbn beta iota. pile_fields.
  destruct (SandPile.criticalMass (this s) <=? h + a); reflexivity.
Qed.

Lemma addSand_spec (k : Z) (x y a : Z) :
  0 <= a ->
  hoare (Inv n cm r k) (SandPile.addSand x y a)
        (fun _ => Inv n cm r
                    (k + if MathUtils.isValidGridPosition x y n then a else 0)).
Proof using Type.
  intros Ha s [[Hn Hcm Hr Hwf Hnn Hsum Htot Hex Hnew Hcov] HU].
  destruct (MathUtils.isValidGridPosition x y n) eqn:Hv.
  - destruct (readCell_total _ _ _ _ Hwf Hv) as [h Hh].
    destruct (writeCell_total _ _ _ _ (h + a) Hwf Hv) as [g' Hg'].
    rewrite <- Hn in Hv. rewrite (addSand_inside s x y a h g' Hv Hh Hg').
    rewrite Hn in Hv. rewrite Hcm.
    eexists _, _. split; [reflexivity |].
    assert (Hsub : forall c, c ∈ SandPile.unstableCells (this s) ->
              c ∈ (if cm <=? h + a
                   then SandPile.setAdd (x, y) (SandPile.unstableCells (this s))
                   else SandPile.unstableCells (this s))).
    { intros c Hc. destruct (cm <=? h + a); [apply elem_of_setAdd |]; auto. }
    constructor; [constructor |]; pile_fields; try assumption; try reflexivity.
    + eapply writeCell_wf; eauto.
    + intros x' y' v E. destruct (pair_eq_dec_Z x y x' y') as [Heq | Hne].
      * injection Heq as -> ->. rewrite (readCell_writeCell_eq _ _ _ _ _ Hg') in E.
        injection E as <-. pose proof (Hnn _ _ _ Hh). lia.
      * rewrite (readCell_writeCell_ne _ _ _ _ _ _ _ Hg' Hne) in E. eauto.
    + rewrite (sumGrid_writeCell _ _ _ _ _ _ Hg' Hh). lia.
    + lia.
    + intros Hpos x' y' v E Hv'. rewrite app_nil_r.
      destruct (pair_eq_dec_Z x y x' y') as [Heq | Hne].
      * injection Heq as -> ->. rewrite (readCell_writeCell_eq _ _ _ _ _ Hg') in E.
        injection E as <-.
        replace (cm <=? h + a) with true by (symmetry; apply Z.leb_le; lia).
        apply elem_of_setAdd. auto.
      * rewrite (readCell_writeCell_ne _ _ _ _ _ _ _ Hg' Hne) in E.
        apply Hsub. specialize (Hcov Hpos _ _ _ E Hv').
        rewrite app_nil_r in Hcov. exact Hcov.
    + intros c Hc. destruct (cm <=? h + a); [| auto].
      apply elem_of_setAdd in Hc as [-> | Hc]; [exact Hv | auto].
  - unfold SandPile.addSand, bind, gets, ret. rewrite Hn, Hv. cbn [negb].
    eexists _, _. split; [reflexivity |]. rewrite Z.add_0_r.
    constructor; [constructor |]; assumption.
Qed.

Lemma stabilizeLoop_spec (k : Z) (fuel : nat) :
  forall iterations,
    hoare (Inv n cm r k) (SandPile.stabilizeLoop env fuel iterations)
          (fun _ => Inv n cm r k).
Proof using random_range r_range.
  induction fuel as [| fuel IH]; intros iterations; simpl.
  - apply hoare_ret. auto.
  - eapply hoare_bind; [apply hoare_gets |]. intros u. cbn beta.
    destruct (0 <? Z.of_nat (length u)).
    + eapply hoare_bind.
      * eapply hoare_conseq;
          [ apply (processAvalanches_spec k)
          | intros s [_ Hs]; exact Hs
          | intros b s Hs; exact Hs ].
      * intros ?. apply IH.
    + apply hoare_ret. intros s [_ Hs]. exact Hs.
Qed.

End PassSpecs.

Lemma clamp_range (factor : Q) :
  (0 <= Qmax 0 (Qmin 1 factor))%Q /\ (Qmax 0 (Qmin 1 factor) <= 1)%Q.
Proof.
  split.
  - apply Q.le_max_l.
  - apply Q.max_lub; [discriminate | apply Q.le_min_l].
Qed.

Lemma setRandomnessFactor_spec (n cm : Z) (r : Q) (k : Z) (factor : Q) :
  hoare (Inv n cm r k) (SandPile.setRandomnessFactor factor)
        (fun _ => Inv n cm (Qmax 0 (Qmin 1 factor)) k).
Proof.
  unfold SandPile.setRandomnessFactor. apply hoare_modify.
  intros s [[] HU].
  constructor; [constructor |]; pile_fields; try assumption; reflexivity.
Qed.

(** ** Sessions: a fresh pile and a sequence of calls *)

Lemma hoare_conj {T A} (P : St T -> Prop) (m : M T A) (Q1 Q2 : A -> St T -> Prop) :
  hoare P m Q1 -> hoare P m Q2 -> hoare P m (fun a s => Q1 a s /\ Q2 a s).
Proof.
  intros H1 H2 s Hs. destruct (H1 s Hs) as (a & s' & E & HQ1).
  destruct (H2 s Hs) as (a' & s'' & E' & HQ2).
  rewrite E in E'. injection E' as <- <-. exists a, s'. auto.
Qed.

Lemma sumZ_replicate_0 (m : nat) : sumZ (replicate m 0) = 0.
Proof. induction m as [| m IH]; simpl; [reflexivity | exact IH]. Qed.

Lemma sumGrid_replicate_0 (m m' : nat) : sumGrid (replicate m (replicate m' 0)) = 0.
Proof.
  unfold sumGrid. induction m as [| m IH]; simpl; [reflexivity |].
  rewrite sumZ_replicate_0. exact IH.
Qed.

Lemma readCell_replicate_0 (m m' : nat) (x y v : Z) :
  SandPile.readCell (replicate m (replicate m' 0)) x y = Some v -> v = 0.
Proof.
  intros H. apply readCell_Some in H as (_ & _ & row & Er & Ev).
  apply lookup_replicate in Er as [-> _]. apply lookup_replicate in Ev as [-> _].
  reflexivity.
Qed.

Lemma fresh_Inv (n cm : Z) :
  0 <= n -> exists s0, fresh n cm = Some s0 /\ Inv n cm 0 0 s0 /\ exact s0.
Proof.
  intros Hn. unfold fresh, SandPile.create.
  replace (n <? 0) with false by (symmetry; apply Z.ltb_ge; exact Hn).
  eexists. split; [reflexivity |]. split.
  - constructor; [constructor |]; pile_fields; try reflexivity.
    + split.
      * apply length_replicate.
      * intros i row E. apply lookup_replicate in E as [-> _].
        apply length_replicate.
    + intros x y v E. apply readCell_replicate_0 in E. lia.
    + rewrite sumGrid_replicate_0. reflexivity.
    + intros c Hc. apply elem_of_nil in Hc. destruct Hc.
    + intros Hpos x y v E Hv. apply readCell_replicate_0 in E. lia.
    + intros c Hc. apply elem_of_nil in Hc. destruct Hc.
  - intros x y Hc. apply elem_of_nil in Hc. destruct Hc.
Qed.

Section Sessions.
Variable env : Env.
Hypothesis random_range : randomInRange env.
Variables n cm : Z.

Lemma call_spec (o : op) (r : Q) (k : Z) :
  (0 <= r)%Q /\ (r <= 1)%Q ->
  match o with AddSand _ _ amount => 0 <= amount | _ => True end ->
  hoare (Inv n cm r k) (call env o)
        (fun _ s => exists r', ((0 <= r')%Q /\ (r' <= 1)%Q) /\
                               Inv n cm r' (k + injected n [o]) s).
Proof using random_range.
  intros Hr Ho. destruct o as [x y a | | maxIterations | factor]; simpl.
  - eapply hoare_conseq; [apply (addSand_spec n cm r k x y a Ho) | auto |].
    intros ? s Hs. exists r. split; [exact Hr |]. rewrite Z.add_0_r. exact Hs.
  - eapply hoare_bind; [apply (processAvalanches_spec env random_range n cm r Hr k) |].
    intros ?. apply hoare_ret. intros s Hs. exists r. rewrite Z.add_0_r. auto.
  - eapply hoare_bind;
      [apply (stabilizeLoop_spec env random_range n cm r Hr k) |].
    intros ?. apply hoare_ret. intros s Hs. exists r. rewrite Z.add_0_r. auto.
  - eapply hoare_conseq; [apply (setRandomnessFactor_spec n cm r k factor) | auto |].
    intros ? s Hs. exists (Qmax 0 (Qmin 1 factor)).
    split; [apply clamp_range |]. rewrite Z.add_0_r. exact Hs.
Qed.

Lemma injected_cons (o : op) (ops : list op) :
  injected n (o :: ops) = injected n [o] + injected n ops.
Proof using Type. destruct o; simpl; lia. Qed.

Lemma calls_spec (ops : list op) :
  nonnegAmounts ops ->
  forall (r : Q) (k : Z), (0 <= r)%Q /\ (r <= 1)%Q ->
  hoare (Inv n cm r k) (calls env ops)
        (fun _ s => exists r', ((0 <= r')%Q /\ (r' <= 1)%Q) /\
                               Inv n cm r' (k + injected n ops) s).
Proof using random_range.
  induction 1 as [| o ops Ho Hops IH]; intros r k Hr.
  - apply hoare_ret. intros s Hs. exists r. rewrite Z.add_0_r. auto.
  - cbn [calls]. eapply hoare_bind; [apply (call_spec o r k Hr Ho) |].
    intros [] s (r' & Hr' & Hs).
    destruct (IH r' _ Hr' s Hs) as (u & s' & E & r'' & Hr'' & Hs').
    exists u, s'. split; [exact E |]. exists r''. split; [exact Hr'' |].
    rewrite injected_cons, Z.add_assoc. exact Hs'.
Qed.

Lemma addSand_exact (r : Q) (k : Z) (x y a : Z) :
  0 <= a ->
  hoare (fun s => Inv n cm r k s /\ exact s) (SandPile.addSand x y a)
        (fun _ s => exact s).
Proof using Type.
  intros Ha s [[[Hn Hcm Hr Hwf Hnn Hsum Htot Hex Hnew Hcov] HU] He].
  destruct (MathUtils.isValidGridPosition x y n) eqn:Hv.
  - destruct (readCell_total _ _ _ _ Hwf Hv) as [h Hh].
    destruct (writeCell_total _ _ _ _ (h + a) Hwf Hv) as [g' Hg'].
    rewrite <- Hn in Hv. rewrite (addSand_inside s x y a h g' Hv Hh Hg').
    eexists _, _. split; [reflexivity |].
    intros x' y' Hc. unfold exact in He. pile_fields.
    destruct (pair_eq_dec_Z x y x' y') as [Heq | Hne].
    + injection Heq as -> ->. exists (h + a).
      split; [apply (readCell_writeCell_eq _ _ _ _ _ Hg') |].
      destruct (Z.leb_spec (SandPile.criticalMass (this s)) (h + a)) as [Hle | Hlt];
        [exact Hle |].
      destruct (He _ _ Hc) as (v & Ev & Hv'). rewrite Hh in Ev.
      injection Ev as <-. lia.
    + rewrite (readCell_writeCell_ne _ _ _ _ _ _ _ Hg' Hne). apply He.
      destruct (SandPile.criticalMass (this s) <=? h + a); [| exact Hc].
      apply elem_of_setAdd in Hc as [Hc | Hc]; [congruence | exact Hc].
  - unfold SandPile.addSand, bind, gets, ret. rewrite Hn, Hv. cbn [negb].
    eexists _, _. split; [reflexivity |]. exact He.
Qed.

Lemma calls_exact (ops : list op) :
  onlyAddSand ops -> nonnegAmounts ops ->
  forall (r : Q) (k : Z),
  hoare (fun s => Inv n cm r k s /\ exact s) (calls env ops) (fun _ s => exact s).
Proof using Type.
  induction 1 as [| o ops Ho Hops IH]; intros Hnn r k.
  - apply hoare_ret. intros s [_ Hs]. exact Hs.
  - destruct o as [x y a | | |]; try destruct Ho.
    apply Forall_cons in Hnn as [Ha Hnn].
    cbn [calls call]. eapply hoare_bind.
    + apply hoare_conj.
      * eapply hoare_conseq;
          [ apply (addSand_spec n cm r k x y a Ha)
          | intros s [Hs _]; exact Hs
          | intros u s Hs; exact Hs ].
      * apply (addSand_exact r k x y a Ha).
    + intros ?. cbn beta. apply (IH Hnn).
Qed.

End Sessions.

(** A session with amounts that are not negative returns, in a state of
    the invariant. *)
Lemma session_Inv (env : Env) (n cm : Z) (ops : list op) :
  randomInRange env -> 0 <= n -> nonnegAmounts ops ->
  exists s r, session env n cm ops = Some s /\
    ((0 <= r)%Q /\ (r <= 1)%Q) /\ Inv n cm r (injected n ops) s.
Proof.
  intros Henv Hn Hops.
  destruct (fresh_Inv n cm Hn) as (s0 & E0 & H0 & _).
  assert (Hr : (0 <= 0)%Q /\ (0 <= 1)%Q) by (split; discriminate).
  destruct (calls_spec env Henv n cm ops Hops 0%Q 0 Hr s0 H0)
    as ([] & s & E & r & Hr' & Hs).
  exists s, r. unfold session. rewrite E0, E. auto.
Qed.

(** ** Conservation *)


(** ** The unstable set *)

(** C4, as the code has it.  Start from a fresh pile with a positive
    critical mass and make any sequence of calls of [addSand] (amounts not
    negative), [processAvalanches], [stabilize] and [setRandomnessFactor].
    The calls all return; afterwards the unstable set lists only cells of
    the grid and lists every cell whose height is at least the critical
    mass (it may list more); so when [isStable()] is true every height is
    below the critical mass.  After calls of [addSand] alone the set is
    exact: every listed cell is at or above the critical mass. *)
Theorem unstable_set_covers (env : Env) (n cm : Z) (ops : list op) :
  randomInRange env -> 0 <= n -> 0 < cm -> nonnegAmounts ops ->
  exists s, session env n cm ops = Some s /\
    (forall c, c ∈ SandPile.unstableCells (this s) -> valid n c) /\
    (forall x y v, SandPile.readCell (SandPile.grid (this s)) x y = Some v ->
       cm <= v -> (x, y) ∈ SandPile.unstableCells (this s)) /\
    (SandPile.isStable s = Some (true, s) ->
     forall x y v, SandPile.readCell (SandPile.grid (this s)) x y = Some v -> v < cm) /\
    (onlyAddSand ops ->
     forall x y, (x, y) ∈ SandPile.unstableCells (this s) ->
       exists v, SandPile.readCell (SandPile.grid (this s)) x y = Some v /\ cm <= v).
Proof.
  intros Henv Hn Hcm Hops.
  destruct (fresh_Inv n cm Hn) as (s0 & E0 & H0 & Hex0).
  assert (Hr : (0 <= 0)%Q /\ (0 <= 1)%Q) by (split; discriminate).
  destruct (calls_spec env Henv n cm ops Hops 0%Q 0 Hr s0 H0)
    as ([] & s & E & r & _ & [HP HU]).
  exists s. unfold session. rewrite E0, E. split; [reflexivity |].
  assert (Hcov : forall x y v,
            SandPile.readCell (SandPile.grid (this s)) x y = Some v ->
            cm <= v -> (x, y) ∈ SandPile.unstableCells (this s)).
  { intros x y v Ev Hv. pose proof (pass_cover _ _ _ _ _ _ _ _ HP Hcm _ _ _ Ev Hv) as H.
    rewrite app_nil_r in H. exact H. }
  repeat split.
  - exact HU.
  - exact Hcov.
  - unfold SandPile.isStable, bind, gets, ret. intros Hst x y v Ev.
    injection Hst as Hlen. apply Z.eqb_eq in Hlen.
    destruct (Z.lt_ge_cases v cm) as [Hlt | Hge]; [exact Hlt |].
    specialize (Hcov _ _ _ Ev Hge).
    destruct (SandPile.unstableCells (this s)); [| discriminate].
    apply elem_of_nil in Hcov. destruct Hcov.
  - intros Hadd x y Hc.
    destruct (calls_exact env n cm ops Hadd Hops 0%Q 0 s0 (conj H0 Hex0))
      as ([] & s' & E' & He).
    rewrite E in E'. injection E' as <-.
    rewrite <- (pass_cm _ _ _ _ _ _ _ _ HP). apply He. exact Hc.
Qed.

(** ** Runs at randomness 0 *)

Lemma preserves_ret {T A} (P : St T -> Prop) (a : A) : preserves P (ret a).
Proof. intros s a' s' Hs E. injection E as <- <-. exact Hs. Qed.

Lemma preserves_bind {T A B} (P : St T -> Prop) (m : M T A) (k : A -> M T B) :
  preserves P m -> (forall a, preserves P (k a)) -> preserves P (bind m k).
Proof.
  intros Hm Hk s b s' Hs E. unfold bind in E.
  destruct (m s) as [[a s1] |] eqn:E1; [| discriminate].
  eapply Hk; [| exact E]. eapply Hm; eauto.
Qed.

Lemma preserves_gets {T A} (P : St T -> Prop) (f : T -> A) : preserves P (gets f).
Proof. intros s a s' Hs E. injection E as <- <-. exact Hs. Qed.

Lemma preserves_liftOpt {T A} (P : St T -> Prop) (o : option A) :
  preserves P (liftOpt o).
Proof.
  intros s a s' Hs E. unfold liftOpt in E. destruct o; [| discriminate].
  injection E as <- <-. exact Hs.
Qed.

Lemma preserves_modify {T} (P : St T -> Prop) (f : T -> T) :
  (forall s, P s -> P (mkSt (f (this s)) (rt s))) -> preserves P (modify f).
Proof. intros Hf s a s' Hs E. injection E as <- <-. auto. Qed.

Lemma preserves_forEach {T A B} (P : St T -> Prop) (body : A -> B -> M T B)
    (l : list A) :
  (forall a acc, preserves P (body a acc)) ->
  forall acc, preserves P (forEach l body acc).
Proof.
  intros Hb. induction l as [| a l IH]; intros acc; simpl.
  - apply preserves_ret.
  - apply preserves_bind; [apply Hb | exact IH].
Qed.

Lemma agree_refl {T A} (P : St T -> Prop) (m : M T A) :
  preserves P m -> agree P m m.
Proof. intros Hm s Hs. split; [reflexivity |]. intros a s' E. eapply Hm; eauto. Qed.

Lemma agree_bind {T A B} (P : St T -> Prop) (m1 m2 : M T A) (k1 k2 : A -> M T B) :
  agree P m1 m2 -> (forall a, agree P (k1 a) (k2 a)) ->
  agree P (bind m1 k1) (bind m2 k2).
Proof.
  intros Hm Hk s Hs. destruct (Hm s Hs) as [E HP]. unfold bind. rewrite <- E.
  destruct (m1 s) as [[a s1] |]; [| split; [reflexivity | discriminate]].
  apply Hk. eapply HP. reflexivity.
Qed.

Lemma agree_bind_gets {T A B} (P : St T -> Prop) (C : A -> Prop) (f : T -> A)
    (k1 k2 : A -> M T B) :
  (forall s, P s -> C (f (this s))) -> (forall v, C v -> agree P (k1 v) (k2 v)) ->
  agree P (bind (gets f) k1) (bind (gets f) k2).
Proof. intros HC Hk s Hs. unfold bind, gets. apply Hk; auto. Qed.

Lemma agree_bind_gets_l {T A B} (P : St T -> Prop) (C : A -> Prop) (f : T -> A)
    (k1 : A -> M T B) (m2 : M T B) :
  (forall s, P s -> C (f (this s))) -> (forall v, C v -> agree P (k1 v) m2) ->
  agree P (bind (gets f) k1) m2.
Proof. intros HC Hk s Hs. unfold bind, gets. apply (Hk _ (HC s Hs) s Hs). Qed.

Lemma agree_forEach {T A B} (P : St T -> Prop) (b1 b2 : A -> B -> M T B)
    (l : list A) :
  (forall a acc, agree P (b1 a acc) (b2 a acc)) ->
  forall acc, agree P (forEach l b1 acc) (forEach l b2 acc).
Proof.
  intros Hb. induction l as [| a l IH]; intros acc; simpl.
  - apply agree_refl, preserves_ret.
  - apply agree_bind; [apply Hb | exact IH].
Qed.

Lemma preserves_noteExit {T} (P : St T -> Prop) (n : Z) :
  (forall s, P s ->
     P (mkSt (this s) (mkRt (randomCalls (rt s)) (exited (rt s) + n)))) ->
  preserves P (noteExit n).
Proof. intros Hf s a s' Hs E. injection E as <- <-. auto. Qed.

(** Steps of a proof that a method keeps [Zero k]. *)
Ltac keeps :=
  repeat first
    [ apply preserves_ret
    | apply preserves_gets
    | apply preserves_liftOpt
    | apply preserves_modify; intros ? [? ?]; split; assumption
    | apply preserves_noteExit; intros ? [? ?]; split; assumption
    | apply preserves_forEach; intros ? ?
    | match goal with
      | |- preserves _ (if ?b then _ else _) => destruct b
      | |- preserves _ (let '(_, _) := ?p in _) => destruct p
      end
    | apply preserves_bind; [| intros ?] ].

Section AtZero.
Variable k : nat.

Lemma getCell_keeps (x y : Z) : preserves (Zero k) (SandPile.getCell x y).
Proof. unfold SandPile.getCell. keeps. Qed.

Lemma putCell_keeps (x y v : Z) : preserves (Zero k) (SandPile.putCell x y v).
Proof. unfold SandPile.putCell. keeps. Qed.

Lemma addSandToCell_keeps (x y a : Z) (new : list (Z * Z)) :
  preserves (Zero k) (SandPile.addSandToCell x y a new).
Proof. unfold SandPile.addSandToCell, SandPile.getCell, SandPile.putCell. keeps. Qed.

Lemma loseSand_keeps (a : Z) : preserves (Zero k) (SandPile.loseSand a).
Proof. unfold SandPile.loseSand. keeps. Qed.

Lemma distributeToNeighbors_keeps (a : Z) (neighbors new : list (Z * Z)) :
  preserves (Zero k) (SandPile.distributeToNeighbors a neighbors new).
Proof.
  unfold SandPile.distributeToNeighbors.
  apply preserves_forEach. intros c acc.
  apply preserves_bind; [apply preserves_gets | intros m].
  destruct (MathUtils.isValidGridPosition _ _ _).
  - apply addSandToCell_keeps.
  - apply preserves_bind; [apply loseSand_keeps | intros ?]. apply preserves_ret.
Qed.

Lemma addSand_keeps (x y a : Z) : preserves (Zero k) (SandPile.addSand x y a).
Proof. unfold SandPile.addSand, SandPile.getCell, SandPile.putCell. keeps. Qed.

Lemma toppleDeterministic_keeps (x y : Z) (new : list (Z * Z)) :
  preserves (Zero k) (toppleDeterministic x y new).
Proof.
  unfold toppleDeterministic.
  apply preserves_bind; [apply getCell_keeps | intros ?].
  apply preserves_bind; [apply putCell_keeps | intros ?].
  apply preserves_bind; [apply distributeToNeighbors_keeps | intros ?].
  apply preserves_bind; [apply getCell_keeps | intros ?]. keeps.
Qed.

(** At randomness 0 [topple] is its deterministic branch, whatever the
    environment. *)
Lemma topple_at_zero (env : Env) (x y : Z) (new : list (Z * Z)) :
  agree (Zero k) (SandPile.topple env x y new) (toppleDeterministic x y new).
Proof.
  unfold SandPile.topple, toppleDeterministic.
  apply agree_bind; [apply agree_refl, getCell_keeps | intros h].
  apply agree_bind; [apply agree_refl, putCell_keeps | intros ?].
  apply (agree_bind_gets_l _ (fun r => (r <= 0)%Q)); [intros s [Hr _]; exact Hr |].
  intros r Hr. destruct (Qlt_le_dec 0 r) as [Hlt | Hle].
  - exfalso. apply (Qlt_not_le _ _ Hlt). exact Hr.
  - apply agree_bind; [apply agree_refl, distributeToNeighbors_keeps | intros ?].
    apply agree_bind; [apply agree_refl, getCell_keeps | intros ?].
    apply agree_refl. keeps.
Qed.

Lemma agree_common {T A} (P : St T -> Prop) (m1 m2 m : M T A) :
  agree P m1 m -> agree P m2 m -> agree P m1 m2.
Proof.
  intros H1 H2 s Hs. destruct (H1 s Hs) as [E1 HP], (H2 s Hs) as [E2 _].
  split; [congruence | exact HP].
Qed.

Lemma topple_agree (env1 env2 : Env) (x y : Z) (new : list (Z * Z)) :
  agree (Zero k) (SandPile.topple env1 x y new) (SandPile.topple env2 x y new).
Proof. eapply agree_common; apply topple_at_zero. Qed.

Lemma processAvalanches_agree (env1 env2 : Env) :
  agree (Zero k) (SandPile.processAvalanches env1) (SandPile.processAvalanches env2).
Proof.
  unfold SandPile.processAvalanches.
  apply agree_bind; [apply agree_refl, preserves_gets | intros u].
  destruct (Z.of_nat (length u) =? 0); [apply agree_refl, preserves_ret |].
  apply agree_bind; [apply agree_refl; keeps | intros ?].
  apply agree_bind.
  - apply agree_forEach. intros c [occurred new].
    apply agree_bind; [apply agree_refl, getCell_keeps | intros h].
    apply agree_bind; [apply agree_refl, preserves_gets | intros cm].
    destruct (cm <=? h); [| apply agree_refl, preserves_ret].
    apply agree_bind; [apply topple_agree | intros new'].
    apply agree_refl. keeps.
  - intros [occurred new]. apply agree_refl. keeps.
Qed.

Lemma stabilizeLoop_agree (env1 env2 : Env) (fuel : nat) :
  forall iterations,
    agree (Zero k) (SandPile.stabilizeLoop env1 fuel iterations)
                   (SandPile.stabilizeLoop env2 fuel iterations).
Proof.
  induction fuel as [| fuel IH]; intros iterations; simpl.
  - apply agree_refl, preserves_ret.
  - apply agree_bind; [apply agree_refl, preserves_gets | intros u].
    destruct (0 <? Z.of_nat (length u)); [| apply agree_refl, preserves_ret].
    apply agree_bind; [apply processAvalanches_agree | intros ?]. apply IH.
Qed.

Lemma clamp_nonpositive (factor : Q) : (factor <= 0)%Q -> (Qmax 0 (Qmin 1 factor) <= 0)%Q.
Proof.
  intros H. apply Q.max_lub; [apply Qle_refl |].
  eapply Qle_trans; [apply Q.le_min_r | exact H].
Qed.

Lemma call_agree (env1 env2 : Env) (o : op) :
  match o with SetRandomnessFactor factor => (factor <= 0)%Q | _ => True end ->
  agree (Zero k) (call env1 o) (call env2 o).
Proof.
  intros Ho. destruct o as [x y a | | maxIterations | factor];
    cbn [call]; unfold SandPile.stabilize.
  - apply agree_refl, addSand_keeps.
  - apply agree_bind; [apply processAvalanches_agree | intros ?].
    apply agree_refl, preserves_ret.
  - apply agree_bind; [apply stabilizeLoop_agree | intros ?].
    apply agree_refl, preserves_ret.
  - apply agree_refl. unfold SandPile.setRandomnessFactor.
    apply preserves_modify. intros s [_ Hk]. split; [| exact Hk].
    apply clamp_nonpositive, Ho.
Qed.

Lemma calls_agree (env1 env2 : Env) (ops : list op) :
  deterministicOps ops -> agree (Zero k) (calls env1 ops) (calls env2 ops).
Proof.
  induction 1 as [| o ops Ho Hops IH]; cbn [calls].
  - apply agree_refl, preserves_ret.
  - apply agree_bind; [apply call_agree, Ho | intros ?]. exact IH.
Qed.

End AtZero.

Lemma fresh_Zero (n cm : Z) (s0 : St SandPile.t) : fresh n cm = Some s0 -> Zero 0 s0.
Proof.
  unfold fresh, SandPile.create. destruct (n <? 0); [discriminate |].
  intros E. injection E as <-. split; [apply Qle_refl | reflexivity].
Qed.

Lemma session_agree (env1 env2 : Env) (n cm : Z) (ops : list op) :
  deterministicOps ops ->
  session env1 n cm ops = session env2 n cm ops /\
  forall s, session env1 n cm ops = Some s -> Zero 0 s.
Proof.
  intros Hops. unfold session.
  destruct (fresh n cm) as [s0 |] eqn:E0; [| split; [reflexivity | discriminate]].
  destruct (calls_agree 0 env1 env2 ops Hops s0 (fresh_Zero _ _ _ E0)) as [E HP].
  rewrite <- E. split; [reflexivity |].
  destruct (calls env1 ops s0) as [[u s'] |]; [| discriminate].
  intros s Es. injection Es as <-. eapply HP. reflexivity.
Qed.

(** C3. Two piles of the same size and critical mass that receive the same
    calls of [addSand], [processAvalanches] and [stabilize] at randomness 0,
    each with its own [Math.random] and [Math.sqrt], end in the same state:
    same grid, same unstable set, same counters.  No call of
    [Math.random()] is made, and every [topple] of the run is the
    deterministic branch.  With a size and amounts that are not negative
    the run returns. *)
Theorem determinism_at_zero (env1 env2 : Env) (n cm : Z) (ops : list op) :
  deterministicOps ops ->
  session env1 n cm ops = session env2 n cm ops /\
  (forall s, session env1 n cm ops = Some s ->
     randomCalls (rt s) = 0%nat /\ (SandPile.randomnessFactor (this s) <= 0)%Q) /\
  (forall x y new s, (SandPile.randomnessFactor (this s) <= 0)%Q ->
     SandPile.topple env1 x y new s = toppleDeterministic x y new s) /\
  (0 <= n -> nonnegAmounts ops -> exists s, session env1 n cm ops = Some s).
Proof.
  intros Hops. destruct (session_agree env1 env2 n cm ops Hops) as [Eq Hz].
  split; [exact Eq |]. split; [| split].
  - intros s E. destruct (Hz s E) as [Hr Hk]. auto.
  - intros x y new s Hr.
    apply (topple_at_zero (randomCalls (rt s)) env1 x y new s).
    split; [exact Hr | reflexivity].
  - intros Hn Hnn.
    set (still := mkEnv (fun _ => 0%Q) (fun _ => 0%Q)).
    assert (Hstill : randomInRange still).
    { intros i. split; [apply Qle_refl | reflexivity]. }
    destruct (fresh_Inv n cm Hn) as (s0 & E0 & H0 & _).
    assert (Hr : (0 <= 0)%Q /\ (0 <= 1)%Q) by (split; discriminate).
    destruct (calls_spec still Hstill n cm ops Hnn 0%Q 0 Hr s0 H0)
      as ([] & s & E & _).
    exists s. destruct (session_agree env1 still n cm ops Hops) as [E' _].
    rewrite E'. unfold session. rewrite E0, E. reflexivity.
Qed.

(** ** The effect of a topple, cell by cell *)

Lemma occurrences_app (c : Z * Z) (l1 l2 : list (Z * Z)) :
  occurrences c (l1 ++ l2) = occurrences c l1 + occurrences c l2.
Proof. induction l1 as [| c' l1 IH]; simpl; [reflexivity | rewrite IH; lia]. Qed.

Lemma occurrences_neighbors (x y : Z) (c : Z * Z) :
  occurrences (x, y) (MathUtils.getNeighbors x y) = 0 /\
  (c ∈ MathUtils.getNeighbors x y -> occurrences c (MathUtils.getNeighbors x y) = 1) /\
  (c ∉ MathUtils.getNeighbors x y -> occurrences c (MathUtils.getNeighbors x y) = 0).
Proof.
  unfold MathUtils.getNeighbors. destruct c as [x' y']. simpl.
  rewrite !elem_of_cons, elem_of_nil.
  split; [| split].
  - repeat case_decide; simplify_eq; lia.
  - intros H. repeat case_decide; simplify_eq; try lia.
    destruct H as [H | [H | [H | [H | []]]]]; simplify_eq.
  - intros H. repeat case_decide; simplify_eq; try lia; exfalso; apply H; auto.
Qed.

Lemma Cells_ext (n : Z) (f g : Z -> Z -> Z) (s : St SandPile.t) :
  (forall x y, MathUtils.isValidGridPosition x y n = true -> f x y = g x y) ->
  Cells n f s -> Cells n g s.
Proof.
  intros Hfg (Hn & Hwf & Hf). split; [exact Hn | split; [exact Hwf |]].
  intros x y Hv. rewrite <- (Hfg x y Hv). auto.
Qed.

Lemma getCell_cells (n : Z) (f : Z -> Z -> Z) (x y : Z) :
  MathUtils.isValidGridPosition x y n = true ->
  hoare (Cells n f) (SandPile.getCell x y) (fun h s => h = f x y /\ Cells n f s).
Proof.
  intros Hv s Hs. destruct Hs as (Hn & Hwf & Hf).
  unfold SandPile.getCell, bind, gets, liftOpt. rewrite (Hf x y Hv).
  exists (f x y), s. unfold Cells. auto.
Qed.

Lemma putCell_cells (n : Z) (f : Z -> Z -> Z) (x y v : Z) :
  MathUtils.isValidGridPosition x y n = true ->
  hoare (Cells n f) (SandPile.putCell x y v)
        (fun _ => Cells n (fun x' y' => if decide ((x', y') = (x, y)) then v else f x' y')).
Proof.
  intros Hv s (Hn & Hwf & Hf).
  destruct (writeCell_total _ _ _ _ v Hwf Hv) as [g' Hg'].
  unfold SandPile.putCell, bind, gets, liftOpt, modify. rewrite Hg'.
  eexists _, _. split; [reflexivity |].
  split; [exact Hn | split; [exact (writeCell_wf _ _ _ _ _ _ Hwf Hg') |]].
  pile_fields.
  intros x' y' Hv'. case_decide as Heq.
  - injection Heq as -> ->. apply (readCell_writeCell_eq _ _ _ _ _ Hg').
  - rewrite (readCell_writeCell_ne _ _ _ _ _ _ _ Hg' Heq). auto.
Qed.

Lemma addSandToCell_cells (n : Z) (f : Z -> Z -> Z) (x y a : Z) (new : list (Z * Z)) :
  MathUtils.isValidGridPosition x y n = true ->
  hoare (Cells n f) (SandPile.addSandToCell x y a new)
        (fun _ => Cells n (fun x' y' =>
                    f x' y' + if decide ((x, y) = (x', y')) then a else 0)).
Proof.
  intros Hv. unfold SandPile.addSandToCell.
  eapply hoare_bind; [apply (getCell_cells n f x y Hv) |]. intros h.
  apply hoare_pure. intros ->.
  eapply hoare_bind; [apply (putCell_cells n f x y _ Hv) |]. intros ?.
  eapply hoare_bind; [apply (getCell_cells n _ x y Hv) |]. intros h'.
  eapply hoare_bind; [apply hoare_gets |]. intros cm.
  apply hoare_ret. intros s [_ [_ Hs]]. revert Hs. apply Cells_ext.
  intros x' y' _. repeat case_decide; simplify_eq; lia.
Qed.

Lemma loseSand_cells (n : Z) (f : Z -> Z -> Z) (a : Z) :
  hoare (Cells n f) (SandPile.loseSand a) (fun _ => Cells n f).
Proof.
  intros s Hs. unfold SandPile.loseSand, bind, gets, modify, noteExit.
  eexists _, _. split; [reflexivity |]. exact Hs.
Qed.

Lemma distributeToNeighbors_cells (n : Z) (f : Z -> Z -> Z) (a : Z)
    (neighbors new : list (Z * Z)) :
  hoare (Cells n f) (SandPile.distributeToNeighbors a neighbors new)
        (fun _ => Cells n (fun x y => f x y + a * occurrences (x, y) neighbors)).
Proof.
  unfold SandPile.distributeToNeighbors.
  eapply hoare_conseq;
    [ apply (hoare_forEach
        (fun done (_ : list (Z * Z)) =>
           Cells n (fun x y => f x y + a * occurrences (x, y) done)))
    | intros s; apply Cells_ext; intros x y _; simpl; lia
    | intros new' s Hs; exact Hs ].
  intros done [cx cy] new' _. cbn [fst snd].
  apply (hoare_bind_gets _ _ n); [intros s Hs; apply Hs |].
  destruct (MathUtils.isValidGridPosition cx cy n) eqn:Ev.
  - eapply hoare_conseq;
      [ apply (addSandToCell_cells n
                 (fun x y => f x y + a * occurrences (x, y) done) cx cy a new' Ev)
      | auto
      | intros new2 s; apply Cells_ext ].
    intros x y _. rewrite occurrences_app. simpl. case_decide; lia.
  - eapply hoare_bind; [apply loseSand_cells |]. intros ?.
    apply hoare_ret. intros s. apply Cells_ext.
    intros x y Hv. rewrite occurrences_app. simpl.
    case_decide as Heq; [| lia]. injection Heq as -> ->. congruence.
Qed.

Lemma toppleDeterministic_cells (n : Z) (f : Z -> Z -> Z) (x y : Z) (new : list (Z * Z)) :
  MathUtils.isValidGridPosition x y n = true -> 0 <= f x y ->
  hoare (Cells n f) (toppleDeterministic x y new)
        (fun _ => Cells n (fun x' y' =>
           if decide ((x', y') = (x, y)) then f x y mod 4
           else f x' y' + f x y / 4 * occurrences (x', y') (MathUtils.getNeighbors x y))).
Proof.
  intros Hv Hh. unfold toppleDeterministic.
  eapply hoare_bind; [apply (getCell_cells n f x y Hv) |]. intros h.
  apply hoare_pure. intros ->.
  eapply hoare_bind; [apply (putCell_cells n f x y _ Hv) |]. intros ?.
  eapply hoare_bind; [apply distributeToNeighbors_cells |]. intros new1.
  eapply hoare_bind; [apply (getCell_cells n _ x y Hv) |]. intros h'.
  eapply hoare_bind; [apply hoare_gets |]. intros cm.
  apply hoare_ret. intros s [_ [_ Hs]]. revert Hs. apply Cells_ext.
  intros x' y' _. case_decide as Heq; [| reflexivity].
  injection Heq as -> ->.
  rewrite (proj1 (occurrences_neighbors x y (x, y))), Z.mul_0_r, Z.add_0_r.
  apply Z.rem_mod_nonneg; lia.
Qed.

(** C5. On a fresh 8x8 pile with critical mass 4 at randomness 0,
    [addSand(4, 4, 4)] and one [processAvalanches()] return true and leave
    0 at (4,4) and 1 at each of (3,4), (5,4), (4,3), (4,5).  In general a
    topple at randomness 0 of an in-range cell of height h >= 0 returns,
    leaves h mod 4 in the cell, adds floor(h/4) to each orthogonal
    neighbour that is in range, and leaves the other cells as they were. *)
Theorem topple_step (env : Env) :
  (exists s0 s,
     session env 8 4 [AddSand 4 4 4] = Some s0 /\
     SandPile.processAvalanches env s0 = Some (true, s) /\
     SandPile.getSand 4 4 s = Some (0, s) /\
     SandPile.getSand 3 4 s = Some (1, s) /\
     SandPile.getSand 5 4 s = Some (1, s) /\
     SandPile.getSand 4 3 s = Some (1, s) /\
     SandPile.getSand 4 5 s = Some (1, s)) /\
  (forall s x y new h,
     wfGrid (SandPile.size (this s)) (SandPile.grid (this s)) ->
     MathUtils.isValidGridPosition x y (SandPile.size (this s)) = true ->
     (SandPile.randomnessFactor (this s) <= 0)%Q ->
     SandPile.readCell (SandPile.grid (this s)) x y = Some h -> 0 <= h ->
     exists new' s',
       SandPile.topple env x y new s = Some (new', s') /\
       SandPile.readCell (SandPile.grid (this s')) x y = Some (h mod 4) /\
       (forall x' y' v, (x', y') ∈ MathUtils.getNeighbors x y ->
          SandPile.readCell (SandPile.grid (this s)) x' y' = Some v ->
          SandPile.readCell (SandPile.grid (this s')) x' y' = Some (v + h / 4)) /\
       (forall x' y' v, (x', y') ∉ MathUtils.getNeighbors x y -> (x', y') <> (x, y) ->
          SandPile.readCell (SandPile.grid (this s)) x' y' = Some v ->
          SandPile.readCell (SandPile.grid (this s')) x' y' = Some v)).
Proof.
  split.
  - eexists _, _. split; [vm_compute; reflexivity |].
    split; [vm_compute; reflexivity |]. repeat split; vm_compute; reflexivity.
  - intros s x y new h Hwf Hv Hr Hh Hh0.
    set (n := SandPile.size (this s)) in *.
    set (f := fun x y => default 0 (SandPile.readCell (SandPile.grid (this s)) x y)).
    assert (Hf : forall x' y' v,
              SandPile.readCell (SandPile.grid (this s)) x' y' = Some v -> f x' y' = v).
    { intros x' y' v E. unfold f. rewrite E. reflexivity. }
    assert (Hs : Cells n f s).
    { split; [reflexivity | split; [exact Hwf |]]. intros x' y' Hv'.
      destruct (readCell_total _ _ _ _ Hwf Hv') as [v E].
      rewrite E, (Hf _ _ _ E). reflexivity. }
    destruct (topple_at_zero (randomCalls (rt s)) env x y new s) as [E _];
      [split; [exact Hr | reflexivity] |].
    rewrite E. rewrite <- (Hf _ _ _ Hh) in Hh0.
    destruct (toppleDeterministic_cells n f x y new Hv Hh0 s Hs)
      as (new' & s' & E' & _ & _ & Hc).
    exists new', s'. split; [exact E' |].
    pose proof (Hf _ _ _ Hh) as Hfh.
    split; [| split].
    + rewrite (Hc x y Hv). rewrite decide_True by reflexivity. rewrite Hfh.
      reflexivity.
    + intros x' y' v Hin Ev.
      rewrite (Hc x' y' (readCell_valid _ _ _ _ _ Hwf Ev)).
      destruct (occurrences_neighbors x y (x', y')) as (H0 & H1 & _).
      rewrite decide_False.
      * rewrite (H1 Hin), (Hf _ _ _ Ev), Hfh. f_equal. lia.
      * intros Heq. rewrite Heq in H1. rewrite Heq in Hin.
        specialize (H1 Hin). lia.
    + intros x' y' v Hnin Hne Ev.
      rewrite (Hc x' y' (readCell_valid _ _ _ _ _ Hwf Ev)).
      destruct (occurrences_neighbors x y (x', y')) as (_ & _ & H2).
      rewrite decide_False by exact Hne.
      rewrite (H2 Hnin), (Hf _ _ _ Ev). f_equal. lia.
Qed.

(** ** Stabilising twice (SandPile.stabilize) *)

Lemma stabilizeLoop_stable (env : Env) (fuel : nat) (iterations : Z) (s : St SandPile.t) :
  SandPile.unstableCells (this s) = [] ->
  SandPile.stabilizeLoop env fuel iterations s = Some (iterations, s).
Proof.
  intros Hu. destruct fuel as [| fuel]; simpl; [reflexivity |].
  unfold bind, gets. rewrite Hu. reflexivity.
Qed.

Lemma stabilizeLoop_early (env : Env) (fuel : nat) :
  forall iterations s k s',
    SandPile.stabilizeLoop env fuel iterations s = Some (k, s') ->
    k < iterations + Z.of_nat fuel -> SandPile.unstableCells (this s') = [].
Proof.
  induction fuel as [| fuel IH]; intros iterations s k s' E Hk; simpl in E.
  - injection E as <- <-. lia.
  - unfold bind at 1, gets in E.
    destruct (Z.ltb_spec 0 (Z.of_nat (length (SandPile.unstableCells (this s)))))
      as [Hlen | Hlen].
    + unfold bind in E.
      destruct (SandPile.processAvalanches env s) as [[b s1] |]; [| discriminate].
      apply (IH _ _ _ _ E). lia.
    + injection E as <- <-.
      destruct (SandPile.unstableCells (this s)); [reflexivity | simpl in Hlen; lia].
Qed.


(** ** The signal buffer at the spec's scenario (SeismographData) *)

Section Buffer.
Variable f32 : Type.
Variable fround : Q -> f32.
Variable nan : f32.

Lemma mod_apart (b i j : Z) : 0 < b -> 0 < j - i < b -> i mod b <> j mod b.
Proof.
  intros Hb Hd E.
  assert (H : (j - i) mod b = 0) by (rewrite Zminus_mod, E, Z.sub_diag; apply Z.mod_0_l; lia).
  rewrite Z.mod_small in H by lia. lia.
Qed.

Lemma create_Holds (b : Z) :
  0 < b -> exists d, SeismographData.create f32 fround b = Some d /\ Holds fround b [] d.
Proof.
  intros Hb. unfold SeismographData.create.
  replace (b <? 0) with false by (symmetry; apply Z.ltb_ge; lia).
  eexists. split; [reflexivity |].
  split; [reflexivity |]. split; [apply length_replicate |].
  split; [symmetry; apply Z.mod_0_l; lia |].
  split; [symmetry; apply Z.leb_gt; simpl; lia |].
  intros j x E. discriminate.
Qed.

Lemma addSample_Holds (b : Z) (l : list Q) (x : Q) (d : SeismographData.t f32) :
  0 < b -> Holds fround b l d ->
  exists d', SeismographData.addSample f32 fround x d = Some d' /\ Holds fround b (l ++ [x]) d'.
Proof.
  intros Hb (Hsize & Hlen & Hidx & Hfull & Hdata).
  unfold SeismographData.addSample. rewrite Hsize.
  replace (b =? 0) with false by (symmetry; apply Z.eqb_neq; lia).
  eexists. split; [reflexivity |].
  pose proof (Z.mod_pos_bound (Z.of_nat (length l)) b Hb) as Hm.
  assert (Hnext : Z.rem (SeismographData.bufferIndex f32 d + 1) b =
                  Z.of_nat (length (l ++ [x])) mod b).
  { rewrite Hidx, Z.rem_mod_nonneg by lia. rewrite length_app. simpl.
    rewrite Nat2Z.inj_add. simpl. rewrite Z.add_mod_idemp_l by lia. reflexivity. }
  unfold Holds. simpl. rewrite Hnext.
  assert (Hstore : SeismographData.storeAt f32 (SeismographData.signalBuffer f32 d)
                     (SeismographData.bufferIndex f32 d) (fround x) =
                   <[Z.to_nat (Z.of_nat (length l) mod b) := fround x]>
                     (SeismographData.signalBuffer f32 d)).
  { unfold SeismographData.storeAt. rewrite Hidx.
    replace (Z.of_nat (length l) mod b <? 0) with false
      by (symmetry; apply Z.ltb_ge; lia). reflexivity. }
  rewrite Hstore. rewrite length_insert.
  assert (Hlen' : Z.of_nat (length (l ++ [x])) = Z.of_nat (length l) + 1).
  { rewrite length_app. simpl. lia. }
  split; [reflexivity |]. split; [exact Hlen |]. split; [reflexivity |]. split.
  - rewrite Hfull, Hlen'.
    pose proof (Z.mod_pos_bound (Z.of_nat (length l) + 1) b Hb) as Hm'.
    destruct (Z.eqb_spec ((Z.of_nat (length l) + 1) mod b) 0) as [E0 | E0].
    + symmetry. apply Z.leb_le.
      destruct (Z.lt_ge_cases (Z.of_nat (length l) + 1) b) as [Hlt | Hge]; [| lia].
      rewrite Z.mod_small in E0 by lia. lia.
    + destruct (Z.leb_spec b (Z.of_nat (length l)));
        destruct (Z.leb_spec b (Z.of_nat (length l) + 1)); try reflexivity; try lia.
      exfalso. apply E0. replace (Z.of_nat (length l) + 1) with b by lia.
      apply Z.mod_same. lia.
  - intros j y E Hj. rewrite Hlen' in Hj.
    apply lookup_snoc_Some in E as [[Hlt E] | [-> ->]].
    + rewrite list_lookup_insert_ne.
      * apply (Hdata j y E). lia.
      * intros Heq. apply Z2Nat.inj in Heq;
          [| apply Z.mod_pos_bound; lia | apply Z.mod_pos_bound; lia].
        symmetry in Heq. revert Heq. apply mod_apart; lia.
    + apply list_lookup_insert_eq. lia.
Qed.

Lemma addSamples_Holds (b : Z) (xs : list Q) :
  0 < b -> forall l d, Holds fround b l d ->
  exists d', SeismographData.addSamples f32 fround xs d = Some d' /\ Holds fround b (l ++ xs) d'.
Proof.
  intros Hb. induction xs as [| x xs IH]; intros l d Hd; simpl.
  - exists d. rewrite app_nil_r. auto.
  - destruct (addSample_Holds b l x d Hb Hd) as (d1 & E1 & H1). rewrite E1.
    destruct (IH _ _ H1) as (d' & E' & H'). exists d'. split; [exact E' |].
    rewrite <- app_assoc in H'. exact H'.
Qed.

Lemma fill_spec (g : Z -> f32) (z : f32) (len k : nat) :
  (k <= len)%nat ->
  fold_left (fun result i => SeismographData.storeAt f32 result i (g i))
            (seqZ 0 (Z.of_nat k)) (replicate len z) =
  (g <$> seqZ 0 (Z.of_nat k)) ++ replicate (len - k) z.
Proof.
  induction k as [| k IH]; intros Hk.
  - simpl. rewrite Nat.sub_0_r. reflexivity.
  - rewrite seqZ_S, fold_left_app, IH by lia. simpl.
    unfold SeismographData.storeAt.
    replace (0 + Z.of_nat k <? 0) with false by (symmetry; apply Z.ltb_ge; lia).
    rewrite fmap_app, <- app_assoc. simpl.
    replace (Z.to_nat (0 + Z.of_nat k)) with (length (g <$> seqZ 0 (Z.of_nat k)) + 0)%nat
      by (rewrite length_fmap, length_seqZ; lia).
    rewrite insert_app_r. f_equal.
    replace (len - k)%nat with (S (len - S k)) by lia. reflexivity.
Qed.

Lemma position_mod (b n len i : Z) :
  0 < b -> 0 <= n -> 0 <= i -> len <= b ->
  Z.rem (n mod b - len + i + b) b = (n - len + i) mod b.
Proof.
  intros Hb Hn Hi Hlen. pose proof (Z.mod_pos_bound n b Hb).
  rewrite Z.rem_mod_nonneg by lia.
  replace (n mod b - len + i + b) with (n - len + i + (1 - n / b) * b)
    by (rewrite (Z.mod_eq n b) by lia; lia).
  apply Z.mod_add. lia.
Qed.

(** What [getSignalData(length)] returns when at least [length] samples
    are available: the last [length] samples, oldest first. *)
Lemma getSignalData_recent_Holds (b : Z) (l : list Q) (len : Z)
    (d : SeismographData.t f32) :
  0 < b -> 1 <= len -> len <= Z.of_nat (length l) -> len <= b ->
  Holds fround b l d ->
  SeismographData.getSignalData f32 fround nan (Some len) d =
    Some (fround <$> drop (length l - Z.to_nat len) l).
Proof.
  intros Hb Hlen Hn Hlb Hd.
  destruct Hd as (Hsize & Hblen & Hidx & Hfull & Hdata).
  unfold SeismographData.getSignalData.
  replace (len =? 0) with false by (symmetry; apply Z.eqb_neq; lia).
  replace (len <? 0) with false by (symmetry; apply Z.ltb_ge; lia).
  rewrite Hsize, Hfull, Hidx.
  replace (b =? 0) with false by (symmetry; apply Z.eqb_neq; lia).
  assert (Hbranch : negb (b <=? Z.of_nat (length l)) &&
                    (Z.of_nat (length l) mod b <? len) = false).
  { destruct (Z.leb_spec b (Z.of_nat (length l))) as [Hle | Hlt]; [reflexivity |].
    rewrite Z.mod_small by lia. simpl. apply Z.ltb_ge. lia. }
  rewrite Hbranch. f_equal.
  remember (Z.to_nat len) as k eqn:Ek.
  assert (Hk : len = Z.of_nat k) by lia. rewrite Hk in *. clear Hk Ek len.
  rewrite (fill_spec (fun i => default nan
             (Some (Z.rem (Z.of_nat (length l) mod b - Z.of_nat k + i + b) b)
                ≫= SeismographData.readAt f32 (SeismographData.signalBuffer f32 d)))
             (fround 0%Q) k k) by lia.
  rewrite Nat.sub_diag. simpl. rewrite app_nil_r.
  apply list_eq. intros i. rewrite !list_lookup_fmap, lookup_drop.
  destruct (decide (i < k)%nat) as [Hi | Hi].
  - rewrite lookup_seqZ_lt by lia. simpl.
    destruct (lookup_lt_is_Some_2 l (length l - k + i)) as [x Ex]; [lia |].
    rewrite Ex. simpl. f_equal. rewrite Z.add_0_l.
    rewrite position_mod by lia.
    unfold SeismographData.readAt.
    pose proof (Z.mod_pos_bound (Z.of_nat (length l) - Z.of_nat k + Z.of_nat i) b Hb)
      as Hm.
    replace (_ <? 0) with false by (symmetry; apply Z.ltb_ge; lia).
    replace (Z.of_nat (length l) - Z.of_nat k + Z.of_nat i)
      with (Z.of_nat (length l - k + i)) by lia.
    rewrite (Hdata _ x Ex) by lia. reflexivity.
  - rewrite lookup_seqZ_ge by lia. simpl.
    rewrite lookup_ge_None_2 by lia. reflexivity.
Qed.

(** What [getSignalData(length)] returns before the buffer has wrapped when
    fewer than [length] samples are available: the samples, oldest first,
    followed by zeros up to [length] entries. *)
Lemma getSignalData_padded_Holds (b : Z) (l : list Q) (len : Z)
    (d : SeismographData.t f32) :
  Z.of_nat (length l) < b -> Z.of_nat (length l) < len ->
  Holds fround b l d ->
  SeismographData.getSignalData f32 fround nan (Some len) d =
    Some ((fround <$> l) ++ replicate (Z.to_nat len - length l) (fround 0%Q)).
Proof.
  intros Hlb Hlen Hd. assert (Hb : 0 < b) by lia.
  destruct Hd as (Hsize & Hblen & Hidx & Hfull & Hdata).
  unfold SeismographData.getSignalData.
  replace (len =? 0) with false by (symmetry; apply Z.eqb_neq; lia).
  replace (len <? 0) with false by (symmetry; apply Z.ltb_ge; lia).
  rewrite Hfull, Hidx. rewrite Z.mod_small by lia.
  replace (b <=? Z.of_nat (length l)) with false by (symmetry; apply Z.leb_gt; lia).
  replace (Z.of_nat (length l) <? len) with true by (symmetry; apply Z.ltb_lt; lia).
  simpl. f_equal.
  rewrite (fill_spec (fun i => default nan
             (SeismographData.readAt f32 (SeismographData.signalBuffer f32 d) i))
             (fround 0%Q) (Z.to_nat len) (length l)) by lia.
  f_equal. apply list_eq. intros i. rewrite !list_lookup_fmap.
  destruct (decide (i < length l)%nat) as [Hi | Hi].
  - rewrite lookup_seqZ_lt by lia. simpl.
    destruct (lookup_lt_is_Some_2 l i Hi) as [x Ex]. rewrite Ex. simpl. f_equal.
    rewrite Z.add_0_l. unfold SeismographData.readAt.
    replace (Z.of_nat i <? 0) with false by (symmetry; apply Z.ltb_ge; lia).
    pose proof (Hdata i x Ex ltac:(lia)) as Hx.
    rewrite Z.mod_small in Hx by lia. rewrite Hx. reflexivity.
  - rewrite lookup_seqZ_ge by lia. simpl.
    rewrite lookup_ge_None_2 by lia. reflexivity.
Qed.

End Buffer.

(** C1.  What [getSignalData] returns for a buffer of size 4 that holds
    [fround] of each sample, for any samples [s1 ... s6] and any
    [Float32Array] semantics: after six samples a request for 4 gives the
    last four in order, but a request for 10 gives ten entries, read at
    positions -0, -3, -2, -1, 0, 1, ... of the buffer; and after two samples
    a request for 3 gives the two samples followed by a 0. *)
Theorem getSignalData_scenario (f32 : Type) (fround : Q -> f32) (nan : f32)
    (s1 s2 s3 s4 s5 s6 : Q) :
  signalAfter fround nan 4 [s1; s2; s3; s4; s5; s6] (Some 4)
    = Some [fround s3; fround s4; fround s5; fround s6] /\
  signalAfter fround nan 4 [s1; s2; s3; s4; s5; s6] (Some 10)
    = Some [fround s5; nan; nan; nan; fround s5; fround s6;
            fround s3; fround s4; fround s5; fround s6] /\
  signalAfter fround nan 4 [s1; s2] (Some 3)
    = Some [fround s1; fround s2; fround 0%Q].
Proof. repeat split. Qed.

(** ** Concrete runs *)

Lemma sampleEnv_in_range : randomInRange sampleEnv.
Proof.
  intros i. pose proof (Nat.mod_upper_bound i 7 ltac:(lia)).
  unfold Qle, Qlt. simpl. lia.
Qed.

Lemma wfGrid_8 (g : list (list Z)) :
  length g = 8%nat -> forallb (fun row => Nat.eqb (length row) 8) g = true ->
  wfGrid 8 g.
Proof.
  intros Hlen Hrows. split; [exact Hlen |]. intros i row E.
  rewrite forallb_forall in Hrows.
  apply Nat.eqb_eq, Hrows, list_elem_of_In. eapply list_elem_of_lookup_2. exact E.
Qed.

Lemma out_of_range_is_ignored_witness :
  SandPile.addSand (-1) (-1) 5 (stateOf (session stillEnv 8 4 [AddSand 4 4 5])) =
    Some (tt, stateOf (session stillEnv 8 4 [AddSand 4 4 5])) /\
  SandPile.getSand (-1) (-1) (stateOf (session stillEnv 8 4 [AddSand 4 4 5])) =
    Some (0, stateOf (session stillEnv 8 4 [AddSand 4 4 5])).
Proof.
  apply (out_of_range_is_ignored
           (stateOf (session stillEnv 8 4 [AddSand 4 4 5])) (-1) (-1) 5).
  reflexivity.
Defined.

Lemma paused_update_changes_nothing_witness :
  Simulation.update sampleEnv 2500 pausedSimulation = Some (tt, pausedSimulation).
Proof.
  apply (paused_update_changes_nothing sampleEnv 2500 pausedSimulation).
  reflexivity.
Defined.


Lemma removeSource_cases_witness :
  Simulation.removeSource None pausedSimulation =
    Some (Some (SandSource.mk 4 4 (3 # 2) 8 (3 # 4) 0 0 5 (1 # 3) true),
          mkSt (Simulation.setSources [] (this pausedSimulation)) (rt pausedSimulation)) /\
  Simulation.removeSource (Some 1) pausedSimulation = Some (None, pausedSimulation).
Proof.
  destruct (removeSource_cases sampleEnv pausedSimulation) as (_ & Hout & Hlast & _).
  split.
  - apply (Hlast None [] _ (or_introl eq_refl) eq_refl).
  - apply (Hout 1); simpl; lia.
Defined.


Lemma determinism_at_zero_witness :
  session sampleEnv 8 4 [AddSand 4 4 16; Stabilize 1000] =
  session stillEnv 8 4 [AddSand 4 4 16; Stabilize 1000].
Proof.
  apply (determinism_at_zero sampleEnv stillEnv 8 4 [AddSand 4 4 16; Stabilize 1000]).
  repeat (constructor; try exact I).
Defined.

Lemma unstable_set_covers_witness :
  exists s,
    session sampleEnv 8 4 [AddSand 1 1 4; AddSand 1 2 4; ProcessAvalanches] = Some s /\
    forall x y v, SandPile.readCell (SandPile.grid (this s)) x y = Some v ->
      4 <= v -> (x, y) ∈ SandPile.unstableCells (this s).
Proof.
  destruct (unstable_set_covers sampleEnv 8 4
              [AddSand 1 1 4; AddSand 1 2 4; ProcessAvalanches])
    as (s & E & _ & Hcov & _).
  - exact sampleEnv_in_range.
  - lia.
  - lia.
  - repeat (constructor; try (simpl; lia)).
  - exists s. split; [exact E | exact Hcov].
Defined.

(** After [addSand(1,1,4)], [addSand(1,2,4)] and one pass on a fresh 8x8
    pile, (1,2) is in the unstable set with height 1, every height is below
    4, and [isStable()] is false. *)
Lemma stale_unstable_cell :
  exists s,
    session stillEnv 8 4 [AddSand 1 1 4; AddSand 1 2 4; ProcessAvalanches] = Some s /\
    SandPile.unstableCells (this s) = [(1, 2)] /\
    SandPile.readCell (SandPile.grid (this s)) 1 2 = Some 1 /\
    forallb (forallb (fun v => v <? 4)) (SandPile.grid (this s)) = true /\
    SandPile.isStable s = Some (false, s).
Proof.
  eexists. split; [vm_compute; reflexivity |].
  repeat split; vm_compute; reflexivity.
Qed.

Lemma topple_step_witness :
  exists new' s',
    SandPile.topple sampleEnv 4 4 [] (stateOf (session stillEnv 8 4 [AddSand 4 4 9])) =
      Some (new', s') /\
    SandPile.readCell (SandPile.grid (this s')) 4 4 = Some 1 /\
    SandPile.readCell (SandPile.grid (this s')) 3 4 = Some 2.
Proof.
  destruct (topple_step sampleEnv) as [_ H].
  destruct (H (stateOf (session stillEnv 8 4 [AddSand 4 4 9])) 4 4 [] 9)
    as (new' & s' & E & Hcell & Hnb & _).
  - apply wfGrid_8; reflexivity.
  - reflexivity.
  - vm_compute. discriminate.
  - reflexivity.
  - lia.
  - exists new', s'. split; [exact E |]. split; [exact Hcell |].
    apply (Hnb 3 4 0).
    + unfold MathUtils.getNeighbors. simpl. apply list_elem_of_here.
    + reflexivity.
Defined.



(** * Further properties *)

(** * Further properties *)

(** ** MathUtils *)

(** X1.  [randomInt(min, max)] with integers [min <= max] returns an
    integer of [min .. max], both ends included, and calls
    [Math.random()] once. *)
Theorem randomInt_in_range (env : Env) {T} (s : St T) (min max : Z) :
  randomInRange env -> min <= max ->
  exists v, MathUtils.randomInt env min max s = Some (v, drawn s) /\ min <= v <= max.
Proof.
  intros Henv Hle. unfold MathUtils.randomInt, bind, mathRandom, ret.
  eexists. split; [reflexivity |].
  destruct (Henv (randomCalls (rt s))) as [H0 H1].
  pose proof (random_index _ (max - min + 1) H0 H1 ltac:(lia)). lia.
Qed.

Lemma randomInt_in_range_witness :
  exists v, MathUtils.randomInt sampleEnv 3 8 (mkSt tt (mkRt 5 0)) =
              Some (v, drawn (mkSt tt (mkRt 5 0))) /\ 3 <= v <= 8.
Proof.
  apply (randomInt_in_range sampleEnv (mkSt tt (mkRt 5 0)) 3 8);
    [apply sampleEnv_in_range | lia].
Defined.

(** X2.  [clamp(value, min, max)] with [min <= max] lies in
    [min .. max], is [value] itself when [value] is in that range, and
    clamping twice is clamping once; whatever the bounds, the result is
    at most [max]. *)
Theorem clamp_spec (value min max : Q) :
  (MathUtils.clamp value min max <= max)%Q /\
  ((min <= max)%Q ->
   (min <= MathUtils.clamp value min max)%Q /\
   ((min <= value)%Q -> (value <= max)%Q ->
    (MathUtils.clamp value min max == value)%Q) /\
   (MathUtils.clamp (MathUtils.clamp value min max) min max ==
      MathUtils.clamp value min max)%Q).
Proof.
  unfold MathUtils.clamp.
  split; [apply Q.le_min_r |]. intros Hmm.
  split; [| split].
  - apply Q.min_glb; [apply Q.le_max_r | exact Hmm].
  - intros H1 H2. rewrite (Q.max_l value min H1). apply Q.min_l. exact H2.
  - assert (Hlo : (min <= Qmin (Qmax value min) max)%Q)
      by (apply Q.min_glb; [apply Q.le_max_r | exact Hmm]).
    rewrite (Q.max_l _ min Hlo). apply Q.min_l. apply Q.le_min_r.
Qed.

Lemma clamp_spec_witness :
  (MathUtils.clamp 7 0 5 <= 5)%Q /\
  (0 <= MathUtils.clamp 7 0 5)%Q /\
  (MathUtils.clamp (MathUtils.clamp 7 0 5) 0 5 == MathUtils.clamp 7 0 5)%Q.
Proof.
  destruct (clamp_spec 7 0 5) as [H1 H2].
  destruct (H2 ltac:(discriminate)) as (H3 & _ & H4).
  exact (conj H1 (conj H3 H4)).
Defined.

(** X3.  On a grid of size [n], the four cells of [getNeighbors(x, y)]
    are all on the grid exactly when (x, y) is an inner cell; the cell
    itself is never one of them, and they are four different cells. *)
Theorem getNeighbors_on_grid (n x y : Z) :
  (Forall (valid n) (MathUtils.getNeighbors x y) <-> 0 < x < n - 1 /\ 0 < y < n - 1) /\
  ((x, y) ∉ MathUtils.getNeighbors x y) /\
  NoDup (MathUtils.getNeighbors x y).
Proof.
  unfold MathUtils.getNeighbors. split; [| split].
  - rewrite !Forall_cons. unfold valid. cbn [fst snd]. rewrite !isValid_spec.
    split; [intros (? & ? & ? & ? & _); lia | intros ?].
    repeat split; try lia; constructor.
  - rewrite !elem_of_cons. intros [H | [H | [H | [H | H]]]];
      inversion H; lia.
  - repeat constructor; rewrite ?elem_of_cons; try intros ?;
      repeat match goal with
             | H : _ \/ _ |- _ => destruct H
             | H : (_, _) = (_, _) |- _ => inversion H; lia
             | H : _ ∈ [] |- _ => inversion H
             end.
Qed.

(** ** SandSource *)

Lemma Qfloor_tenth (n : Z) : Qfloor (inject_Z n * (1 # 10)) = n / 10.
Proof. unfold Qfloor, Qmult, inject_Z. cbn [Qnum Qden]. rewrite Z.mul_1_r. reflexivity. Qed.

Lemma createRandom_placed (env : Env) {T} (s : St T) (n : Z) :
  randomInRange env -> 0 < n ->
  exists src,
    SandSource.createRandom env n s = Some (src, drawn (drawn (drawn (drawn s)))) /\
    placed n src.
Proof.
  intros Henv Hn.
  unfold SandSource.createRandom, SandSource.create, MathUtils.randomFloat,
    bind, mathRandom, ret. cbn [this rt randomCalls exited].
  eexists. split; [reflexivity |]. unfold placed.
  cbn [SandSource.gridX SandSource.gridY
    SandSource.sandRate SandSource.active SandSource.accumulator SandSource.gridSize].
  rewrite Qfloor_tenth.
  assert (Hm : 0 <= n / 10) by (apply Z.div_pos; lia).
  assert (Hm' : 10 * (n / 10) <= n) by (apply Z.mul_div_le; lia).
  pose proof (Henv (randomCalls (rt s))) as [Ha0 Ha1].
  pose proof (Henv (S (randomCalls (rt s)))) as [Hb0 Hb1].
  pose proof (Henv (S (S (randomCalls (rt s))))) as [Hc0 Hc1].
  pose proof (random_index _ (n - 2 * (n / 10)) Ha0 Ha1 ltac:(lia)) as Hx.
  pose proof (random_index _ (n - 2 * (n / 10)) Hb0 Hb1 ltac:(lia)) as Hy.
  split; [lia |]. split; [lia |].
  split; [split; nra |]. auto.
Qed.

(** X4.  [SandSource.createRandom(gridSize)] on a grid of positive size
    calls [Math.random()] four times and returns an active source with
    an empty accumulator, placed on the grid at least
    [floor(gridSize / 10)] cells away from every edge, with a rate in
    [0.5, 2). *)
Theorem createRandom_in_range (env : Env) {T} (s : St T) (n : Z) :
  randomInRange env -> 0 < n ->
  exists src,
    SandSource.createRandom env n s = Some (src, drawn (drawn (drawn (drawn s)))) /\
    placed n src /\
    MathUtils.isValidGridPosition (SandSource.gridX src) (SandSource.gridY src) n = true.
Proof.
  intros Henv Hn.
  destruct (createRandom_placed env s n Henv Hn) as (src & E & Hp).
  exists src. split; [exact E |]. split; [exact Hp |].
  destruct Hp as (Hx & Hy & _).
  assert (0 <= n / 10) by (apply Z.div_pos; lia).
  apply isValid_spec. lia.
Qed.

Lemma createRandom_in_range_witness :
  exists src,
    SandSource.createRandom sampleEnv 64 (mkSt tt (mkRt 2 0)) =
      Some (src, mkSt tt (mkRt 6 0)) /\
    placed 64 src.
Proof.
  destruct (createRandom_in_range sampleEnv (mkSt tt (mkRt 2 0)) 64
              sampleEnv_in_range ltac:(lia))
    as (src & E & Hp & _).
  exists src. split; [exact E | exact Hp].
Defined.

(** X5.  A source written with [toJSON()] and read back with
    [SandSource.fromJSON] keeps its cell, its rate and whether it is
    active, and so prints the same JSON again; what is not kept is the
    accumulator, which starts at 0 again, and the id, which is drawn
    anew.  The world position is that of the cell on the grid size given
    to [fromJSON]. *)
Theorem json_round_trip (env : Env) {T} (s : St T) (src : SandSource.t) (n : Z) :
  exists src',
    SandSource.fromJSON env (SandSource.toJSON src) n s = Some (src', drawn s) /\
    SandSource.toJSON src' = SandSource.toJSON src /\
    SandSource.accumulator src' = 0%Q /\
    SandSource.id src' = random env (randomCalls (rt s)) /\
    SandSource.gridSize src' = n /\
    (SandSource.worldX src', SandSource.worldY src') =
      SandSource.gridToWorld (SandSource.gridX src) (SandSource.gridY src) n.
Proof.
  eexists. split; [reflexivity |]. cbn. auto.
Qed.





(** ** SandPile *)

Lemma elem_of_range (lo hi x : Z) : x ∈ SandPile.range lo hi <-> lo <= x <= hi.
Proof. unfold SandPile.range. rewrite elem_of_seqZ. lia. Qed.

Lemma wfGrid_replicate (n v : Z) :
  wfGrid n (replicate (Z.to_nat n) (replicate (Z.to_nat n) v)).
Proof.
  split; [apply length_replicate |].
  intros i row E. apply lookup_replicate in E as [-> _]. apply length_replicate.
Qed.

(** Two grids of size [n] with the same heights are the same grid. *)
Lemma grid_ext (n : Z) (g g' : list (list Z)) :
  wfGrid n g -> wfGrid n g' ->
  (forall x y, MathUtils.isValidGridPosition x y n = true ->
     SandPile.readCell g x y = SandPile.readCell g' x y) ->
  g = g'.
Proof.
  intros [Hl Hr] [Hl' Hr'] H. apply list_eq. intros i.
  destruct (g !! i) as [row |] eqn:E.
  - assert (Hi : (i < Z.to_nat n)%nat) by (rewrite <- Hl; eapply lookup_lt_Some; exact E).
    destruct (lookup_lt_is_Some_2 g' i ltac:(lia)) as [row' E'].
    rewrite E'. f_equal. apply list_eq. intros j.
    destruct (decide (j < Z.to_nat n)%nat) as [Hj | Hj].
    + assert (Hv : MathUtils.isValidGridPosition (Z.of_nat i) (Z.of_nat j) n = true)
        by (apply isValid_spec; lia).
      specialize (H _ _ Hv). unfold SandPile.readCell in H.
      replace (Z.of_nat i <? 0) with false in H by (symmetry; apply Z.ltb_ge; lia).
      replace (Z.of_nat j <? 0) with false in H by (symmetry; apply Z.ltb_ge; lia).
      cbn [orb] in H. rewrite !Nat2Z.id, E, E' in H. exact H.
    + rewrite !lookup_ge_None_2; [reflexivity | |].
      * rewrite (Hr' _ _ E'). lia.
      * rewrite (Hr _ _ E). lia.
  - symmetry. apply lookup_ge_None. rewrite Hl', <- Hl. apply lookup_ge_None. exact E.
Qed.

Lemma readCell_replicate (n v x y : Z) :
  MathUtils.isValidGridPosition x y n = true ->
  SandPile.readCell (replicate (Z.to_nat n) (replicate (Z.to_nat n) v)) x y = Some v.
Proof.
  intros Hv. apply isValid_spec in Hv. apply readCell_Some.
  split; [lia |]. split; [lia |].
  exists (replicate (Z.to_nat n) v).
  split; apply lookup_replicate; split; try reflexivity; lia.
Qed.

Lemma putCell_zeroed (n : Z) (s0 : St SandPile.t) (P : Z -> Z -> Prop) (x y : Z) :
  MathUtils.isValidGridPosition x y n = true ->
  hoare (zeroed n s0 P) (SandPile.putCell x y 0)
        (fun _ => zeroed n s0 (fun x' y' => P x' y' \/ (x', y') = (x, y))).
Proof.
  intros Hv s (Hwf & Hz & Hframe & Hrt).
  destruct (writeCell_total _ _ _ _ 0 Hwf Hv) as [g' Hg'].
  unfold SandPile.putCell, bind, gets, liftOpt, modify. rewrite Hg'.
  eexists _, _. split; [reflexivity |].
  split; [exact (writeCell_wf _ _ _ _ _ _ Hwf Hg') |].
  split; [| split; [exact Hframe | exact Hrt]].
  pile_fields. intros x' y' HP Hv'.
  destruct (pair_eq_dec_Z x y x' y') as [Heq | Hne].
  - injection Heq as -> ->. apply (readCell_writeCell_eq _ _ _ _ _ Hg').
  - rewrite (readCell_writeCell_ne _ _ _ _ _ _ _ Hg' Hne).
    destruct HP as [HP | HP]; [auto | contradiction].
Qed.

Lemma reset_empties (s : St SandPile.t) :
  wfGrid (SandPile.size (this s)) (SandPile.grid (this s)) ->
  let n := SandPile.size (this s) in
  SandPile.reset s =
    Some (tt, mkSt (SandPile.mk n (SandPile.criticalMass (this s))
                      (replicate (Z.to_nat n) (replicate (Z.to_nat n) 0))
                      [] (SandPile.randomnessFactor (this s)) 0 0 0) (rt s)).
Proof.
  intros Hwf n.
  set (empty := SandPile.mk n (SandPile.criticalMass (this s))
                  (replicate (Z.to_nat n) (replicate (Z.to_nat n) 0))
                  [] (SandPile.randomnessFactor (this s)) 0 0 0).
  assert (H : hoare (zeroed n s (fun _ _ => False)) SandPile.reset
                (fun _ s' => s' = mkSt empty (rt s))).
  { unfold SandPile.reset.
    apply (hoare_bind_gets _ _ n).
    { intros s1 (_ & _ & Hf & _).
      change (SandPile.size (SandPile.setGrid [] (this s1)) = n).
      rewrite Hf. reflexivity. }
    eapply hoare_bind.
    - eapply hoare_conseq;
        [ apply (hoare_forEach
            (fun done (_ : unit) => zeroed n s (fun x _ => x ∈ done)))
        | intros s1 (H1 & H2 & H3); split; [exact H1 | split; [| exact H3]];
          intros x y Hx; apply elem_of_nil in Hx; destruct Hx
        | intros a s1 Hs1; exact Hs1 ].
      intros doneX x [] [restX HX].
      assert (Hx : 0 <= x <= n - 1).
      { apply elem_of_range. rewrite HX. apply elem_of_app. right. left. }
      eapply hoare_conseq;
        [ apply (hoare_forEach
            (fun done (_ : unit) =>
               zeroed n s (fun x' y' => x' ∈ doneX \/ (x' = x /\ y' ∈ done))))
        | |].
      + intros doneY y [] [restY HY].
        assert (Hy : 0 <= y <= n - 1).
        { apply elem_of_range. rewrite HY. apply elem_of_app. right. left. }
        eapply hoare_conseq;
          [ apply (putCell_zeroed n s
                     (fun x' y' => x' ∈ doneX \/ (x' = x /\ y' ∈ doneY)) x y);
            apply isValid_spec; lia
          | intros s1 Hs1; exact Hs1 |].
        intros _ s1 (H1 & H2 & H3). split; [exact H1 | split; [| exact H3]].
        intros x' y' HP Hv. apply H2; [| exact Hv].
        destruct HP as [HP | [-> HP]]; [left; left; exact HP |].
        apply elem_of_app in HP as [HP | HP].
        * left. right. auto.
        * apply list_elem_of_singleton in HP as ->. right. reflexivity.
      + intros s1 (H1 & H2 & H3). split; [exact H1 | split; [| exact H3]].
        intros x' y' [HP | [_ HP]]; [auto | apply elem_of_nil in HP; destruct HP].
      + intros _ s1 (H1 & H2 & H3). split; [exact H1 | split; [| exact H3]].
        intros x' y' HP Hv. apply H2; [| exact Hv].
        apply isValid_spec in Hv.
        apply elem_of_app in HP as [HP | HP]; [left; exact HP |].
        apply list_elem_of_singleton in HP as ->. right.
        split; [reflexivity | apply elem_of_range; lia].
    - intros []. unfold bind, modify, ret. intros s1 (H1 & H2 & H3 & H4).
      eexists _, _. split; [reflexivity |]. pile_fields.
      assert (Hg : SandPile.grid (this s1) =
                   replicate (Z.to_nat n) (replicate (Z.to_nat n) 0)).
      { apply (grid_ext n); [exact H1 | apply wfGrid_replicate |].
        intros x y Hv. rewrite readCell_replicate by exact Hv.
        apply H2; [| exact Hv]. apply isValid_spec in Hv. apply elem_of_range. lia. }
      rewrite H4. f_equal. unfold empty.
      destruct s1 as [p1 rt1]. destruct p1. cbn in *.
      injection H3 as -> -> _ ->. subst n. rewrite Hg. reflexivity. }
  destruct (H s) as ([] & s' & E & ->); [| exact E].
  split; [exact Hwf |]. split; [intros ? ? [] |]. split; reflexivity.
Qed.

(** X7.  [reset()] on a pile whose grid has its [size] rows and columns
    empties every cell and the unstable set and zeroes the three
    counters; size, critical mass and - unlike the constructor - the
    randomness factor stay as they are.  For a size that is not negative
    the pile is the one [new SandPile(size, criticalMass)] builds, but for
    the randomness factor. *)
Theorem reset_restores (s : St SandPile.t) :
  wfGrid (SandPile.size (this s)) (SandPile.grid (this s)) ->
  let n := SandPile.size (this s) in
  let cm := SandPile.criticalMass (this s) in
  let empty := SandPile.mk n cm (replicate (Z.to_nat n) (replicate (Z.to_nat n) 0))
                 [] (SandPile.randomnessFactor (this s)) 0 0 0 in
  SandPile.reset s = Some (tt, mkSt empty (rt s)) /\
  (0 <= n ->
   option_map (SandPile.setRandomness (SandPile.randomnessFactor (this s)))
     (SandPile.create n cm) = Some empty).
Proof.
  intros Hwf n cm empty. split.
  - apply reset_empties. exact Hwf.
  - intros Hn. unfold SandPile.create.
    replace (n <? 0) with false by (symmetry; apply Z.ltb_ge; exact Hn).
    reflexivity.
Qed.

Lemma reset_restores_witness :
  SandPile.reset (stateOf (session sampleEnv 8 4 [SetRandomnessFactor (1 # 2); AddSand 4 4 9])) =
    Some (tt, mkSt (SandPile.mk 8 4 (replicate 8 (replicate 8 0)) [] (1 # 2) 0 0 0)
                   (mkRt 0 0)).
Proof.
  refine (proj1 (reset_restores
    (stateOf (session sampleEnv 8 4 [SetRandomnessFactor (1 # 2); AddSand 4 4 9])) _)).
  apply wfGrid_8; reflexivity.
Defined.

(** X8.  [getMaxHeight()] on a pile whose grid has its [size] rows and
    columns changes nothing and returns the largest of 0 and the heights:
    no cell is higher than the result, and the result is 0 or the height
    of some cell. *)
Theorem getMaxHeight_is_max (s : St SandPile.t) :
  wfGrid (SandPile.size (this s)) (SandPile.grid (this s)) ->
  exists m,
    SandPile.getMaxHeight s = Some (m, s) /\
    0 <= m /\
    (forall x y v, SandPile.readCell (SandPile.grid (this s)) x y = Some v -> v <= m) /\
    (m = 0 \/ exists x y, SandPile.readCell (SandPile.grid (this s)) x y = Some m).
Proof.
  intros Hwf. set (n := SandPile.size (this s)) in *.
  set (g := SandPile.grid (this s)) in *.
  assert (H : hoare (fun s' => s' = s) SandPile.getMaxHeight
                (fun m s' => s' = s /\ maxOf g (fun x _ => 0 <= x <= n - 1) m)).
  { unfold SandPile.getMaxHeight.
    apply (hoare_bind_gets _ _ n); [intros ? ->; reflexivity |].
    eapply hoare_conseq;
      [ apply (hoare_forEach
          (fun done m s' => s' = s /\ maxOf g (fun x _ => x ∈ done) m))
      | intros ? ->; split; [reflexivity |]; split; [lia |]; split; [| left; reflexivity];
        intros x y v Hx; apply elem_of_nil in Hx; destruct Hx
      | ].
    - intros doneX x m0 [restX HX].
      assert (Hx : 0 <= x <= n - 1).
      { apply elem_of_range. rewrite HX. apply elem_of_app. right. left. }
      eapply hoare_conseq;
        [ apply (hoare_forEach
            (fun done m s' => s' = s /\
               maxOf g (fun x' y' => x' ∈ doneX \/ (x' = x /\ y' ∈ done)) m))
        | |].
      + intros doneY y m [restY HY].
        assert (Hy : 0 <= y <= n - 1).
        { apply elem_of_range. rewrite HY. apply elem_of_app. right. left. }
        intros s' [-> (Hm0 & Hub & Hex)].
        destruct (readCell_total n g x y Hwf ltac:(apply isValid_spec; lia)) as [h Hh].
        unfold SandPile.getCell, bind, gets, liftOpt, ret. fold g. rewrite Hh.
        eexists _, _. split; [reflexivity |]. split; [reflexivity |].
        split; [lia |]. split.
        * intros x' y' v [HP | [-> HP]] E.
          -- specialize (Hub x' y' v (or_introl HP) E). lia.
          -- apply elem_of_app in HP as [HP | HP].
             ++ specialize (Hub x y' v (or_intror (conj eq_refl HP)) E). lia.
             ++ apply list_elem_of_singleton in HP as ->.
                rewrite Hh in E. injection E as ->. lia.
        * destruct (Z.max_spec m h) as [[Hlt ->] | [Hge ->]].
          -- right. exists x, y. split; [| exact Hh].
             right. split; [reflexivity |]. apply elem_of_app. right. left.
          -- destruct Hex as [-> | (x' & y' & HP & E)]; [left; reflexivity |].
             right. exists x', y'. split; [| exact E].
             destruct HP as [HP | [-> HP]]; [left; exact HP |].
             right. split; [reflexivity |]. apply elem_of_app. left. exact HP.
      + intros s' [-> (Hm0 & Hub & Hex)]. split; [reflexivity |].
        split; [exact Hm0 |]. split.
        * intros x' y' v [HP | [_ HP]] E; [eauto |].
          apply elem_of_nil in HP. destruct HP.
        * destruct Hex as [-> | (x' & y' & HP & E)]; [left; reflexivity |].
          right. exists x', y'. split; [left; exact HP | exact E].
      + intros m s' [-> (Hm0 & Hub & Hex)]. split; [reflexivity |].
        split; [exact Hm0 |]. split.
        * intros x' y' v HP E. apply (Hub x' y' v); [| exact E].
          apply elem_of_app in HP as [HP | HP]; [left; exact HP |].
          apply list_elem_of_singleton in HP as ->. right.
          split; [reflexivity |].
          pose proof (readCell_valid _ _ _ _ _ Hwf E) as Hv.
          apply isValid_spec in Hv. cbn [fst snd] in Hv. apply elem_of_range. lia.
        * destruct Hex as [-> | (x' & y' & HP & E)]; [left; reflexivity |].
          right. exists x', y'. split; [| exact E].
          destruct HP as [HP | [-> _]]; apply elem_of_app; [left; exact HP |].
          right. left.
    - intros m s' [-> (Hm0 & Hub & Hex)]. split; [reflexivity |].
      split; [exact Hm0 |]. split.
      + intros x y v Hx E. apply (Hub x y v); [| exact E]. apply elem_of_range. exact Hx.
      + destruct Hex as [-> | (x' & y' & HP & E)]; [left; reflexivity |].
        right. exists x', y'. split; [apply elem_of_range in HP; exact HP | exact E]. }
  destruct (H s eq_refl) as (m & s' & E & -> & Hm0 & Hub & Hex).
  exists m. split; [exact E |]. split; [exact Hm0 |]. split.
  - intros x y v Ev. apply (Hub x y v); [| exact Ev].
    pose proof (readCell_valid _ _ _ _ _ Hwf Ev) as Hv.
    apply isValid_spec in Hv. cbn [fst snd] in Hv. lia.
  - destruct Hex as [-> | (x & y & _ & Ev)]; [left; reflexivity | right; eauto].
Qed.

Lemma getMaxHeight_is_max_witness :
  exists m,
    SandPile.getMaxHeight (stateOf (session stillEnv 8 4 [AddSand 4 4 5; AddSand 2 3 7])) =
      Some (m, stateOf (session stillEnv 8 4 [AddSand 4 4 5; AddSand 2 3 7])) /\
    (forall x y v,
       SandPile.readCell
         (SandPile.grid (this (stateOf (session stillEnv 8 4 [AddSand 4 4 5; AddSand 2 3 7]))))
         x y = Some v -> v <= m).
Proof.
  destruct (getMaxHeight_is_max
              (stateOf (session stillEnv 8 4 [AddSand 4 4 5; AddSand 2 3 7])))
    as (m & E & _ & Hub & _).
  - apply wfGrid_8; reflexivity.
  - exists m. split; [exact E | exact Hub].
Defined.

Lemma sumZ_nonneg (l : list Z) :
  (forall i v, l !! i = Some v -> 0 <= v) ->
  0 <= sumZ l /\ forall i v, l !! i = Some v -> v <= sumZ l.
Proof.
  induction l as [| a l IH]; intros H.
  - split; [reflexivity |]. intros i v E. rewrite lookup_nil in E. discriminate.
  - assert (Ha : 0 <= a) by (apply (H 0%nat); reflexivity).
    destruct IH as [IH0 IH1]; [intros i v E; apply (H (S i)); exact E |].
    unfold sumZ in *. cbn [foldr]. split; [lia |].
    intros [| i] v E.
    + injection E as ->. lia.
    + specialize (IH1 i v E). lia.
Qed.

Lemma height_le_sum (g : list (list Z)) (x y v : Z) :
  nonneg g -> SandPile.readCell g x y = Some v -> 0 <= v <= sumGrid g.
Proof.
  intros Hnn E. split; [exact (Hnn _ _ _ E) |].
  pose proof E as E'. apply readCell_Some in E' as (Hx & Hy & row & Er & Ev).
  assert (Hrow : forall i w, row !! i = Some w -> 0 <= w).
  { intros i w Ew. apply (Hnn x (Z.of_nat i) w). apply readCell_Some.
    split; [lia |]. split; [lia |]. exists row. rewrite Nat2Z.id. auto. }
  destruct (sumZ_nonneg row Hrow) as [_ Hle].
  assert (Hrows : forall i w, (sumZ <$> g) !! i = Some w -> 0 <= w).
  { intros i w Ew. rewrite list_lookup_fmap in Ew.
    destruct (g !! i) as [r |] eqn:Eg; [| discriminate]. injection Ew as <-.
    apply sumZ_nonneg. intros j u Eu. apply (Hnn (Z.of_nat i) (Z.of_nat j) u).
    apply readCell_Some. split; [lia |]. split; [lia |].
    exists r. rewrite !Nat2Z.id. auto. }
  destruct (sumZ_nonneg (sumZ <$> g) Hrows) as [_ Hle'].
  specialize (Hle _ _ Ev).
  specialize (Hle' (Z.to_nat x) (sumZ row)).
  rewrite list_lookup_fmap, Er in Hle'. specialize (Hle' eq_refl).
  unfold sumGrid. change (map sumZ g) with (sumZ <$> g). lia.
Qed.

(** X9.  Whatever a client does with [addSand] (amounts not negative),
    [processAvalanches], [stabilize] and [setRandomnessFactor], at any
    randomness: the size and the critical mass stay those of the
    constructor, the grid keeps its [n] rows and columns, the randomness
    factor stays within [0, 1], and every height stays between 0 and
    [totalSand]. *)
Theorem heights_stay_in_range (env : Env) (n cm : Z) (ops : list op) :
  randomInRange env -> 0 <= n -> nonnegAmounts ops ->
  exists s, session env n cm ops = Some s /\
    SandPile.size (this s) = n /\
    SandPile.criticalMass (this s) = cm /\
    wfGrid n (SandPile.grid (this s)) /\
    ((0 <= SandPile.randomnessFactor (this s))%Q /\
     (SandPile.randomnessFactor (this s) <= 1)%Q) /\
    0 <= SandPile.totalSand (this s) /\
    forall x y v, SandPile.readCell (SandPile.grid (this s)) x y = Some v ->
      0 <= v <= SandPile.totalSand (this s).
Proof.
  intros Henv Hn Hops.
  destruct (session_Inv env n cm ops Henv Hn Hops) as (s & r & E & Hr & [HP _]).
  destruct HP as [Hsz Hcm Hrr Hwf Hnn Hsum Htot Hex _ _].
  exists s. split; [exact E |].
  split; [exact Hsz |]. split; [exact Hcm |]. split; [exact Hwf |].
  split; [rewrite Hrr; exact Hr |].
  assert (Hs : sumGrid (SandPile.grid (this s)) = SandPile.totalSand (this s)) by lia.
  split.
  - rewrite <- Hs. unfold sumGrid. change (map sumZ (SandPile.grid (this s)))
      with (sumZ <$> SandPile.grid (this s)).
    apply sumZ_nonneg. intros i w Ew. rewrite list_lookup_fmap in Ew.
    destruct (SandPile.grid (this s) !! i) as [row |] eqn:Eg; [| discriminate].
    injection Ew as <-. apply sumZ_nonneg. intros j u Eu.
    apply (Hnn (Z.of_nat i) (Z.of_nat j) u).
    apply readCell_Some. split; [lia |]. split; [lia |].
    exists row. rewrite !Nat2Z.id. auto.
  - intros x y v Ev. rewrite <- Hs. exact (height_le_sum _ x y v Hnn Ev).
Qed.

Lemma heights_stay_in_range_witness :
  exists s,
    session sampleEnv 8 4
      [SetRandomnessFactor 1; AddSand 4 4 40; AddSand 0 0 9; Stabilize 1000] = Some s /\
    forall x y v, SandPile.readCell (SandPile.grid (this s)) x y = Some v ->
      0 <= v <= SandPile.totalSand (this s).
Proof.
  destruct (heights_stay_in_range sampleEnv 8 4
              [SetRandomnessFactor 1; AddSand 4 4 40; AddSand 0 0 9; Stabilize 1000])
    as (s & E & _ & _ & _ & _ & _ & H).
  - apply sampleEnv_in_range.
  - lia.
  - repeat constructor; lia.
  - exists s. split; [exact E | exact H].
Defined.




Lemma partial_forEach {T A B} (I : list A -> B -> St T -> Prop)
    (body : A -> B -> M T B) (l : list A) :
  (forall done a acc, (exists rest, l = done ++ a :: rest) ->
     partial (I done acc) (body a acc) (fun acc' => I (done ++ [a]) acc')) ->
  forall acc, partial (I [] acc) (forEach l body acc) (fun acc' => I l acc').
Proof.
  intros Hbody.
  assert (H : forall rest done acc, l = done ++ rest ->
            partial (I done acc) (forEach rest body acc) (fun acc' => I l acc')).
  { induction rest as [| a rest IH]; intros done acc El s acc' s' Hs E.
    - injection E as <- <-. rewrite app_nil_r in El. subst done. exact Hs.
    - cbn [forEach] in E. unfold bind in E.
      destruct (body a acc s) as [[acc1 s1] |] eqn:E1; [| discriminate].
      assert (El' : l = (done ++ [a]) ++ rest) by (rewrite <- app_assoc; exact El).
      apply (IH (done ++ [a]) acc1 El' s1 acc' s'); [| exact E].
      apply (Hbody done a acc (ex_intro _ rest El) s acc1 s1 Hs E1). }
  intros acc. apply (H l [] acc). reflexivity.
Qed.

Lemma partial_conseq {T A} (P P' : St T -> Prop) (Q Q' : A -> St T -> Prop) (m : M T A) :
  partial P' m Q' -> (forall s, P s -> P' s) -> (forall a s, Q' a s -> Q a s) ->
  partial P m Q.
Proof. intros H HP HQ s a s' Hs E. apply HQ. apply (H s a s' (HP s Hs) E). Qed.

Lemma hoare_partial {T A} (P P' : St T -> Prop) (m : M T A) (Q Q' : A -> St T -> Prop) :
  hoare P m Q -> partial P' m Q' ->
  hoare (fun s => P s /\ P' s) m (fun a s => Q a s /\ Q' a s).
Proof.
  intros H H' s [Hs Hs']. destruct (H s Hs) as (a & s' & E & HQ).
  exists a, s'. split; [exact E |]. split; [exact HQ |]. exact (H' s a s' Hs' E).
Qed.

Lemma preserves_random {T} (env : Env) (P : St T -> Prop) :
  (forall s, P s -> P (drawn s)) -> preserves P (mathRandom env).
Proof. intros H s a s' Hs E. injection E as <- <-. apply H. exact Hs. Qed.

Ltac frames :=
  repeat first
    [ apply preserves_ret
    | apply preserves_gets
    | apply preserves_liftOpt
    | apply preserves_modify; intros ? ?; assumption
    | apply preserves_noteExit; intros ? ?; assumption
    | apply preserves_random; intros ? ?; assumption
    | apply preserves_forEach; intros ? ?
    | match goal with
      | |- preserves _ (if ?b then _ else _) => destruct b
      | |- preserves _ (let '(_, _) := ?p in _) => destruct p
      | |- preserves _ (match ?p with (_, _) => _ end) => destruct p
      end
    | apply preserves_bind; [| intros ?] ].

Lemma addSandToCell_frame (q : SandPile.t) (x y a : Z) (new : list (Z * Z)) :
  preserves (Frame q) (SandPile.addSandToCell x y a new).
Proof. unfold SandPile.addSandToCell, SandPile.getCell, SandPile.putCell. frames. Qed.

Lemma loseSand_frame (q : SandPile.t) (a : Z) : preserves (Frame q) (SandPile.loseSand a).
Proof. unfold SandPile.loseSand. frames. Qed.

Lemma distributeToNeighbors_frame (q : SandPile.t) (a : Z) (neighbors new : list (Z * Z)) :
  preserves (Frame q) (SandPile.distributeToNeighbors a neighbors new).
Proof.
  unfold SandPile.distributeToNeighbors.
  apply preserves_forEach. intros c acc.
  apply preserves_bind; [apply preserves_gets | intros m].
  destruct (MathUtils.isValidGridPosition _ _ _).
  - apply addSandToCell_frame.
  - apply preserves_bind; [apply loseSand_frame | intros ?]. apply preserves_ret.
Qed.

Lemma distributeJitteredSand_frame (env : Env) (q : SandPile.t) (x y total radius : Z)
    (new : list (Z * Z)) :
  preserves (Frame q) (SandPile.distributeJitteredSand env x y total radius new).
Proof.
  unfold SandPile.distributeJitteredSand.
  apply preserves_bind; [apply preserves_gets | intros m]. cbv zeta.
  destruct (Z.of_nat (length _) =? 0).
  - apply preserves_bind; [apply loseSand_frame | intros ?]. apply preserves_ret.
  - apply preserves_bind.
    + apply preserves_forEach. intros c [remaining acc].
      destruct (0 <? remaining); [| apply preserves_ret].
      destruct (0 <? _); [| apply preserves_ret].
      apply preserves_bind; [apply addSandToCell_frame | intros ?]. apply preserves_ret.
    + intros [remaining acc].
      destruct ((0 <? remaining) && _); [| apply preserves_ret].
      apply preserves_bind; [apply preserves_random; intros ? ?; assumption | intros u].
      apply preserves_bind; [apply preserves_liftOpt | intros c].
      apply addSandToCell_frame.
Qed.

Lemma distributeWithRandomness_frame (env : Env) (q : SandPile.t) (x y a : Z)
    (neighbors new : list (Z * Z)) :
  preserves (Frame q) (SandPile.distributeWithRandomness env x y a neighbors new).
Proof.
  unfold SandPile.distributeWithRandomness.
  apply preserves_bind; [apply preserves_gets | intros r]. cbv zeta.
  apply preserves_forEach. intros c acc.
  apply preserves_bind; [apply preserves_gets | intros m].
  destruct (negb _).
  - apply preserves_bind; [apply loseSand_frame | intros ?]. apply preserves_ret.
  - apply preserves_bind; [apply preserves_random; intros ? ?; assumption | intros u].
    apply preserves_bind; [apply addSandToCell_frame | intros new1].
    destruct (0 <? _); [apply distributeJitteredSand_frame | apply preserves_ret].
Qed.

(** [topple] changes the grid, [totalSand] and nothing else of the pile. *)
Lemma topple_frame (env : Env) (q : SandPile.t) (x y : Z) (new : list (Z * Z)) :
  preserves (Frame q) (SandPile.topple env x y new).
Proof.
  unfold SandPile.topple.
  apply preserves_bind; [unfold SandPile.getCell; frames | intros h]. cbv zeta.
  apply preserves_bind; [unfold SandPile.putCell; frames | intros ?].
  apply preserves_bind; [apply preserves_gets | intros r].
  apply preserves_bind.
  - destruct (Qlt_le_dec 0 r);
      [apply distributeWithRandomness_frame | apply distributeToNeighbors_frame].
  - intros new'. apply preserves_bind; [unfold SandPile.getCell; frames | intros h'].
    apply preserves_bind; [apply preserves_gets | intros c]. apply preserves_ret.
Qed.

Lemma getCell_inv (x y h : Z) (s s' : St SandPile.t) :
  SandPile.getCell x y s = Some (h, s') ->
  s' = s /\ SandPile.readCell (SandPile.grid (this s)) x y = Some h.
Proof.
  unfold SandPile.getCell, bind, gets, liftOpt. intros E.
  destruct (SandPile.readCell (SandPile.grid (this s)) x y); [| discriminate].
  injection E as <- <-. auto.
Qed.

(** The pass of [processAvalanches]: what is known of the result beyond
    the invariant. *)
Lemma processAvalanches_partial (env : Env) (s : St SandPile.t) :
  partial (fun s1 => s1 = s) (SandPile.processAvalanches env)
          (fun b s' => passOutcome s b s').
Proof.
  intros s1 b s' -> E. unfold SandPile.processAvalanches in E.
  unfold bind at 1, gets at 1 in E.
  set (u := SandPile.unstableCells (this s)) in *.
  set (cm := SandPile.criticalMass (this s)).
  set (g := SandPile.grid (this s)).
  destruct (Z.eqb_spec (Z.of_nat (length u)) 0) as [Hlen | Hlen].
  { injection E as <- <-.
    assert (Hu : u = []) by (destruct u; [reflexivity | simpl in Hlen; lia]).
    unfold passOutcome. fold u. rewrite Hu.
    split; [| split; [lia | split; [discriminate | auto]]].
    split; [discriminate |]. intros (x & y & v & Hin & _).
    apply elem_of_nil in Hin. destruct Hin. }
  unfold bind at 1, modify at 1 in E.
  set (s0 := mkSt (SandPile.setAvalancheSize 0 (this s)) (rt s)) in *.
  unfold bind at 1 in E.
  match type of E with
  | match forEach u ?body ?start s0 with _ => _ end = _ =>
      set (loop := forEach u body start) in *;
      assert (HL : partial
        (fun s1 => s1 = s0) loop
        (fun acc s1 =>
           SandPile.totalAvalanches (this s1) = SandPile.totalAvalanches (this s) /\
           0 <= SandPile.avalancheSize (this s1) <= Z.of_nat (length u) /\
           (fst acc = false ->
            s1 = s0 /\ snd acc = [] /\
            forall x y v, (x, y) ∈ u -> SandPile.readCell g x y = Some v -> v < cm) /\
           (fst acc = true ->
            1 <= SandPile.avalancheSize (this s1) /\
            exists x y v, (x, y) ∈ u /\ SandPile.readCell g x y = Some v /\ cm <= v)))
  end.
  { subst loop.
    eapply partial_conseq;
      [ apply (partial_forEach
          (fun done (acc : bool * list (Z * Z)) s1 =>
             SandPile.totalAvalanches (this s1) = SandPile.totalAvalanches (this s) /\
             SandPile.criticalMass (this s1) = cm /\
             0 <= SandPile.avalancheSize (this s1) <= Z.of_nat (length done) /\
             (fst acc = false ->
              s1 = s0 /\ snd acc = [] /\
              forall x y v, (x, y) ∈ done -> SandPile.readCell g x y = Some v -> v < cm) /\
             (fst acc = true ->
              1 <= SandPile.avalancheSize (this s1) /\
              exists x y v, (x, y) ∈ u /\ SandPile.readCell g x y = Some v /\ cm <= v)))
      | intros s1 ->; cbn [fst snd length]; subst s0; pile_fields;
        split; [reflexivity |]; split; [reflexivity |]; split; [lia |];
        split; [| discriminate]; intros _; split; [reflexivity |];
        split; [reflexivity |]; intros x y v Hin; apply elem_of_nil in Hin; destruct Hin
      | intros acc s1 (Hta & _ & Hav & Hf & Ht); auto ].
    - intros done [x y] [occ new] [rest El] s1 acc' s2 (Hta & Hcm & Hav & Hf & Ht) Eb.
      cbn [fst snd] in *.
      unfold bind at 1 in Eb.
      destruct (SandPile.getCell x y s1) as [[h s1'] |] eqn:Eh; [| discriminate].
      apply getCell_inv in Eh as [-> Eh].
      unfold bind at 1, gets at 1 in Eb. rewrite Hcm in Eb.
      rewrite length_app. cbn [length].
      destruct (Z.leb_spec cm h) as [Hh | Hh].
      + unfold bind at 1 in Eb.
        destruct (SandPile.topple env x y new s1) as [[new' s1'] |] eqn:Et;
          [| discriminate].
        pose proof (topple_frame env (others (this s1)) x y new s1 new' s1'
                      eq_refl Et) as Hfr.
        unfold Frame in Hfr.
        assert (Hta' : SandPile.totalAvalanches (this s1') =
                       SandPile.totalAvalanches (this s1))
          by (change (SandPile.totalAvalanches (others (this s1')) =
                      SandPile.totalAvalanches (others (this s1))); rewrite Hfr; reflexivity).
        assert (Hcm' : SandPile.criticalMass (this s1') = SandPile.criticalMass (this s1))
          by (change (SandPile.criticalMass (others (this s1')) =
                      SandPile.criticalMass (others (this s1))); rewrite Hfr; reflexivity).
        assert (Hav' : SandPile.avalancheSize (this s1') = SandPile.avalancheSize (this s1))
          by (change (SandPile.avalancheSize (others (this s1')) =
                      SandPile.avalancheSize (others (this s1))); rewrite Hfr; reflexivity).
        unfold bind, gets, modify, ret in Eb. injection Eb as <- <-.
        cbn [fst snd]. pile_fields.
        split; [lia |]. split; [lia |]. split; [lia |].
        split; [discriminate |]. intros _. split; [lia |].
        destruct occ.
        * apply Ht. reflexivity.
        * destruct (Hf eq_refl) as (-> & _ & _).
          exists x, y, h. split; [rewrite El; apply elem_of_app; right; left |].
          split; [exact Eh | exact Hh].
      + injection Eb as <- <-. cbn [fst snd].
        split; [exact Hta |]. split; [exact Hcm |]. split; [lia |].
        split; [| exact Ht].
        intros Hocc. destruct (Hf Hocc) as (-> & -> & Hlow).
        split; [reflexivity |]. split; [reflexivity |].
        intros x' y' v Hin Ev. apply elem_of_app in Hin as [Hin | Hin]; [eauto |].
        apply list_elem_of_singleton in Hin. injection Hin as -> ->.
        change (SandPile.readCell g x y = Some h) in Eh. rewrite Eh in Ev.
        injection Ev as <-. exact Hh. }
  clearbody loop.
  destruct (loop s0) as [[[occ new] s1] |] eqn:El; [| discriminate].
  destruct (HL s0 (occ, new) s1 eq_refl El) as (Hta & Hav & Hf & Ht).
  cbn [fst snd] in *.
  unfold bind at 1, modify at 1 in E.
  unfold passOutcome. fold u cm g.
  destruct occ.
  - unfold bind, gets, modify, ret in E. injection E as <- <-. pile_fields.
    destruct (Ht eq_refl) as (Hav1 & Hex).
    split; [split; auto |]. split; [lia |]. split; [intros _; lia | discriminate].
  - unfold bind, ret in E. injection E as <- <-. pile_fields.
    destruct (Hf eq_refl) as (-> & -> & Hlow).
    split; [| split; [subst s0; pile_fields; lia | split; [discriminate | intros _]]].
    + split; [discriminate |]. intros (x & y & v & Hin & Ev & Hv).
      specialize (Hlow x y v Hin Ev). lia.
    + subst s0. pile_fields. auto.
Qed.

Section Outcomes.
Variable env : Env.
Hypothesis random_range : randomInRange env.
Variables (n cm : Z) (r : Q).
Hypothesis r_range : (0 <= r)%Q /\ (r <= 1)%Q.

Lemma processAvalanches_outcome_inv (k : Z) (s : St SandPile.t) :
  Inv n cm r k s ->
  exists b s', SandPile.processAvalanches env s = Some (b, s') /\
               Inv n cm r k s' /\ passOutcome s b s'.
Proof using random_range r_range.
  intros Hs.
  destruct (hoare_partial _ _ _ _ _
              (processAvalanches_spec env random_range n cm r r_range k)
              (processAvalanches_partial env s) s (conj Hs eq_refl))
    as (b & s' & E & HI & HO).
  exists b, s'. auto.
Qed.

Lemma stabilizeLoop_outcome (k : Z) (fuel : nat) :
  forall iterations s, Inv n cm r k s ->
  exists j s', SandPile.stabilizeLoop env fuel iterations s = Some (j, s') /\
    Inv n cm r k s' /\
    iterations <= j <= iterations + Z.of_nat fuel /\
    (fuel <> 0%nat -> SandPile.unstableCells (this s) <> [] -> iterations < j) /\
    SandPile.totalAvalanches (this s) <= SandPile.totalAvalanches (this s') <=
      SandPile.totalAvalanches (this s) + (j - iterations).
Proof using random_range r_range.
  induction fuel as [| fuel IH]; intros iterations s Hs.
  - exists iterations, s. split; [reflexivity |]. split; [exact Hs |].
    split; [lia |]. split; [intros H; contradiction | lia].
  - cbn [SandPile.stabilizeLoop]. unfold bind at 1, gets at 1.
    destruct (Z.ltb_spec 0 (Z.of_nat (length (SandPile.unstableCells (this s)))))
      as [Hlen | Hlen].
    + destruct (processAvalanches_outcome_inv k s Hs) as (b & s1 & E1 & Hs1 & _ & Hta & _).
      unfold bind. rewrite E1.
      destruct (IH (iterations + 1) s1 Hs1) as (j & s' & E & Hs' & Hj & _ & Hta').
      exists j, s'. split; [exact E |]. split; [exact Hs' |].
      split; [lia |]. split; [intros _ _; lia |].
      destruct b; lia.
    + exists iterations, s. split; [reflexivity |]. split; [exact Hs |].
      split; [lia |]. split; [| lia].
      intros _ Hne. destruct (SandPile.unstableCells (this s));
        [contradiction | simpl in Hlen; lia].
Qed.

End Outcomes.

(** X11.  One pass of [processAvalanches] on a pile that a client has
    built returns.  It returns [true] exactly when some cell of the
    unstable set is at or above the critical mass as the pass starts;
    [totalAvalanches] then grows by one and [avalancheSize] counts
    between one topple and one per listed cell.  When it returns [false]
    the listed cells were all stale: the grid, [totalSand] and the
    discarded grains are unchanged and the unstable set is left empty. *)
Theorem processAvalanches_outcome (env : Env) (n cm : Z) (ops : list op) :
  randomInRange env -> 0 <= n -> nonnegAmounts ops ->
  exists s b s',
    session env n cm ops = Some s /\
    SandPile.processAvalanches env s = Some (b, s') /\
    passOutcome s b s'.
Proof.
  intros Henv Hn Hops.
  destruct (session_Inv env n cm ops Henv Hn Hops) as (s & r & E & Hr & Hs).
  destruct (processAvalanches_outcome_inv env Henv n cm r Hr _ s Hs)
    as (b & s' & E' & _ & HO).
  exists s, b, s'. auto.
Qed.

Lemma processAvalanches_outcome_witness :
  exists s b s',
    session sampleEnv 8 4 [SetRandomnessFactor (1 # 2); AddSand 4 4 9; AddSand 2 2 1] =
      Some s /\
    SandPile.processAvalanches sampleEnv s = Some (b, s') /\
    passOutcome s b s'.
Proof.
  apply (processAvalanches_outcome sampleEnv 8 4
           [SetRandomnessFactor (1 # 2); AddSand 4 4 9; AddSand 2 2 1]).
  - apply sampleEnv_in_range.
  - lia.
  - repeat constructor; lia.
Defined.

(** X12.  [stabilize(cap)] on a pile that a client has built returns
    the number of passes it made, which is between 0 and [cap]; below
    [cap] the unstable set is left empty; it is 0 exactly when [cap] is
    not positive or the unstable set was empty at the start; and
    [totalAvalanches] grows by at most one per pass. *)
Theorem stabilize_outcome (env : Env) (n cm : Z) (ops : list op) (cap : Z) :
  randomInRange env -> 0 <= n -> nonnegAmounts ops ->
  exists s k s',
    session env n cm ops = Some s /\
    SandPile.stabilize env cap s = Some (k, s') /\
    stabilizeOutcome cap s k s'.
Proof.
  intros Henv Hn Hops.
  destruct (session_Inv env n cm ops Henv Hn Hops) as (s & r & E & Hr & Hs).
  destruct (stabilizeLoop_outcome env Henv n cm r Hr _ (Z.to_nat cap) 0 s Hs)
    as (k & s' & E' & _ & Hk & Hpos & Hta).
  exists s, k, s'. split; [exact E |]. split; [exact E' |].
  unfold stabilizeOutcome.
  split; [lia |]. split; [| split; [| lia]].
  - intros Hlt. unfold SandPile.stabilize in E'.
    apply (stabilizeLoop_early env (Z.to_nat cap) 0 s k s' E'). lia.
  - split.
    + intros ->. destruct (Z.le_gt_cases cap 0) as [Hc | Hc]; [left; exact Hc | right].
      destruct (SandPile.unstableCells (this s)) eqn:Eu; [reflexivity |].
      exfalso. enough (0 < 0) by lia. apply Hpos; [lia | try rewrite Eu; discriminate].
    + intros [Hc | Hu].
      * lia.
      * unfold SandPile.stabilize in E'.
        rewrite (stabilizeLoop_stable env _ 0 s Hu) in E'. injection E' as <- _.
        reflexivity.
Qed.

Lemma stabilize_outcome_witness :
  exists s k s',
    session sampleEnv 8 4 [SetRandomnessFactor 1; AddSand 4 4 40] = Some s /\
    SandPile.stabilize sampleEnv 3 s = Some (k, s') /\
    stabilizeOutcome 3 s k s'.
Proof.
  apply (stabilize_outcome sampleEnv 8 4 [SetRandomnessFactor 1; AddSand 4 4 40] 3).
  - apply sampleEnv_in_range.
  - lia.
  - repeat constructor; lia.
Defined.

(** ** Simulation *)

Lemma onPile_eq {A} (m : M SandPile.t A) (s : St Simulation.t) :
  Simulation.onPile m s =
    match m (pileOf s) with
    | Some (a, p) => Some (a, mkSt (Simulation.setSandPile (this p) (this s)) (rt p))
    | None => None
    end.
Proof.
  unfold Simulation.onPile, bind, gets, runOn, modify, ret, pileOf.
  destruct (m _) as [[a p] |]; reflexivity.
Qed.

Lemma onPile_hoare {A} (c : Simulation.t) (P : St SandPile.t -> Prop)
    (m : M SandPile.t A) (Q : A -> St SandPile.t -> Prop) :
  hoare P m Q ->
  hoare (onController c P) (Simulation.onPile m) (fun a => onController c (Q a)).
Proof.
  intros H [cs rts] (p & Hs & HP). cbn [this rt] in *. subst cs.
  rewrite onPile_eq. unfold pileOf. cbn [this rt Simulation.sandPile Simulation.setSandPile].
  destruct (H _ HP) as (a & [p' rt'] & E & HQ). rewrite E.
  eexists _, _. split; [reflexivity |]. exists p'. split; [reflexivity | exact HQ].
Qed.



Section Tick.
Variable env : Env.
Hypothesis random_range : randomInRange env.
Variables (n cm : Z) (r : Q).
Hypothesis r_range : (0 <= r)%Q /\ (r <= 1)%Q.





End Tick.




Lemma createRandom_returns (env : Env) {T} (s : St T) (n : Z) :
  exists src,
    SandSource.createRandom env n s = Some (src, drawn (drawn (drawn (drawn s)))).
Proof.
  unfold SandSource.createRandom, SandSource.create, MathUtils.randomFloat,
    bind, mathRandom, ret. cbn [this rt randomCalls exited].
  eexists. reflexivity.
Qed.

Lemma addRandomSource_eq (env : Env) (s : St Simulation.t) :
  exists src,
    SandSource.createRandom env (Simulation.gridSize (this s)) s =
      Some (src, drawn (drawn (drawn (drawn s)))) /\
    Simulation.addRandomSource env s =
      Some (src, mkSt (Simulation.setSources (Simulation.sources (this s) ++ [src]) (this s))
                      (rt (drawn (drawn (drawn (drawn s)))))).
Proof.
  destruct (createRandom_returns env s (Simulation.gridSize (this s))) as (src & E).
  exists src. split; [exact E |].
  unfold Simulation.addRandomSource, bind at 1, gets at 1.
  unfold bind at 1. rewrite E. reflexivity.
Qed.

(** X14.  [addRandomSource()] appends the source it returns, and
    [removeSource()] without an index right after it returns that same
    source and leaves the controller as it was, but for the four values
    drawn from [Math.random()]. *)
Theorem addRandomSource_then_removeSource (env : Env) (s : St Simulation.t) :
  exists src s1,
    Simulation.addRandomSource env s = Some (src, s1) /\
    Simulation.sources (this s1) = Simulation.sources (this s) ++ [src] /\
    Simulation.getSourceCount s1 =
      Some (Z.of_nat (length (Simulation.sources (this s))) + 1, s1) /\
    rt s1 = rt (drawn (drawn (drawn (drawn s)))) /\
    Simulation.removeSource None s1 = Some (Some src, mkSt (this s) (rt s1)).
Proof.
  destruct (addRandomSource_eq env s) as (src & _ & E).
  eexists _, _. split; [exact E |].
  cbn [this rt Simulation.sources Simulation.setSources].
  split; [reflexivity |]. split; [| split; [reflexivity |]].
  - unfold Simulation.getSourceCount, bind, gets, ret.
    cbn [this Simulation.sources Simulation.setSources].
    rewrite length_app, Nat2Z.inj_add. reflexivity.
  - unfold Simulation.removeSource, bind, gets, modify, ret.
    cbn [this rt Simulation.sources Simulation.setSources default].
    destruct (Z.eqb_spec (Z.of_nat (length (Simulation.sources (this s) ++ [src]))) 0)
      as [H | _].
    { rewrite length_app in H. cbn [length] in H. lia. }
    cbn [Z.eqb Pos.eqb Z.opp]. rewrite removelast_last, last_snoc.
    destruct s as [c rt0]. destruct c. reflexivity.
Qed.

Lemma frames_paused (env : Env) (times : list Q) (s : St Simulation.t) :
  Simulation.paused (this s) = true -> frames env times s = Some (tt, s).
Proof.
  intros Hp. unfold frames. induction times as [| t times IH]; [reflexivity |].
  cbn [forEach]. unfold bind at 1.
  unfold Simulation.update at 1, bind at 1, gets at 1. rewrite Hp. exact IH.
Qed.

(** X15.  The time spent paused is never simulated: pausing, asking
    for any number of frames at any times, and resuming at time [t1]
    leaves the controller exactly as a call of [setPaused(false)] at time
    [t1] alone does, so the next frame covers the time since [t1]
    only. *)
Theorem pause_hides_time (env : Env) (s : St Simulation.t) (t0 t1 : Q) (times : list Q) :
  (Simulation.setPaused true t0 ;; frames env times ;; Simulation.setPaused false t1) s =
    Simulation.setPaused false t1 s /\
  exists s', Simulation.setPaused false t1 s = Some (tt, s') /\
             Simulation.paused (this s') = false /\
             Simulation.lastUpdateTime (this s') = t1.
Proof.
  split; [| eexists; split; [reflexivity |]; split; reflexivity].
  unfold bind at 1.
  unfold Simulation.setPaused at 1, bind at 1, modify at 1, ret. cbn [negb].
  unfold bind at 1. rewrite frames_paused by reflexivity.
  destruct s as [c rt0]. destruct c. reflexivity.
Qed.

Lemma clamp_between (lo hi v : Q) :
  (lo <= hi)%Q ->
  ((lo <= Qmax lo (Qmin hi v))%Q /\ (Qmax lo (Qmin hi v) <= hi)%Q) /\
  ((lo <= v)%Q -> (v <= hi)%Q -> (Qmax lo (Qmin hi v) == v)%Q).
Proof.
  intros H. split; [split |].
  - apply Q.le_max_l.
  - apply Q.max_lub; [exact H | apply Q.le_min_l].
  - intros H1 H2. rewrite (Q.min_r hi v H2). apply Q.max_r. exact H1.
Qed.

(** X16.  The three setters that limit their argument, read back with
    their getters: [setRandomnessFactor] stores a value of [0, 1],
    [setGlobalSpeed] a value of [0, 5] and [setSandRate] a value that is
    not negative; an argument within the limits is stored as it is, and
    nothing else of the object changes. *)
Theorem setters_clamp :
  (forall (s : St SandPile.t) (factor : Q),
     exists v,
       (SandPile.setRandomnessFactor factor ;; SandPile.getRandomnessFactor) s =
         Some (v, mkSt (SandPile.setRandomness v (this s)) (rt s)) /\
       ((0 <= v)%Q /\ (v <= 1)%Q) /\
       ((0 <= factor)%Q -> (factor <= 1)%Q -> (v == factor)%Q)) /\
  (forall (s : St Simulation.t) (speed : Q),
     exists v,
       (Simulation.setGlobalSpeed speed ;; Simulation.getGlobalSpeed) s =
         Some (v, mkSt (Simulation.setSpeed v (this s)) (rt s)) /\
       ((0 <= v)%Q /\ (v <= 5)%Q) /\
       ((0 <= speed)%Q -> (speed <= 5)%Q -> (v == speed)%Q)) /\
  (forall (s : St SandSource.t) (rate : Q),
     exists v,
       (SandSource.setSandRate rate ;; SandSource.getSandRate) s =
         Some (v, mkSt (SandSource.setRate v (this s)) (rt s)) /\
       (0 <= v)%Q /\
       ((0 <= rate)%Q -> (v == rate)%Q)).
Proof.
  split; [| split].
  - intros s factor. eexists. split; [reflexivity |].
    apply (clamp_between 0 1 factor). discriminate.
  - intros s speed. eexists. split; [reflexivity |].
    apply (clamp_between 0 5 speed). discriminate.
  - intros s rate. eexists. split; [reflexivity |].
    split; [apply Q.le_max_l | intros H; apply Q.max_r; exact H].
Qed.

Lemma simulation_reset_spec (env : Env) (s : St Simulation.t) (now : Q) :
  let c := this s in
  wfGrid (SandPile.size (Simulation.sandPile c)) (SandPile.grid (Simulation.sandPile c)) ->
  exists s1 s2 s3,
    Simulation.reset env now s =
      Some (tt, mkSt (Simulation.mk (emptied (Simulation.sandPile c)) [s1; s2; s3]
                        (Simulation.targetFPS c) (Simulation.targetFrameTime c) now
                        (Simulation.accumulator c) (Simulation.globalSpeed c)
                        (Simulation.paused c) (Simulation.gridSize c) 0 0%Q)
                     (mkRt (12 + randomCalls (rt s)) (exited (rt s)))) /\
    (randomInRange env -> 0 < Simulation.gridSize c ->
     Forall (placed (Simulation.gridSize c)) [s1; s2; s3]).
Proof.
  intros c Hwf. subst c. destruct s as [c rt0].
  destruct c as [p l fps ft last acc speed paused gs fc time].
  cbn [this rt Simulation.sandPile Simulation.targetFPS Simulation.targetFrameTime
       Simulation.accumulator Simulation.globalSpeed Simulation.paused
       Simulation.gridSize] in *.
  unfold Simulation.reset. unfold bind at 1. rewrite onPile_eq. unfold pileOf.
  cbn [this rt Simulation.sandPile]. rewrite (reset_empties (mkSt p rt0) Hwf).
  cbn [this rt Simulation.setSandPile Simulation.sources Simulation.targetFPS
       Simulation.targetFrameTime Simulation.lastUpdateTime Simulation.accumulator
       Simulation.globalSpeed Simulation.paused Simulation.gridSize
       Simulation.frameCount Simulation.simulationTime].
  unfold bind at 1, modify at 1. unfold bind at 1, modify at 1.
  unfold bind at 1, modify at 1. unfold bind at 1, modify at 1.
  cbn [this rt Simulation.setSources Simulation.setFrameCount Simulation.setSimulationTime
       Simulation.setLastUpdateTime Simulation.sandPile Simulation.sources
       Simulation.targetFPS Simulation.targetFrameTime Simulation.lastUpdateTime
       Simulation.accumulator Simulation.globalSpeed Simulation.paused
       Simulation.gridSize Simulation.frameCount Simulation.simulationTime].
  cbn [Simulation.addRandomSources].
  match goal with |- context [bind (Simulation.addRandomSource env) _ ?st] =>
    set (t0 := st) end.
  destruct (addRandomSource_eq env t0) as (s1 & C1 & E1).
  unfold bind at 1. rewrite E1.
  match goal with |- context [bind (Simulation.addRandomSource env) _ ?st] =>
    set (t1 := st) end.
  destruct (addRandomSource_eq env t1) as (s2 & C2 & E2).
  unfold bind at 1. rewrite E2.
  match goal with |- context [bind (Simulation.addRandomSource env) _ ?st] =>
    set (t2 := st) end.
  destruct (addRandomSource_eq env t2) as (s3 & C3 & E3).
  unfold bind at 1. rewrite E3.
  exists s1, s2, s3. split; [reflexivity |].
  intros Henv Hgs.
  destruct (createRandom_placed env t0 gs Henv Hgs) as (s1' & C1' & H1).
  destruct (createRandom_placed env t1 gs Henv Hgs) as (s2' & C2' & H2).
  destruct (createRandom_placed env t2 gs Henv Hgs) as (s3' & C3' & H3).
  change (Simulation.gridSize (this t0)) with gs in C1.
  change (Simulation.gridSize (this t1)) with gs in C2.
  change (Simulation.gridSize (this t2)) with gs in C3.
  rewrite C1 in C1'. rewrite C2 in C2'. rewrite C3 in C3'.
  injection C1' as <-. injection C2' as <-. injection C3' as <-.
  constructor; [exact H1 | constructor; [exact H2 | constructor; [exact H3 | constructor]]].
Qed.

(** X17.  [reset()] of the controller, on a pile whose grid has its
    [size] rows and columns: the pile is emptied as by its own [reset()];
    the sources are replaced by exactly three new random ones, however
    many there were or the constructor was asked for, each placed as
    [createRandom] places it when the grid size is positive; the frame
    counter and the simulation time are 0 and the time of the last update
    is the time given; speed, pause flag and the rest stay; and
    [Math.random()] has been called twelve times. *)
Theorem simulation_reset (env : Env) (s : St Simulation.t) (now : Q) :
  let c := this s in
  wfGrid (SandPile.size (Simulation.sandPile c)) (SandPile.grid (Simulation.sandPile c)) ->
  exists s1 s2 s3,
    Simulation.reset env now s =
      Some (tt, mkSt (Simulation.mk (emptied (Simulation.sandPile c)) [s1; s2; s3]
                        (Simulation.targetFPS c) (Simulation.targetFrameTime c) now
                        (Simulation.accumulator c) (Simulation.globalSpeed c)
                        (Simulation.paused c) (Simulation.gridSize c) 0 0%Q)
                     (mkRt (12 + randomCalls (rt s)) (exited (rt s)))) /\
    (randomInRange env -> 0 < Simulation.gridSize c ->
     Forall (placed (Simulation.gridSize c)) [s1; s2; s3]).
Proof. intros c Hwf. apply simulation_reset_spec. exact Hwf. Qed.

Lemma simulation_reset_witness :
  exists s1 s2 s3,
    Simulation.reset sampleEnv 2500 runningSimulation =
      Some (tt, mkSt (Simulation.mk (SandPile.mk 8 4 (replicate 8 (replicate 8 0)) [] 0 0 0 0)
                        [s1; s2; s3] 60 (50 # 3) 2500 0 1 false 8 0 0%Q)
                     (mkRt 12 0)) /\
    Forall (placed 8) [s1; s2; s3].
Proof.
  destruct (simulation_reset sampleEnv runningSimulation 2500) as (s1 & s2 & s3 & E & H).
  - apply wfGrid_8; reflexivity.
  - exists s1, s2, s3. split; [exact E |].
    apply H; [apply sampleEnv_in_range | reflexivity].
Defined.

Lemma addSand_restoring (n cm : Z) (g : list (list Z)) (q : SandPile.t) (rt0 : Rt)
    (P : Z -> Z -> Prop) (x y v : Z) :
  MathUtils.isValidGridPosition x y n = true -> ~ P x y ->
  SandPile.readCell g x y = Some v ->
  hoare (restoring n cm g q rt0 P) (SandPile.addSand x y v)
        (fun _ => restoring n cm g q rt0 (fun x' y' => P x' y' \/ (x', y') = (x, y))).
Proof.
  intros Hv HnP Hg s (Hn & Hcm & Hwf & Hin & Hout & Htot & Hun & Hq & Hrt).
  pose proof (Hout x y Hv HnP) as Hh.
  destruct (writeCell_total _ _ _ _ (0 + v) Hwf Hv) as [g' Hg'].
  rewrite <- Hn in Hv.
  rewrite (addSand_inside s x y v 0 g' Hv Hh Hg'). rewrite Hn in Hv.
  eexists _, _. split; [reflexivity |].
  unfold restoring. pile_fields.
  split; [exact Hn |]. split; [exact Hcm |].
  split; [exact (writeCell_wf _ _ _ _ _ _ Hwf Hg') |].
  split; [| split; [| split; [| split; [| split; [exact Hq | exact Hrt]]]]].
  - intros x' y' Hv' HP'.
    destruct (pair_eq_dec_Z x y x' y') as [Heq | Hne].
    + injection Heq as -> ->. rewrite (readCell_writeCell_eq _ _ _ _ _ Hg'), Hg.
      reflexivity.
    + rewrite (readCell_writeCell_ne _ _ _ _ _ _ _ Hg' Hne).
      destruct HP' as [HP' | HP']; [auto | contradiction].
  - intros x' y' Hv' HnP'.
    assert (Hne : (x', y') <> (x, y)) by (intros Heq; apply HnP'; right; exact Heq).
    rewrite (readCell_writeCell_ne _ _ _ _ _ _ _ Hg' Hne).
    apply Hout; [exact Hv' |]. intros HP. apply HnP'. left. exact HP.
  - rewrite (sumGrid_writeCell _ _ _ _ _ _ Hg' Hh). lia.
  - intros x' y'. rewrite Hcm.
    destruct (Z.leb_spec cm (0 + v)) as [Hc | Hc].
    + rewrite elem_of_setAdd, Hun. split.
      * intros [Heq | [HP Hex]]; [| split; [left; exact HP | exact Hex]].
        injection Heq as -> ->. split; [right; reflexivity |].
        exists v. split; [exact Hg | lia].
      * intros [[HP | Heq] Hex]; [right; auto | left; exact Heq].
    + rewrite Hun. split.
      * intros [HP Hex]. split; [left; exact HP | exact Hex].
      * intros [[HP | Heq] Hex]; [auto |].
        injection Heq as -> ->. destruct Hex as (v' & Ev' & Hv'').
        rewrite Hg in Ev'. injection Ev' as <-. lia.
Qed.

Lemma range_split (lo hi x : Z) (done rest : list Z) :
  SandPile.range lo hi = done ++ x :: rest -> lo <= x <= hi /\ x ∉ done.
Proof.
  intros E. split.
  - apply elem_of_range. rewrite E. apply elem_of_app. right. left.
  - assert (Hnd : NoDup (SandPile.range lo hi)) by apply NoDup_seqZ.
    rewrite E in Hnd. apply NoDup_app in Hnd as (_ & Hd & _).
    intros Hin. apply (Hd x Hin). left.
Qed.

(** The loops of [importState] that restore the grid [g]. *)
Lemma restoreGrid_spec (c : Simulation.t) (n cm : Z) (g : list (list Z))
    (q : SandPile.t) (rt0 : Rt) :
  wfGrid n g ->
  hoare (onController c (restoring n cm g q rt0 (fun _ _ => False)))
        (forEach (SandPile.range 0 (n - 1)) (fun x _ =>
           forEach (SandPile.range 0 (n - 1)) (fun y _ =>
             match g !! Z.to_nat x with
             | Some row =>
                 match row !! Z.to_nat y with
                 | Some v => Simulation.onPile (SandPile.addSand x y v)
                 | None => ret tt
                 end
             | None => ret tt
             end) tt) tt)
        (fun _ => onController c (restoring n cm g q rt0 (fun _ _ => True))).
Proof.
  intros Hg.
  assert (Hweaken : forall (P P' : Z -> Z -> Prop) s,
            (forall x y, MathUtils.isValidGridPosition x y n = true -> P x y <-> P' x y) ->
            onController c (restoring n cm g q rt0 P) s ->
            onController c (restoring n cm g q rt0 P') s).
  { intros P P' s HPP (p & Hs & Hn & Hcm & Hwf & Hin & Hout & Htot & Hun & Hq).
    exists p. split; [exact Hs |].
    split; [exact Hn |]. split; [exact Hcm |]. split; [exact Hwf |].
    split; [| split; [| split; [exact Htot | split; [| exact Hq]]]].
    - intros x y Hv HP. apply Hin; [exact Hv | apply HPP; assumption].
    - intros x y Hv HP. apply Hout; [exact Hv |]. intros HP'. apply HP.
      apply HPP; assumption.
    - intros x y. rewrite Hun. split; intros [HP (v & Ev & Hv)].
      + split; [| eauto]. apply HPP; [| exact HP].
        exact (readCell_valid _ _ _ _ _ Hg Ev).
      + split; [| eauto]. apply HPP; [| exact HP].
        exact (readCell_valid _ _ _ _ _ Hg Ev). }
  eapply hoare_conseq;
    [ apply (hoare_forEach
        (fun done (_ : unit) =>
           onController c (restoring n cm g q rt0 (fun x _ => x ∈ done))))
    | intros s Hs; revert Hs; apply Hweaken; intros x y _; split;
      [intros [] | intros Hx; apply elem_of_nil in Hx; destruct Hx]
    | intros ? s Hs; revert Hs; apply Hweaken; intros x y Hv; split; [auto |];
      intros _; apply isValid_spec in Hv; apply elem_of_range; lia ].
  intros doneX x [] [restX HX].
  destruct (range_split _ _ _ _ _ HX) as [Hx HxN].
  eapply hoare_conseq;
    [ apply (hoare_forEach
        (fun done (_ : unit) =>
           onController c
             (restoring n cm g q rt0 (fun x' y' => x' ∈ doneX \/ (x' = x /\ y' ∈ done)))))
    | intros s Hs; revert Hs; apply Hweaken; intros x' y' _; split;
      [intros H; left; exact H
      | intros [H | [_ H]]; [exact H | apply elem_of_nil in H; destruct H]]
    | intros ? s Hs; revert Hs; apply Hweaken; intros x' y' Hv; split ].
  - intros doneY y [] [restY HY].
    destruct (range_split _ _ _ _ _ HY) as [Hy HyN].
    assert (Hv : MathUtils.isValidGridPosition x y n = true) by (apply isValid_spec; lia).
    destruct (readCell_total _ _ _ _ Hg Hv) as [v Ev].
    pose proof Ev as Ev'. apply readCell_Some in Ev' as (_ & _ & row & Er & Ec).
    rewrite Er, Ec.
    eapply hoare_conseq;
      [ apply (onPile_hoare c _ _ _
                 (addSand_restoring n cm g q rt0
                    (fun x' y' => x' ∈ doneX \/ (x' = x /\ y' ∈ doneY)) x y v Hv
                    ltac:(intros [H | [_ H]]; contradiction) Ev))
      | intros s Hs; exact Hs
      | intros ? s Hs; revert Hs; apply Hweaken; intros x' y' _ ].
    split.
    + intros [[H | [-> H]] | Heq].
      * left. exact H.
      * right. split; [reflexivity |]. apply elem_of_app. left. exact H.
      * injection Heq as -> ->. right. split; [reflexivity |].
        apply elem_of_app. right. left.
    + intros [H | [-> H]]; [left; left; exact H |].
      apply elem_of_app in H as [H | H]; [left; right; auto |].
      apply list_elem_of_singleton in H as ->. right. reflexivity.
  - intros [H | [-> _]]; apply elem_of_app; [left; exact H | right; left].
  - intros H. apply elem_of_app in H as [H | H]; [left; exact H |].
    apply list_elem_of_singleton in H as ->. right. split; [reflexivity |].
    apply isValid_spec in Hv. apply elem_of_range. lia.
Qed.

Lemma fromJSON_eq (env : Env) {T} (data : SandSource.json) (n : Z) (s : St T) :
  SandSource.fromJSON env data n s =
    Some (SandSource.mk (SandSource.jsonGridX data) (SandSource.jsonGridY data)
            (SandSource.jsonSandRate data) n 0%Q
            (fst (SandSource.gridToWorld (SandSource.jsonGridX data)
                    (SandSource.jsonGridY data) n))
            (snd (SandSource.gridToWorld (SandSource.jsonGridX data)
                    (SandSource.jsonGridY data) n))
            5%Q (random env (randomCalls (rt s))) (SandSource.jsonActive data),
          drawn s).
Proof. reflexivity. Qed.

(** The loop of [importState] that rebuilds the sources. *)
Lemma restoreSources_spec (env : Env) {T} (n : Z) (l : list SandSource.json) :
  forall (restored : list SandSource.t) (s : St T),
  exists out,
    forEach l (fun sourceData restored =>
      let* source := SandSource.fromJSON env sourceData n in
      ret (restored ++ [source])) restored s =
      Some (restored ++ out,
            mkSt (this s) (mkRt (length l + randomCalls (rt s)) (exited (rt s)))) /\
    SandSource.toJSON <$> out = l /\
    Forall (fun src => SandSource.accumulator src = 0%Q /\ SandSource.gridSize src = n) out.
Proof.
  set (body := fun sourceData restored => _).
  induction l as [| data l IH]; intros restored s.
  - exists []. rewrite app_nil_r. destruct s as [c [k e]]. repeat split. constructor.
  - cbn [forEach]. unfold bind at 1. unfold body at 1. unfold bind at 1.
    rewrite fromJSON_eq. unfold ret at 1.
    match goal with |- context [forEach l body ?acc ?st] =>
      destruct (IH acc st) as (out & E & HJ & HF) end.
    match type of E with forEach l _ (_ ++ [?src]) _ = _ => exists (src :: out) end.
    rewrite E. split; [| split].
    + rewrite <- app_assoc. cbn [app length this rt drawn randomCalls exited].
      rewrite Nat.add_succ_r. reflexivity.
    + cbn [fmap list_fmap]. f_equal; [destruct data; reflexivity | exact HJ].
    + constructor; [split; reflexivity | exact HF].
Qed.

Lemma exportState_eq (s : St Simulation.t) :
  Simulation.exportState s =
    Some (Simulation.mkState (Some (Simulation.gridSize (this s)))
            (Some (SandPile.grid (Simulation.sandPile (this s))))
            (Some (SandSource.toJSON <$> Simulation.sources (this s)))
            (Some (Simulation.globalSpeed (this s))), s).
Proof.
  unfold Simulation.exportState. unfold bind at 1, gets at 1.
  unfold bind at 1. rewrite onPile_eq. unfold pileOf, SandPile.getGridCopy, gets.
  destruct s as [c rt0]. destruct c. reflexivity.
Qed.

Lemma importState_spec (env : Env) (now : Q) (e t : St Simulation.t) :
  let n := Simulation.gridSize (this t) in
  let target := Simulation.sandPile (this t) in
  let g := SandPile.grid (Simulation.sandPile (this e)) in
  SandPile.size target = n -> wfGrid n (SandPile.grid target) -> wfGrid n g ->
  exists t',
    Simulation.importState env now
      (Simulation.mkState (Some (Simulation.gridSize (this e))) (Some g)
         (Some (SandSource.toJSON <$> Simulation.sources (this e)))
         (Some (Simulation.globalSpeed (this e)))) t = Some (tt, t') /\
    restoredFrom now e t t'.
Proof.
  intros n target g Hsize Hwf Hg.
  destruct (simulation_reset_spec env t now) as (s1 & s2 & s3 & E & _).
  { fold target. rewrite Hsize. exact Hwf. }
  unfold Simulation.importState. cbn [Simulation.stateGrid Simulation.stateSources
    Simulation.stateGlobalSpeed].
  unfold bind at 1. rewrite E.
  match goal with |- context [bind _ _ ?st] => set (t1 := st) in * end.
  set (c1 := this t1).
  unfold bind at 1. unfold bind at 1, gets at 1.
  change (Simulation.gridSize (this t1)) with n.
  destruct (restoreGrid_spec c1 n (SandPile.criticalMass target) g
              (SandPile.setUnstableCells [] (others (emptied target))) (rt t1) Hg t1)
    as ([] & t2 & E2 & p2 & Ht2 & Hn2 & Hcm2 & Hwf2 & Hin2 & _ & Htot2 & Hun2 & Hq2 & Hrt2).
  { exists (emptied target). split; [reflexivity |].
    unfold restoring, emptied. pile_fields. fold target. rewrite Hsize.
    split; [reflexivity |]. split; [reflexivity |].
    split; [apply wfGrid_replicate |].
    split; [intros x y _ [] |].
    split; [intros x y Hv _; apply readCell_replicate; exact Hv |].
    split; [rewrite sumGrid_replicate_0; reflexivity |].
    split; [| split; reflexivity].
    intros x y. split; [intros H; apply elem_of_nil in H; destruct H | intros [[] _]]. }
  rewrite E2.
  unfold bind at 1. unfold bind at 1, gets at 1.
  destruct t2 as [c2 rt2]. cbn [this rt] in *. subst c2.
  change (Simulation.gridSize (Simulation.setSandPile p2 c1)) with n.
  destruct (restoreSources_spec env n (SandSource.toJSON <$> Simulation.sources (this e))
              [] (mkSt (Simulation.setSandPile p2 c1) rt2)) as (out & E3 & HJ & HF).
  unfold bind at 1. rewrite E3.
  eexists. split; [reflexivity |]. unfold restoredFrom.
  cbn [this rt app Simulation.sandPile Simulation.sources Simulation.globalSpeed
       Simulation.frameCount Simulation.simulationTime Simulation.lastUpdateTime
       Simulation.paused Simulation.gridSize Simulation.setSources Simulation.setSpeed
       Simulation.setSandPile].
  fold n target g.
  assert (Hgrid : SandPile.grid p2 = g).
  { apply (grid_ext n); [exact Hwf2 | exact Hg |].
    intros x y Hv. apply Hin2; [exact Hv | exact I]. }
  split; [exact Hgrid |].
  split; [rewrite Htot2, Hgrid; reflexivity |].
  split.
  { intros x y. rewrite Hun2. split; [intros [_ H]; exact H | intros H; split; [exact I | exact H]]. }
  split; [exact HJ |]. split; [exact HF |].
  split; [reflexivity |].
  assert (Hta : SandPile.totalAvalanches p2 = 0)
    by (change (SandPile.totalAvalanches (SandPile.setUnstableCells [] (others p2)) = 0);
        rewrite Hq2; reflexivity).
  assert (Hav : SandPile.avalancheSize p2 = 0)
    by (change (SandPile.avalancheSize (SandPile.setUnstableCells [] (others p2)) = 0);
        rewrite Hq2; reflexivity).
  assert (Hrf : SandPile.randomnessFactor p2 = SandPile.randomnessFactor target)
    by (change (SandPile.randomnessFactor (SandPile.setUnstableCells [] (others p2)) =
                SandPile.randomnessFactor target); rewrite Hq2; reflexivity).
  split; [repeat split; assumption |].
  split; [reflexivity |]. split; [reflexivity |].
  split; [exact Hn2 |]. split; [exact Hcm2 | exact Hrf].
Qed.

(** X18.  Save and restore.  [exportState()] changes nothing, and
    [importState] of what a controller [e] exported, into a controller
    [t] of the same grid size, gives [t] the grid of [e], cell by cell; a
    [totalSand] that is the sum of these heights; an unstable set that
    lists exactly the cells at or above the critical mass of [t]; sources
    with the cells, rates and active flags of those of [e], their
    accumulators at 0; and the speed of [e].  Frame counter, simulation
    time and avalanche counters restart at 0; the pause flag, the critical
    mass and the randomness factor are those that [t] had. *)
Theorem import_export (env : Env) (now : Q) (e t : St Simulation.t) :
  let n := Simulation.gridSize (this t) in
  SandPile.size (Simulation.sandPile (this t)) = n ->
  wfGrid n (SandPile.grid (Simulation.sandPile (this t))) ->
  wfGrid n (SandPile.grid (Simulation.sandPile (this e))) ->
  exists st t',
    Simulation.exportState e = Some (st, e) /\
    Simulation.importState env now st t = Some (tt, t') /\
    restoredFrom now e t t'.
Proof.
  intros n Hsize Hwf Hg.
  destruct (importState_spec env now e t Hsize Hwf Hg) as (t' & E & H).
  eexists _, t'. split; [apply exportState_eq |]. split; [exact E | exact H].
Qed.

Lemma import_export_witness :
  exists st t',
    Simulation.exportState runningSimulation = Some (st, runningSimulation) /\
    Simulation.importState sampleEnv 2500 st pausedSimulation = Some (tt, t') /\
    restoredFrom 2500 runningSimulation pausedSimulation t'.
Proof.
  apply (import_export sampleEnv 2500 runningSimulation pausedSimulation).
  - reflexivity.
  - apply wfGrid_8; reflexivity.
  - apply wfGrid_8; reflexivity.
Defined.

(** ** SeismographData: the buffer *)

Section Signal.
Variable f32 : Type.
Variable fround : Q -> f32.
Variable nan : f32.

Lemma bufferAfter_Holds (b : Z) (l : list Q) :
  0 < b -> exists d, bufferAfter fround b l = Some d /\ Holds fround b l d.
Proof using Type.
  intros Hb. unfold bufferAfter.
  destruct (create_Holds f32 fround b Hb) as (d0 & E0 & H0). rewrite E0.
  exact (addSamples_Holds f32 fround b l Hb [] d0 H0).
Qed.

Lemma signalAfter_bufferAfter (b : Z) (l : list Q) (len : option Z) :
  signalAfter fround nan b l len =
    match bufferAfter fround b l with
    | Some d => SeismographData.getSignalData f32 fround nan len d
    | None => None
    end.
Proof using Type.
  unfold signalAfter, bufferAfter.
  destruct (SeismographData.create f32 fround b); reflexivity.
Qed.

Lemma available_Holds (b : Z) (l : list Q) (d : SeismographData.t f32) :
  0 < b -> Holds fround b l d ->
  SeismographData.getAvailableDataLength f32 d = Z.min (Z.of_nat (length l)) b.
Proof using Type.
  intros Hb (Hsize & _ & Hidx & Hfull & _).
  unfold SeismographData.getAvailableDataLength. rewrite Hfull, Hsize, Hidx.
  destruct (Z.leb_spec b (Z.of_nat (length l))) as [H | H]; [lia |].
  rewrite Z.mod_small by lia. lia.
Qed.

(** X19.  A buffer of positive size [b] into which [k] samples have
    been pushed has its cursor at [k mod b], its wrap flag set exactly
    when [k >= b], an array of [b] entries still, and
    [getAvailableDataLength()] is the smaller of [k] and [b]. *)
Theorem buffer_after_samples (b : Z) (l : list Q) :
  0 < b ->
  exists d,
    bufferAfter fround b l = Some d /\
    SeismographData.bufferSize f32 d = b /\
    length (SeismographData.signalBuffer f32 d) = Z.to_nat b /\
    SeismographData.bufferIndex f32 d = Z.of_nat (length l) mod b /\
    SeismographData.bufferFull f32 d = (b <=? Z.of_nat (length l)) /\
    SeismographData.getAvailableDataLength f32 d = Z.min (Z.of_nat (length l)) b.
Proof using Type.
  intros Hb. destruct (bufferAfter_Holds b l Hb) as (d & E & Hd).
  exists d. split; [exact E |].
  pose proof (available_Holds b l d Hb Hd) as Ha.
  destruct Hd as (Hsize & Hlen & Hidx & Hfull & _). auto 6.
Qed.

(** X20.  [getSignalData(len)] for a length between 1 and the number of
    available samples returns the [len] most recent samples, oldest
    first, each as the [Float32Array] stored it. *)
Theorem getSignalData_recent (b : Z) (l : list Q) (len : Z) :
  0 < b -> 1 <= len -> len <= Z.of_nat (length l) -> len <= b ->
  signalAfter fround nan b l (Some len) =
    Some (fround <$> drop (length l - Z.to_nat len) l).
Proof using Type.
  intros Hb Hlen Hn Hlb. rewrite signalAfter_bufferAfter.
  destruct (bufferAfter_Holds b l Hb) as (d & E & Hd). rewrite E.
  exact (getSignalData_recent_Holds f32 fround nan b l len d Hb Hlen Hn Hlb Hd).
Qed.

(** X21.  Before the buffer has wrapped, [getSignalData(len)] for more
    samples than have been pushed returns an array of [len] entries: the
    samples pushed, oldest first, followed by zeros. *)
Theorem getSignalData_padded (b : Z) (l : list Q) (len : Z) :
  Z.of_nat (length l) < b -> Z.of_nat (length l) < len ->
  signalAfter fround nan b l (Some len) =
    Some ((fround <$> l) ++ replicate (Z.to_nat len - length l) (fround 0%Q)).
Proof using Type.
  intros Hlb Hlen. rewrite signalAfter_bufferAfter.
  destruct (bufferAfter_Holds b l ltac:(lia)) as (d & E & Hd). rewrite E.
  exact (getSignalData_padded_Holds f32 fround nan b l len d Hlb Hlen Hd).
Qed.

Lemma getSignalData_default_Holds (b : Z) (l : list Q) (d : SeismographData.t f32) :
  0 < b -> Holds fround b l d ->
  SeismographData.getSignalData f32 fround nan None d = Some (fround <$> availableOf b l) /\
  SeismographData.getSignalData f32 fround nan (Some 0) d =
    Some (fround <$> availableOf b l).
Proof using Type.
  intros Hb Hd. pose proof (available_Holds b l d Hb Hd) as Ha.
  assert (H0 : SeismographData.getSignalData f32 fround nan (Some 0) d =
               SeismographData.getSignalData f32 fround nan None d) by reflexivity.
  rewrite H0.
  cut (SeismographData.getSignalData f32 fround nan None d =
       Some (fround <$> availableOf b l)); [intros H; split; exact H |].
  unfold availableOf.
  destruct l as [| x l'].
  - destruct Hd as (Hsize & Hlen & Hidx & Hfull & _).
    unfold SeismographData.getSignalData, SeismographData.getAvailableDataLength.
    rewrite Hfull, Hidx. cbn [length]. rewrite Z.mod_0_l by lia.
    replace (b <=? Z.of_nat 0) with false by (symmetry; apply Z.leb_gt; lia).
    reflexivity.
  - set (l := x :: l') in *.
    assert (Hpos : 1 <= Z.min (Z.of_nat (length l)) b) by (subst l; cbn [length]; lia).
    assert (E : SeismographData.getSignalData f32 fround nan None d =
                SeismographData.getSignalData f32 fround nan
                  (Some (Z.min (Z.of_nat (length l)) b)) d).
    { unfold SeismographData.getSignalData. rewrite Ha.
      replace (Z.min (Z.of_nat (length l)) b =? 0) with false
        by (symmetry; apply Z.eqb_neq; lia).
      reflexivity. }
    rewrite E.
    apply (getSignalData_recent_Holds f32 fround nan b l _ d Hb Hpos); [lia | lia | exact Hd].
Qed.

(** X22.  [getSignalData()] without a length, or with length 0, on a
    buffer of positive size returns exactly the available samples, oldest
    first: all the samples pushed while they are fewer than the buffer
    size, the last [bufferSize] of them afterwards, and an empty array
    before the first sample. *)
Theorem getSignalData_default (b : Z) (l : list Q) :
  0 < b ->
  signalAfter fround nan b l None = Some (fround <$> availableOf b l) /\
  signalAfter fround nan b l (Some 0) = Some (fround <$> availableOf b l) /\
  length (availableOf b l) = Z.to_nat (Z.min (Z.of_nat (length l)) b).
Proof using Type.
  intros Hb. rewrite !signalAfter_bufferAfter.
  destruct (bufferAfter_Holds b l Hb) as (d & E & Hd). rewrite E.
  destruct (getSignalData_default_Holds b l d Hb Hd) as [H1 H2].
  split; [exact H1 |]. split; [exact H2 |].
  unfold availableOf. rewrite length_drop. lia.
Qed.

End Signal.

Lemma buffer_after_samples_witness :
  exists d,
    bufferAfter (fun q : Q => q) 4 [1; 2; 3; 4; 5; 6]%Q = Some d /\
    SeismographData.bufferIndex Q d = 2 /\
    SeismographData.getAvailableDataLength Q d = 4.
Proof.
  destruct (buffer_after_samples Q (fun q => q) 4 [1; 2; 3; 4; 5; 6]%Q ltac:(lia))
    as (d & E & _ & _ & Hi & _ & Ha).
  exists d. split; [exact E |]. split; [exact Hi | exact Ha].
Defined.

Lemma getSignalData_recent_witness :
  signalAfter (fun q : Q => q) (-1)%Q 4 [1; 2; 3; 4; 5; 6]%Q (Some 3) =
    Some [4; 5; 6]%Q.
Proof.
  apply (getSignalData_recent Q (fun q => q) (-1)%Q 4 [1; 2; 3; 4; 5; 6]%Q 3);
    cbn [length]; lia.
Defined.

Lemma getSignalData_padded_witness :
  signalAfter (fun q : Q => q) (-1)%Q 4 [1; 2]%Q (Some 5) = Some [1; 2; 0; 0; 0]%Q.
Proof.
  apply (getSignalData_padded Q (fun q => q) (-1)%Q 4 [1; 2]%Q 5); cbn [length]; lia.
Defined.

Lemma getSignalData_default_witness :
  signalAfter (fun q : Q => q) (-1)%Q 4 [1; 2; 3; 4; 5; 6]%Q None =
    Some [3; 4; 5; 6]%Q.
Proof.
  apply (getSignalData_default Q (fun q => q) (-1)%Q 4 [1; 2; 3; 4; 5; 6]%Q). lia.
Defined.

(** ** SeismographData: the signal *)

Lemma changeTotals_spec {T : Type} (n : Z) (weights : list (list Q))
    (g previous : list (list Z)) (s : St T) :
  hasRows n g -> hasRows n previous -> weightsFor n weights ->
  exists totalChangeSignal totalWeight,
    changeTotals n weights g previous s = Some ((totalChangeSignal, totalWeight), s) /\
    (0 <= totalChangeSignal)%Q /\ (0 <= totalWeight)%Q /\
    (previous = g -> totalChangeSignal = 0%Q /\ totalWeight = 0%Q).
Proof.
  intros Hg Hp Hw.
  assert (H : hoare (fun s' => s' = s) (changeTotals n weights g previous)
                (fun totals s' => s' = s /\ (0 <= fst totals)%Q /\ (0 <= snd totals)%Q /\
                   (previous = g -> totals = (0%Q, 0%Q)))).
  { unfold changeTotals.
    eapply hoare_conseq;
      [ apply (hoare_forEach
          (fun (_ : list Z) (totals : Q * Q) s' =>
             s' = s /\ (0 <= fst totals)%Q /\ (0 <= snd totals)%Q /\
             (previous = g -> totals = (0%Q, 0%Q))))
      | intros s' ->; cbn [fst snd]; repeat split; apply Qle_refl
      | intros totals s' Hs; exact Hs ].
    intros doneX x totals0 [restX HX].
    assert (Hx : 0 <= x < n).
    { assert (Hin : x ∈ seqZ 0 n) by (rewrite HX; apply elem_of_app; right; left).
      apply elem_of_seqZ in Hin. lia. }
    eapply hoare_conseq;
      [ apply (hoare_forEach
          (fun (_ : list Z) (totals : Q * Q) s' =>
             s' = s /\ (0 <= fst totals)%Q /\ (0 <= snd totals)%Q /\
             (previous = g -> totals = (0%Q, 0%Q))))
      | intros s' Hs; exact Hs
      | intros totals s' Hs; exact Hs ].
    intros doneY y [tcs tw] [restY HY].
    assert (Hy : 0 <= y < n).
    { assert (Hin : y ∈ seqZ 0 n) by (rewrite HY; apply elem_of_app; right; left).
      apply elem_of_seqZ in Hin. lia. }
    intros s' (-> & H0 & H1 & Heq). cbn [fst snd] in *.
    destruct (Hg x Hx) as [crow Ec]. destruct (Hp x Hx) as [prow Ep].
    unfold bind, liftOpt. rewrite Ec, Ep.
    destruct (crow !! Z.to_nat y) as [c |] eqn:Ecy;
      [| eexists _, _; split; [reflexivity |]; cbn [fst snd]; auto].
    destruct (prow !! Z.to_nat y) as [p |] eqn:Epy;
      [| eexists _, _; split; [reflexivity |]; cbn [fst snd]; auto].
    destruct (Z.ltb_spec 0 (Z.abs (c - p))) as [Hc | Hc];
      [| eexists _, _; split; [reflexivity |]; cbn [fst snd]; auto].
    destruct (Hw x y Hx Hy) as (wrow & q & Ewx & Ewy & Hq0 & Hq1).
    rewrite Ewx, Ewy. unfold ret.
    eexists _, _. split; [reflexivity |]. cbn [fst snd].
    split; [reflexivity |].
    assert (Hch : (0 <= inject_Z (Z.abs (c - p)))%Q).
    { change (inject_Z 0 <= inject_Z (Z.abs (c - p)))%Q. rewrite <- Zle_Qle. lia. }
    split; [| split].
    - assert (0 <= inject_Z (Z.abs (c - p)) * q)%Q
        by (apply Qmult_le_0_compat; [exact Hch | apply Qlt_le_weak; exact Hq0]).
      lra.
    - lra.
    - intros ->. rewrite Ec in Ep. injection Ep as <-. rewrite Ecy in Epy.
      injection Epy as <-. lia. }
  destruct (H s eq_refl) as ([tcs tw] & s' & E & -> & H0 & H1 & Heq).
  exists tcs, tw. split; [exact E |]. split; [exact H0 |]. split; [exact H1 |].
  intros Hpg. specialize (Heq Hpg). injection Heq as -> ->. auto.
Qed.

Ltac processor_fields :=
  cbn [this rt randomCalls exited
       SeismographData.gridSize SeismographData.sampleRate SeismographData.buffer
       SeismographData.previousGrid SeismographData.distanceWeights
       SeismographData.maxSignalValue SeismographData.signalDecay
       SeismographData.baselineNoise SeismographData.eventSensitivity
       SeismographData.currentSignal SeismographData.peakSignal
       SeismographData.averageSignal SeismographData.lastUpdateTime
       SeismographData.samplesGenerated
       SeismographData.setBuffer SeismographData.setPreviousGrid
       SeismographData.setMaxSignalValue SeismographData.setSignalDecay
       SeismographData.setBaselineNoise SeismographData.setCurrentSignal
       SeismographData.setPeakSignal SeismographData.setAverageSignal
       SeismographData.setLastUpdateTime SeismographData.setSamplesGenerated] in *.

Section Processor.
Variable f32 : Type.
Variable fround : Q -> f32.

Lemma calculateSignal_later (env : Env) (g previous : list (list Z))
    (s : St (SeismographData.processor f32)) :
  SeismographData.previousGrid f32 (this s) = Some previous ->
  SeismographData.calculateSignal f32 env g s =
    (let* '(totalChangeSignal, totalWeight) :=
       changeTotals (SeismographData.gridSize f32 (this s))
         (SeismographData.distanceWeights f32 (this s)) g previous in
     let* sensitivity := gets (SeismographData.eventSensitivity f32) in
     let signal :=
       if Qlt_le_dec 0 totalWeight
       then (totalChangeSignal / totalWeight * sensitivity)%Q
       else 0%Q in
     let* max := gets (SeismographData.maxSignalValue f32) in
     let signal := Qmin signal max in
     let* noise := SeismographData.generateBaselineNoise f32 env in
     let signal := (signal + noise)%Q in
     let* current := gets (SeismographData.currentSignal f32) in
     let* decay := gets (SeismographData.signalDecay f32) in
     modify (SeismographData.setCurrentSignal f32
               (current * decay + signal * (1 - decay))%Q) ;;
     gets (SeismographData.currentSignal f32)) s.
Proof using Type.
  intros Hp. unfold SeismographData.calculateSignal, changeTotals.
  unfold bind at 1, gets at 1. rewrite Hp. reflexivity.
Qed.

Lemma update_outcome (env : Env) (now : Q) (g : list (list Z)) (n b : Z) (l : list Q)
    (s : St (SeismographData.processor f32)) :
  ready n g (this s) -> 0 < b ->
  Holds fround b l (SeismographData.buffer f32 (this s)) ->
  exists signal d',
    SeismographData.update f32 fround env now g s = Some (tt, mkSt d' (rt (drawn s))) /\
    SeismographData.addSample f32 fround signal (SeismographData.buffer f32 (this s)) =
      Some (SeismographData.buffer f32 d') /\
    Holds fround b (l ++ [signal]) (SeismographData.buffer f32 d') /\
    updateOutcome now g (random env (randomCalls (rt s))) (this s) signal d'.
Proof using Type.
  intros (Hn & Hg & Hprev & Hw) Hb HH.
  destruct s as [d rt0]. cbn [this rt] in *.
  unfold SeismographData.update. unfold bind at 1, modify at 1. cbn [this rt].
  unfold bind at 1.
  destruct (SeismographData.previousGrid f32 d) as [previous |] eqn:Ep.
  - rewrite (calculateSignal_later env g previous) by exact Ep.
    cbn [this SeismographData.gridSize SeismographData.distanceWeights
         SeismographData.setLastUpdateTime].
    rewrite Hn.
    destruct (changeTotals_spec n (SeismographData.distanceWeights f32 d) g previous
                (mkSt (SeismographData.setLastUpdateTime f32 now d) rt0)
                Hg (Hprev previous eq_refl) Hw)
      as (tcs & tw & E & H0 & H1 & Heq).
    unfold bind at 1. rewrite E.
    unfold bind at 1, gets at 1. unfold bind at 1, gets at 1.
    unfold bind at 1, SeismographData.generateBaselineNoise, bind at 1, mathRandom at 1.
    unfold bind at 1, gets at 1, ret at 1.
    unfold bind at 1, gets at 1. unfold bind at 1, gets at 1.
    unfold bind at 1, modify at 1. unfold gets at 1.
    cbn [this rt randomCalls exited SeismographData.eventSensitivity
         SeismographData.maxSignalValue SeismographData.baselineNoise
         SeismographData.currentSignal SeismographData.signalDecay
         SeismographData.setLastUpdateTime SeismographData.setCurrentSignal].
    set (raw := if Qlt_le_dec 0 tw then _ else 0%Q).
    set (signal := (SeismographData.currentSignal f32 d * _ + _)%Q).
    destruct (addSample_Holds f32 fround b l signal (SeismographData.buffer f32 d) Hb HH)
      as (b' & Eb & HH').
    unfold bind at 1, SeismographData.pushSample, bind at 1, gets at 1.
    processor_fields. unfold bind at 1, liftOpt at 1. rewrite Eb.
    exists signal. eexists. split; [reflexivity |].
    cbn [SeismographData.buffer SeismographData.setBuffer SeismographData.setPeakSignal
         SeismographData.setAverageSignal SeismographData.setPreviousGrid
         SeismographData.setSamplesGenerated SeismographData.setCurrentSignal
         SeismographData.setLastUpdateTime this].
    split; [exact Eb |]. split; [exact HH' |].
    unfold updateOutcome. rewrite Ep.
    cbn [SeismographData.previousGrid SeismographData.samplesGenerated
         SeismographData.lastUpdateTime SeismographData.peakSignal
         SeismographData.averageSignal SeismographData.gridSize
         SeismographData.distanceWeights SeismographData.maxSignalValue
         SeismographData.signalDecay SeismographData.baselineNoise
         SeismographData.eventSensitivity SeismographData.currentSignal].
    do 5 (split; [reflexivity |]). split; [repeat split; reflexivity |].
    split; [reflexivity |]. exists raw. split; [| split; [| reflexivity]].
    + intros Hs. subst raw. destruct (Qlt_le_dec 0 tw) as [Htw | Htw]; [| apply Qle_refl].
      apply Qmult_le_0_compat; [| exact Hs].
      apply Qle_shift_div_l; [exact Htw |]. lra.
    + intros Hpg. destruct (Heq Hpg) as [-> ->]. subst raw.
      destruct (Qlt_le_dec 0 0) as [Hlt | _]; [| reflexivity].
      exfalso. revert Hlt. apply Qlt_irrefl.
  - unfold SeismographData.calculateSignal. unfold bind at 1, gets at 1.
    cbn [this SeismographData.previousGrid SeismographData.setLastUpdateTime]. rewrite Ep.
    unfold bind at 1, modify at 1.
    unfold SeismographData.generateBaselineNoise, bind at 1, mathRandom at 1.
    unfold bind at 1, gets at 1, ret at 1.
    cbn [this rt randomCalls exited SeismographData.baselineNoise
         SeismographData.setPreviousGrid SeismographData.setLastUpdateTime].
    set (signal := ((random env (randomCalls rt0) - (1 # 2)) *
                    SeismographData.baselineNoise f32 d)%Q).
    destruct (addSample_Holds f32 fround b l signal (SeismographData.buffer f32 d) Hb HH)
      as (b' & Eb & HH').
    unfold bind at 1, SeismographData.pushSample, bind at 1, gets at 1.
    processor_fields. unfold bind at 1, liftOpt at 1. rewrite Eb.
    exists signal. eexists. split; [reflexivity |].
    cbn [SeismographData.buffer SeismographData.setBuffer SeismographData.setPeakSignal
         SeismographData.setAverageSignal SeismographData.setPreviousGrid
         SeismographData.setSamplesGenerated SeismographData.setCurrentSignal
         SeismographData.setLastUpdateTime this].
    split; [exact Eb |]. split; [exact HH' |].
    unfold updateOutcome. rewrite Ep.
    cbn [SeismographData.previousGrid SeismographData.samplesGenerated
         SeismographData.lastUpdateTime SeismographData.peakSignal
         SeismographData.averageSignal SeismographData.gridSize
         SeismographData.distanceWeights SeismographData.maxSignalValue
         SeismographData.signalDecay SeismographData.baselineNoise
         SeismographData.eventSensitivity SeismographData.currentSignal].
    do 5 (split; [reflexivity |]). split; [repeat split; reflexivity |].
    split; reflexivity.
Qed.

End Processor.

Lemma distanceWeight_range (env : Env) (n x y : Z) :
  sqrtNonneg env ->
  (0 < SeismographData.distanceWeight env n x y)%Q /\
  (SeismographData.distanceWeight env n x y <= 1)%Q.
Proof.
  intros Hs. unfold SeismographData.distanceWeight. cbv zeta.
  set (distance := sqrt env _). set (maxDistance := sqrt env _).
  assert (Hd : (0 <= distance)%Q) by apply Hs.
  assert (Hm : (0 <= / maxDistance)%Q) by (apply Qinv_le_0_compat; apply Hs).
  assert (Hn : (0 <= distance / maxDistance)%Q)
    by (unfold Qdiv; apply Qmult_le_0_compat; assumption).
  assert (HD : (1 <= 1 + distance / maxDistance * 3)%Q) by lra.
  split.
  - apply Qlt_shift_div_l; lra.
  - apply Qle_shift_div_r; lra.
Qed.

Lemma computeDistanceWeights_spec (env : Env) (n : Z) :
  sqrtNonneg env ->
  weightsFor n (SeismographData.computeDistanceWeights env n) /\
  forall x y, 0 <= x < n -> 0 <= y < n ->
    exists row, SeismographData.computeDistanceWeights env n !! Z.to_nat x = Some row /\
                row !! Z.to_nat y = Some (SeismographData.distanceWeight env n x y).
Proof.
  intros Hs.
  assert (H : forall x y, 0 <= x < n -> 0 <= y < n ->
            exists row, SeismographData.computeDistanceWeights env n !! Z.to_nat x = Some row /\
                        row !! Z.to_nat y = Some (SeismographData.distanceWeight env n x y)).
  { intros x y Hx Hy. unfold SeismographData.computeDistanceWeights.
    eexists. rewrite list_lookup_fmap, lookup_seqZ_lt by lia. cbn [fmap option_fmap option_map].
    split; [reflexivity |].
    rewrite list_lookup_fmap, lookup_seqZ_lt by lia. cbn [fmap option_fmap option_map].
    f_equal. f_equal; lia. }
  split; [| exact H].
  intros x y Hx Hy. destruct (H x y Hx Hy) as (row & E1 & E2).
  exists row, (SeismographData.distanceWeight env n x y).
  split; [exact E1 |]. split; [exact E2 |]. apply distanceWeight_range. exact Hs.
Qed.

Lemma sampleEnv_sqrt : sqrtNonneg sampleEnv.
Proof.
  intros z. cbn [sampleEnv sqrt]. change 0%Q with (inject_Z 0). rewrite <- Zle_Qle.
  apply Z.sqrt_nonneg.
Qed.

Lemma noise_band (u noise : Q) :
  (0 <= u)%Q -> (u < 1)%Q -> (0 <= noise)%Q ->
  (- (noise / 2) <= (u - (1 # 2)) * noise)%Q /\ ((u - (1 # 2)) * noise <= noise / 2)%Q.
Proof.
  intros H0 H1 Hn.
  assert (H2 : (0 <= u * noise)%Q) by (apply Qmult_le_0_compat; assumption).
  assert (H3 : (0 <= (1 - u) * noise)%Q) by (apply Qmult_le_0_compat; [lra | assumption]).
  setoid_replace (noise / 2)%Q with (noise * (1 # 2))%Q using relation Qeq by reflexivity.
  split; lra.
Qed.

Lemma convex_band (lo hi c x decay : Q) :
  (lo <= c)%Q /\ (c <= hi)%Q -> (lo <= x)%Q /\ (x <= hi)%Q ->
  (0 <= decay)%Q /\ (decay <= 1)%Q ->
  (lo <= c * decay + x * (1 - decay))%Q /\ (c * decay + x * (1 - decay) <= hi)%Q.
Proof.
  intros [Hc0 Hc1] [Hx0 Hx1] [Hd0 Hd1].
  assert (H1 : (0 <= (c - lo) * decay)%Q) by (apply Qmult_le_0_compat; lra).
  assert (H2 : (0 <= (x - lo) * (1 - decay))%Q) by (apply Qmult_le_0_compat; lra).
  assert (H3 : (0 <= (hi - c) * decay)%Q) by (apply Qmult_le_0_compat; lra).
  assert (H4 : (0 <= (hi - x) * (1 - decay))%Q) by (apply Qmult_le_0_compat; lra).
  split; lra.
Qed.

Section ProcessorProperties.
Variable f32 : Type.
Variable fround : Q -> f32.
Variable nan : f32.

Lemma construct_spec (env : Env) (n b : Z) (rate now : Q) :
  sqrtNonneg env -> 0 <= n -> 0 < b ->
  exists d,
    SeismographData.construct f32 fround env n b rate now = Some d /\
    paramsInRange d /\
    (forall g, hasRows n g -> ready n g d) /\
    Holds fround b [] (SeismographData.buffer f32 d) /\
    SeismographData.currentSignal f32 d = 0%Q /\
    SeismographData.eventSensitivity f32 d = 5%Q.
Proof using Type.
  intros Hs Hn Hb. unfold SeismographData.construct.
  destruct (create_Holds f32 fround b Hb) as (d0 & E0 & H0). rewrite E0.
  replace (n <? 0) with false by (symmetry; apply Z.ltb_ge; exact Hn).
  eexists. split; [reflexivity |]. unfold paramsInRange, ready. processor_fields.
  split; [repeat split; discriminate |].
  split; [| auto].
  intros g Hg. split; [reflexivity |]. split; [exact Hg |].
  split; [discriminate |]. apply computeDistanceWeights_spec. exact Hs.
Qed.

(** X23.  [update(grid)] pushes exactly one sample: on an object whose
    buffer of positive size holds the samples [l], with grids of at least
    [gridSize] rows, it returns after one call of [Math.random()]; the
    buffer then holds [l] and the new sample, so that one more sample is
    available until the buffer is full; the grid is kept as the previous
    one, [samplesGenerated] grows by one, the peak is the larger of the
    old peak and the sample, and the parameters stay.  The first update
    pushes the baseline noise alone and leaves [currentSignal] as it is;
    a later one pushes the new [currentSignal]. *)
Theorem update_pushes_sample (env : Env) (now : Q) (g : list (list Z)) (n b : Z)
    (l : list Q) (s : St (SeismographData.processor f32)) :
  ready n g (this s) -> 0 < b ->
  Holds fround b l (SeismographData.buffer f32 (this s)) ->
  exists signal d',
    SeismographData.update f32 fround env now g s = Some (tt, mkSt d' (rt (drawn s))) /\
    Holds fround b (l ++ [signal]) (SeismographData.buffer f32 d') /\
    SeismographData.getAvailableDataLength f32 (SeismographData.buffer f32 d') =
      Z.min (Z.of_nat (length l) + 1) b /\
    updateOutcome now g (random env (randomCalls (rt s))) (this s) signal d'.
Proof using Type.
  intros Hr Hb HH.
  destruct (update_outcome f32 fround env now g n b l s Hr Hb HH)
    as (signal & d' & E & _ & HH' & HO).
  exists signal, d'. split; [exact E |]. split; [exact HH' |]. split; [| exact HO].
  rewrite (available_Holds f32 fround b _ _ Hb HH'), length_app. cbn [length]. lia.
Qed.

(** X24.  The signal stays within its band.  With parameters as the
    constructor and [setParameters] leave them, a sensitivity that is not
    negative and [Math.random()] in [0, 1): if [currentSignal] lies
    between [- baselineNoise / 2] and [maxSignalValue + baselineNoise / 2],
    then so do the sample that [update] pushes and the [currentSignal]
    that it leaves. *)
Theorem signal_stays_in_band (env : Env) (now : Q) (g : list (list Z)) (n b : Z)
    (l : list Q) (s : St (SeismographData.processor f32)) :
  randomInRange env ->
  ready n g (this s) -> 0 < b ->
  Holds fround b l (SeismographData.buffer f32 (this s)) ->
  paramsInRange (this s) ->
  (0 <= SeismographData.eventSensitivity f32 (this s))%Q ->
  let lo := (- (SeismographData.baselineNoise f32 (this s) / 2))%Q in
  let hi := (SeismographData.maxSignalValue f32 (this s) +
             SeismographData.baselineNoise f32 (this s) / 2)%Q in
  (lo <= SeismographData.currentSignal f32 (this s))%Q /\
  (SeismographData.currentSignal f32 (this s) <= hi)%Q ->
  exists signal d',
    SeismographData.update f32 fround env now g s = Some (tt, mkSt d' (rt (drawn s))) /\
    ((lo <= signal)%Q /\ (signal <= hi)%Q) /\
    ((lo <= SeismographData.currentSignal f32 d')%Q /\
     (SeismographData.currentSignal f32 d' <= hi)%Q) /\
    paramsInRange d'.
Proof using Type.
  intros Henv Hr Hb HH (Hmax & (Hd0 & Hd1) & Hnoise) Hsens lo hi [Hlo Hhi].
  destruct (update_outcome f32 fround env now g n b l s Hr Hb HH)
    as (signal & d' & E & _ & _ & HO).
  exists signal, d'. split; [exact E |].
  destruct HO as (_ & _ & _ & _ & _ & (_ & _ & Em & Ed & En & _) & HO).
  destruct (Henv (randomCalls (rt s))) as [Hu0 Hu1].
  set (u := random env (randomCalls (rt s))) in *.
  set (noise := SeismographData.baselineNoise f32 (this s)) in *.
  set (max := SeismographData.maxSignalValue f32 (this s)) in *.
  set (decay := SeismographData.signalDecay f32 (this s)) in *.
  set (c := SeismographData.currentSignal f32 (this s)) in *.
  assert (Hn : (lo <= (u - (1 # 2)) * noise)%Q /\ ((u - (1 # 2)) * noise <= noise / 2)%Q)
    by (apply noise_band; assumption).
  assert (Hparams : paramsInRange d').
  { unfold paramsInRange. rewrite Em, Ed, En. auto. }
  destruct (SeismographData.previousGrid f32 (this s)) as [previous |].
  - destruct HO as (-> & raw & Hraw & _ & Ec). specialize (Hraw Hsens).
    assert (Hmin : (0 <= Qmin raw max)%Q /\ (Qmin raw max <= max)%Q).
    { split; [apply Q.min_glb; [exact Hraw | lra] | apply Q.le_min_r]. }
    assert (Hc' : (lo <= SeismographData.currentSignal f32 d')%Q /\
                  (SeismographData.currentSignal f32 d' <= hi)%Q).
    { rewrite Ec. apply convex_band; [auto | | auto].
      destruct Hn as [Hn0 Hn1]. destruct Hmin as [Hm0 Hm1].
      subst lo hi. revert Hn0 Hn1.
      setoid_replace (noise / 2)%Q with (noise * (1 # 2))%Q using relation Qeq by reflexivity.
      intros Hn0 Hn1. split; lra. }
    split; [exact Hc' |]. split; [exact Hc' | exact Hparams].
  - destruct HO as (-> & Ec).
    split; [split; [apply Hn |] |].
    { destruct Hn as [_ Hn1]. subst hi. revert Hn1.
      setoid_replace (noise / 2)%Q with (noise * (1 # 2))%Q using relation Qeq by reflexivity.
      intros Hn1. lra. }
    split; [rewrite Ec; split; assumption | exact Hparams].
Qed.

(** X25.  A grid that has not changed since the last update adds
    nothing to the signal: [update] with the grid of the previous update
    pushes the old [currentSignal] times [signalDecay], plus the baseline
    noise times [1 - signalDecay]; with a baseline noise of 0 the signal
    is multiplied by [signalDecay]. *)
Theorem quiet_grid_decays (env : Env) (now : Q) (g : list (list Z)) (n b : Z)
    (l : list Q) (s : St (SeismographData.processor f32)) :
  ready n g (this s) -> 0 < b ->
  Holds fround b l (SeismographData.buffer f32 (this s)) ->
  (0 <= SeismographData.maxSignalValue f32 (this s))%Q ->
  SeismographData.previousGrid f32 (this s) = Some g ->
  let decay := SeismographData.signalDecay f32 (this s) in
  let noise := ((random env (randomCalls (rt s)) - (1 # 2)) *
                SeismographData.baselineNoise f32 (this s))%Q in
  exists signal d',
    SeismographData.update f32 fround env now g s = Some (tt, mkSt d' (rt (drawn s))) /\
    SeismographData.currentSignal f32 d' = signal /\
    (signal == SeismographData.currentSignal f32 (this s) * decay + noise * (1 - decay))%Q /\
    ((SeismographData.baselineNoise f32 (this s) == 0)%Q ->
     (signal == SeismographData.currentSignal f32 (this s) * decay)%Q).
Proof using Type.
  intros Hr Hb HH Hmax Hp decay noise.
  destruct (update_outcome f32 fround env now g n b l s Hr Hb HH)
    as (signal & d' & E & _ & _ & HO).
  exists signal, d'. split; [exact E |].
  destruct HO as (_ & _ & _ & _ & _ & _ & HO). rewrite Hp in HO.
  destruct HO as (-> & raw & _ & Hraw & Ec). rewrite (Hraw eq_refl) in Ec.
  split; [reflexivity |].
  assert (Hm : (Qmin 0 (SeismographData.maxSignalValue f32 (this s)) == 0)%Q)
    by (apply Q.min_l; exact Hmax).
  assert (Hs : (SeismographData.currentSignal f32 d' ==
                SeismographData.currentSignal f32 (this s) * decay + noise * (1 - decay))%Q).
  { rewrite Ec. fold decay noise. rewrite Hm. lra. }
  split; [exact Hs |].
  intros H0. rewrite Hs. subst noise. rewrite H0. lra.
Qed.

(** X26.  [new SeismographData(gridSize, bufferSize, sampleRate)] with
    a grid size that is not negative and a positive buffer size returns
    an object whose parameters are in range, whose buffer is empty,
    whose [currentSignal] is 0 and which is ready for [update] with any
    grid of [gridSize] rows: [computeDistanceWeights] has given every cell
    a weight in (0, 1].  The cell (0, gridSize - 1) has weight 1 when
    [Math.sqrt(0)] is 0. *)
Theorem construct_ready (env : Env) (n b : Z) (rate now : Q) :
  sqrtNonneg env -> 0 <= n -> 0 < b ->
  exists d,
    SeismographData.construct f32 fround env n b rate now = Some d /\
    paramsInRange d /\
    (forall g, hasRows n g -> ready n g d) /\
    weightsFor n (SeismographData.distanceWeights f32 d) /\
    Holds fround b [] (SeismographData.buffer f32 d) /\
    SeismographData.getAvailableDataLength f32 (SeismographData.buffer f32 d) = 0 /\
    SeismographData.currentSignal f32 d = 0%Q /\
    ((sqrt env 0 == 0)%Q -> 0 < n ->
     exists row q, SeismographData.distanceWeights f32 d !! 0%nat = Some row /\
                   row !! Z.to_nat (n - 1) = Some q /\ (q == 1)%Q).
Proof using Type.
  intros Hs Hn Hb.
  destruct (construct_spec env n b rate now Hs Hn Hb) as (d & E & Hp & Hr & HH & Hc & _).
  exists d. split; [exact E |]. split; [exact Hp |]. split; [exact Hr |].
  assert (Hw : SeismographData.distanceWeights f32 d =
               SeismographData.computeDistanceWeights env n).
  { unfold SeismographData.construct in E.
    destruct (SeismographData.create f32 fround b); [| discriminate].
    destruct (n <? 0); [discriminate |]. injection E as <-. reflexivity. }
  split; [rewrite Hw; apply computeDistanceWeights_spec; exact Hs |].
  split; [exact HH |].
  split; [rewrite (available_Holds f32 fround b [] _ Hb HH); cbn [length]; lia |].
  split; [exact Hc |].
  intros H0 Hpos. rewrite Hw.
  destruct (computeDistanceWeights_spec env n Hs) as [_ H].
  destruct (H 0 (n - 1) ltac:(lia) ltac:(lia)) as (row & E1 & E2).
  exists row. eexists. split; [exact E1 |]. split; [exact E2 |].
  unfold SeismographData.distanceWeight. cbv zeta.
  replace ((0 - 0) * (0 - 0) + (n - 1 - (n - 1)) * (n - 1 - (n - 1))) with 0 by lia.
  rewrite H0. unfold Qdiv. rewrite !Qmult_0_l, Qplus_0_r. reflexivity.
Qed.

(** X27.  [setParameters] keeps the parameters in range whatever it is
    given: afterwards [maxSignalValue >= 1], [0 <= signalDecay <= 1] and
    [baselineNoise >= 0], as [getParameters] reads them; a value given
    within its range is stored as it is, a parameter not given is left
    alone, and nothing else of the object changes. *)
Theorem setParameters_in_range (s : St (SeismographData.processor f32))
    (max decay noise : option Q) :
  paramsInRange (this s) ->
  exists s' max' decay' noise',
    SeismographData.setParameters f32 max decay noise s = Some (tt, s') /\
    SeismographData.getParameters f32 s' = Some ((max', decay', noise'), s') /\
    paramsInRange (this s') /\
    match max with
    | Some v => (1 <= v)%Q -> (max' == v)%Q
    | None => max' = SeismographData.maxSignalValue f32 (this s)
    end /\
    match decay with
    | Some v => (0 <= v)%Q -> (v <= 1)%Q -> (decay' == v)%Q
    | None => decay' = SeismographData.signalDecay f32 (this s)
    end /\
    match noise with
    | Some v => (0 <= v)%Q -> (noise' == v)%Q
    | None => noise' = SeismographData.baselineNoise f32 (this s)
    end /\
    SeismographData.setMaxSignalValue f32 0
      (SeismographData.setSignalDecay f32 0
         (SeismographData.setBaselineNoise f32 0 (this s'))) =
    SeismographData.setMaxSignalValue f32 0
      (SeismographData.setSignalDecay f32 0
         (SeismographData.setBaselineNoise f32 0 (this s))) /\
    rt s' = rt s.
Proof using Type.
  intros (Hm & (Hd0 & Hd1) & Hn).
  destruct s as [d rt0]. destruct d. processor_fields.
  unfold SeismographData.setParameters, SeismographData.getParameters, paramsInRange.
  destruct max as [vm |], decay as [vd |], noise as [vn |];
    eexists _, _, _, _;
    (split; [reflexivity |]); (split; [reflexivity |]); processor_fields;
    (split; [split; [first [apply Q.le_max_l | exact Hm] |];
             split; [first [apply (clamp_between 0 1 vd); discriminate
                           | split; assumption] |];
             first [apply Q.le_max_l | exact Hn] |]);
    (split; [first [intros H; apply Q.max_r; exact H | reflexivity] |]);
    (split; [first [intros H1 H2; apply (clamp_between 0 1 vd);
                    [discriminate | exact H1 | exact H2]
                   | reflexivity] |]);
    (split; [first [intros H; apply Q.max_r; exact H | reflexivity] |]);
    split; reflexivity.
Qed.

(** X28.  [reset()] brings the buffer back to that of a new object: an
    array of [bufferSize] zeros with the cursor at 0 and nothing
    available, so that [getSignalData()] is empty; the previous grid is
    forgotten, the signal, its peak and average and [samplesGenerated]
    are 0.  The parameters that [setParameters] has set, the weights and
    the sizes stay. *)
Theorem seismograph_reset (now : Q) (b : Z) (l : list Q)
    (s : St (SeismographData.processor f32)) :
  0 < b -> Holds fround b l (SeismographData.buffer f32 (this s)) ->
  exists d',
    SeismographData.reset f32 fround now s = Some (tt, mkSt d' (rt s)) /\
    bufferAfter fround b [] = Some (SeismographData.buffer f32 d') /\
    SeismographData.getAvailableDataLength f32 (SeismographData.buffer f32 d') = 0 /\
    SeismographData.getSignalData f32 fround nan None (SeismographData.buffer f32 d') =
      Some [] /\
    SeismographData.previousGrid f32 d' = None /\
    (SeismographData.currentSignal f32 d' = 0%Q /\
     SeismographData.peakSignal f32 d' = 0%Q /\
     SeismographData.averageSignal f32 d' = 0%Q /\
     SeismographData.samplesGenerated f32 d' = 0 /\
     SeismographData.lastUpdateTime f32 d' = now) /\
    (SeismographData.maxSignalValue f32 d' = SeismographData.maxSignalValue f32 (this s) /\
     SeismographData.signalDecay f32 d' = SeismographData.signalDecay f32 (this s) /\
     SeismographData.baselineNoise f32 d' = SeismographData.baselineNoise f32 (this s) /\
     SeismographData.eventSensitivity f32 d' =
       SeismographData.eventSensitivity f32 (this s) /\
     SeismographData.distanceWeights f32 d' =
       SeismographData.distanceWeights f32 (this s) /\
     SeismographData.gridSize f32 d' = SeismographData.gridSize f32 (this s)).
Proof using Type.
  intros Hb (Hsize & Hlen & _).
  destruct s as [d rt0]. processor_fields.
  eexists. split; [reflexivity |]. processor_fields.
  assert (Hbuf : bufferAfter fround b [] =
                 Some (SeismographData.resetBuffer f32 fround (SeismographData.buffer f32 d))).
  { unfold bufferAfter, SeismographData.create, SeismographData.resetBuffer.
    replace (b <? 0) with false by (symmetry; apply Z.ltb_ge; lia).
    cbn [SeismographData.addSamples]. rewrite Hsize, Hlen. reflexivity. }
  split; [exact Hbuf |].
  destruct (bufferAfter_Holds f32 fround b [] Hb) as (d0 & E0 & H0).
  rewrite Hbuf in E0. injection E0 as <-.
  split; [rewrite (available_Holds f32 fround b [] _ Hb H0); cbn [length]; lia |].
  split; [apply (getSignalData_default_Holds f32 fround nan b [] _ Hb H0) |].
  split; [reflexivity |]. split; repeat split; reflexivity.
Qed.

End ProcessorProperties.

Lemma flatGrid_rows : hasRows 4 flatGrid.
Proof.
  intros x Hx. unfold flatGrid. exists (replicate 4 1).
  apply lookup_replicate. split; [reflexivity | lia].
Qed.

Lemma quietProcessor_ready : ready 4 flatGrid (this quietProcessor).
Proof.
  split; [reflexivity |]. split; [exact flatGrid_rows |]. split.
  - intros previous E. injection E as <-. exact flatGrid_rows.
  - apply computeDistanceWeights_spec. exact sampleEnv_sqrt.
Qed.

Lemma quietProcessor_Holds :
  Holds (fun q : Q => q) 8 [] (SeismographData.buffer Q (this quietProcessor)).
Proof.
  destruct (create_Holds Q (fun q => q) 8 ltac:(lia)) as (d0 & E0 & H0).
  injection E0 as <-. exact H0.
Qed.

Lemma quietProcessor_params : paramsInRange (this quietProcessor).
Proof. repeat split; discriminate. Qed.

Lemma update_pushes_sample_witness :
  exists signal d',
    SeismographData.update Q (fun q => q) sampleEnv 100 flatGrid quietProcessor =
      Some (tt, mkSt d' (mkRt 1 0)) /\
    SeismographData.getAvailableDataLength Q (SeismographData.buffer Q d') = 1 /\
    SeismographData.previousGrid Q d' = Some flatGrid /\
    signal = SeismographData.currentSignal Q d'.
Proof.
  destruct (update_pushes_sample Q (fun q => q) sampleEnv 100 flatGrid 4 8 []
              quietProcessor quietProcessor_ready ltac:(lia) quietProcessor_Holds)
    as (signal & d' & E & _ & Ha & Hp & _ & _ & _ & _ & _ & Hs & _).
  exists signal, d'. split; [exact E |]. split; [exact Ha |]. split; [exact Hp | exact Hs].
Defined.

Lemma signal_stays_in_band_witness :
  exists signal d',
    SeismographData.update Q (fun q => q) sampleEnv 100 flatGrid quietProcessor =
      Some (tt, mkSt d' (mkRt 1 0)) /\
    (- ((2 # 100) / 2) <= signal)%Q /\ (signal <= 10 + (2 # 100) / 2)%Q.
Proof.
  destruct (signal_stays_in_band Q (fun q => q) sampleEnv 100 flatGrid 4 8 []
              quietProcessor sampleEnv_in_range quietProcessor_ready ltac:(lia)
              quietProcessor_Holds quietProcessor_params ltac:(discriminate)
              ltac:(split; discriminate))
    as (signal & d' & E & Hs & _).
  exists signal, d'. split; [exact E | exact Hs].
Defined.

Lemma quiet_grid_decays_witness :
  exists signal d',
    SeismographData.update Q (fun q => q) sampleEnv 100 flatGrid quietProcessor =
      Some (tt, mkSt d' (mkRt 1 0)) /\
    (signal == 3 * (8 # 10) + ((0 # 7) - (1 # 2)) * (2 # 100) * (1 - (8 # 10)))%Q.
Proof.
  destruct (quiet_grid_decays Q (fun q => q) sampleEnv 100 flatGrid 4 8 []
              quietProcessor quietProcessor_ready ltac:(lia) quietProcessor_Holds
              ltac:(discriminate) eq_refl)
    as (signal & d' & E & _ & Hs & _).
  exists signal, d'. split; [exact E | exact Hs].
Defined.

Lemma construct_ready_witness :
  exists d,
    SeismographData.construct Q (fun q => q) sampleEnv 4 8 60 0 = Some d /\
    paramsInRange d /\
    weightsFor 4 (SeismographData.distanceWeights Q d).
Proof.
  destruct (construct_ready Q (fun q => q) sampleEnv 4 8 60 0 sampleEnv_sqrt
              ltac:(lia) ltac:(lia))
    as (d & E & Hp & _ & Hw & _).
  exists d. split; [exact E |]. split; [exact Hp | exact Hw].
Defined.

Lemma setParameters_in_range_witness :
  exists s',
    SeismographData.setParameters Q (Some (1 # 2)) (Some 3%Q) None quietProcessor =
      Some (tt, s') /\
    paramsInRange (this s').
Proof.
  destruct (setParameters_in_range Q quietProcessor (Some (1 # 2)) (Some 3%Q) None
              quietProcessor_params)
    as (s' & max' & decay' & noise' & E & _ & Hp & _).
  exists s'. split; [exact E | exact Hp].
Defined.

Lemma seismograph_reset_witness :
  exists d',
    SeismographData.reset Q (fun q => q) 100 quietProcessor = Some (tt, mkSt d' (mkRt 0 0)) /\
    SeismographData.getSignalData Q (fun q => q) (-1)%Q None (SeismographData.buffer Q d') =
      Some [] /\
    SeismographData.previousGrid Q d' = None.
Proof.
  destruct (seismograph_reset Q (fun q => q) (-1)%Q 100 8 [] quietProcessor
              ltac:(lia) quietProcessor_Holds)
    as (d' & E & _ & _ & Hg & Hp & _).
  exists d'. split; [exact E |]. split; [exact Hg | exact Hp].
Defined.

Lemma addRandomSources_spec (env : Env) (count : nat) :
  forall s : St Simulation.t,
  exists l,
    Simulation.addRandomSources env count s =
      Some (tt, mkSt (Simulation.setSources (Simulation.sources (this s) ++ l) (this s))
                     (mkRt (4 * count + randomCalls (rt s)) (exited (rt s)))) /\
    length l = count /\
    (randomInRange env -> 0 < Simulation.gridSize (this s) ->
     Forall (placed (Simulation.gridSize (this s))) l).
Proof.
  induction count as [| count IH]; intros s.
  - exists []. rewrite app_nil_r. destruct s as [c [k e]]. destruct c.
    split; [reflexivity |]. split; [reflexivity | constructor].
  - cbn [Simulation.addRandomSources].
    destruct (addRandomSource_eq env s) as (src & C & E).
    unfold bind at 1. rewrite E.
    match goal with |- context [Simulation.addRandomSources env count ?st] =>
      destruct (IH st) as (l & El & Hlen & Hpl) end.
    exists (src :: l). rewrite El.
    cbn [this rt Simulation.sources Simulation.setSources Simulation.gridSize
         drawn randomCalls exited] in *.
    split; [| split].
    + rewrite <- app_assoc. cbn [app].
      replace (4 * count + S (S (S (S (randomCalls (rt s))))))%nat
        with (4 * S count + randomCalls (rt s))%nat by lia.
      reflexivity.
    + cbn [length]. rewrite Hlen. reflexivity.
    + intros Henv Hgs. constructor; [| apply Hpl; assumption].
      destruct (createRandom_placed env s _ Henv Hgs) as (src' & C' & Hp).
      rewrite C in C'. injection C' as <-. exact Hp.
Qed.

Lemma Inv_same (n cm : Z) (r : Q) (k : Z) (s s' : St SandPile.t) :
  this s' = this s -> exited (rt s') = exited (rt s) ->
  Inv n cm r k s -> Inv n cm r k s'.
Proof.
  intros Hthis Hex [HP HU]. constructor.
  - rewrite Hthis. revert HP. apply Pass_same; try exact Hex; rewrite Hthis; reflexivity.
  - rewrite Hthis. exact HU.
Qed.

(** X29.  [new Simulation({ gridSize, criticalMass, initialSources,
    targetFPS })] with a grid size that is not negative returns a running
    controller at speed 1, frame 0 and time 0, with a frame time of
    [1000 / targetFPS], an empty pile of that size as [new SandPile]
    builds it, and [initialSources] sources (none if that is negative),
    each placed as [createRandom] places it on a grid of positive size,
    for four calls of [Math.random()] each.  The pile is in the state from
    which [update] is known to conserve the sand.  For a negative grid
    size the constructor fails. *)
Theorem simulation_create (env : Env) (gs cm count : Z) (fps now : Q) (s0 : St unit) :
  (0 <= gs ->
   exists p l,
     Simulation.create env gs cm count fps now s0 =
       Some (Simulation.mk p l fps (1000 / fps)%Q now 0%Q 1%Q false gs 0 0%Q,
             mkSt tt (mkRt (4 * Z.to_nat count + randomCalls (rt s0)) (exited (rt s0)))) /\
     SandPile.create gs cm = Some p /\
     length l = Z.to_nat count /\
     (randomInRange env -> 0 < gs -> Forall (placed gs) l) /\
     (exited (rt s0) = 0 ->
      Inv gs cm 0 0
        (mkSt p (mkRt (4 * Z.to_nat count + randomCalls (rt s0)) (exited (rt s0)))))) /\
  (gs < 0 -> Simulation.create env gs cm count fps now s0 = None).
Proof.
  destruct s0 as [[] rt0]. cbn [this rt]. split.
  - intros Hgs. destruct (fresh_Inv gs cm Hgs) as (f & Ef & HI & _).
    unfold fresh in Ef. destruct (SandPile.create gs cm) as [p |] eqn:Ep; [| discriminate].
    injection Ef as <-.
    unfold Simulation.create. rewrite Ep. unfold bind at 1, liftOpt at 1.
    cbv zeta. unfold bind at 1, runOn at 1.
    match goal with |- context [Simulation.addRandomSources env _ ?st] =>
      destruct (addRandomSources_spec env (Z.to_nat count) st) as (l & El & Hlen & Hpl) end.
    rewrite El. cbn [this rt Simulation.sources Simulation.setSources Simulation.gridSize
                     app] in *.
    exists p, l. split; [reflexivity |]. split; [reflexivity |].
    split; [exact Hlen |]. split; [exact Hpl |].
    intros Hex. revert HI. apply Inv_same; [reflexivity |]. cbn [rt exited]. exact Hex.
  - intros Hgs. unfold Simulation.create, SandPile.create.
    replace (gs <? 0) with true by (symmetry; apply Z.ltb_lt; exact Hgs).
    reflexivity.
Qed.

Lemma simulation_create_witness :
  exists p l,
    Simulation.create sampleEnv 8 4 3 60 1000 (mkSt tt (mkRt 0 0)) =
      Some (Simulation.mk p l 60 (1000 / 60)%Q 1000 0%Q 1%Q false 8 0 0%Q,
            mkSt tt (mkRt 12 0)) /\
    length l = 3%nat /\ Forall (placed 8) l.
Proof.
  destruct (simulation_create sampleEnv 8 4 3 60 1000 (mkSt tt (mkRt 0 0))) as [H _].
  destruct (H ltac:(lia)) as (p & l & E & _ & Hl & Hp & _).
  exists p, l. split; [exact E |]. split; [exact Hl |].
  apply Hp; [apply sampleEnv_in_range | lia].
Defined.

(** ** The pile with and without the randomness factor *)

Lemma refines_ret {A} (a : A) : refines (ret a) (ret a).
Proof. intros s Hr. split; [reflexivity |]. intros a' s' E. injection E as _ <-. exact Hr. Qed.

Lemma refines_bind {A B} (m : M SandPile.t A) (m0 : M PlainSandPile.t A)
    (k : A -> M SandPile.t B) (k0 : A -> M PlainSandPile.t B) :
  refines m m0 -> (forall a, refines (k a) (k0 a)) -> refines (bind m k) (bind m0 k0).
Proof.
  intros Hm Hk s Hr. destruct (Hm s Hr) as [E Hr']. unfold bind. rewrite E.
  destruct (m s) as [[a s1] |]; cbn [plainResult]; [| split; [reflexivity | discriminate]].
  exact (Hk a s1 (Hr' a s1 eq_refl)).
Qed.

Lemma refines_gets {A} (f : SandPile.t -> A) (f0 : PlainSandPile.t -> A) :
  (forall p, f0 (plain p) = f p) -> refines (gets f) (gets f0).
Proof.
  intros Hf s Hr. unfold gets. cbn [plainResult plainSt this]. rewrite Hf.
  split; [reflexivity |]. intros a s' E. injection E as _ <-. exact Hr.
Qed.

Lemma refines_modify (g : SandPile.t -> SandPile.t)
    (g0 : PlainSandPile.t -> PlainSandPile.t) :
  (forall p, g0 (plain p) = plain (g p)) ->
  (forall p, SandPile.randomnessFactor (g p) = SandPile.randomnessFactor p) ->
  refines (modify g) (modify g0).
Proof.
  intros Hg Hrf s Hr. unfold modify, plainSt. cbn [plainResult plainSt this rt].
  rewrite Hg. split; [reflexivity |].
  intros a s' E. injection E as _ <-. cbn [this]. rewrite Hrf. exact Hr.
Qed.

Lemma refines_liftOpt {A} (o : option A) : refines (liftOpt o) (liftOpt o).
Proof.
  intros s Hr. unfold liftOpt. destruct o; cbn [plainResult];
    (split; [reflexivity |]); intros a' s' E; [| discriminate].
  injection E as _ <-. exact Hr.
Qed.

Lemma refines_noteExit (n : Z) : refines (noteExit n) (noteExit n).
Proof.
  intros s Hr. unfold noteExit. split; [reflexivity |].
  intros a s' E. injection E as _ <-. exact Hr.
Qed.

Lemma refines_forEach {A B} (body : A -> B -> M SandPile.t B)
    (body0 : A -> B -> M PlainSandPile.t B) (l : list A) :
  (forall a acc, refines (body a acc) (body0 a acc)) ->
  forall acc, refines (forEach l body acc) (forEach l body0 acc).
Proof.
  intros Hb. induction l as [| a l IH]; intros acc; cbn [forEach].
  - apply refines_ret.
  - apply refines_bind; [apply Hb | exact IH].
Qed.

Lemma refines_factor {A} (k : Q -> M SandPile.t A) (m0 : M PlainSandPile.t A) :
  (forall v, (v <= 0)%Q -> refines (k v) m0) ->
  refines (bind (gets SandPile.randomnessFactor) k) m0.
Proof. intros Hk s Hr. exact (Hk _ Hr s Hr). Qed.

Lemma refines_assoc {A B C} (m : M SandPile.t A) (k : A -> M SandPile.t B)
    (h : B -> M SandPile.t C) (m0 : M PlainSandPile.t C) :
  refines (bind m (fun a => bind (k a) h)) m0 -> refines (bind (bind m k) h) m0.
Proof.
  intros H s Hr.
  assert (E : bind (bind m k) h s = bind m (fun a => bind (k a) h) s).
  { unfold bind. destruct (m s) as [[a s1] |]; reflexivity. }
  rewrite E. exact (H s Hr).
Qed.

Ltac refine_step :=
  first
    [ apply refines_ret
    | apply refines_liftOpt
    | apply refines_noteExit
    | apply refines_gets; intros ?; reflexivity
    | apply refines_modify; intros ?; reflexivity ].

Lemma getCell_refines (x y : Z) :
  refines (SandPile.getCell x y) (PlainSandPile.getCell x y).
Proof.
  unfold SandPile.getCell, PlainSandPile.getCell.
  apply refines_bind; [refine_step | intros g; refine_step].
Qed.

Lemma putCell_refines (x y v : Z) :
  refines (SandPile.putCell x y v) (PlainSandPile.putCell x y v).
Proof.
  unfold SandPile.putCell, PlainSandPile.putCell.
  apply refines_bind; [refine_step | intros g].
  apply refines_bind; [refine_step | intros g']. refine_step.
Qed.

Lemma addSand_refines (x y a : Z) :
  refines (SandPile.addSand x y a) (PlainSandPile.addSand x y a).
Proof.
  unfold SandPile.addSand, PlainSandPile.addSand.
  apply refines_bind; [refine_step | intros n].
  destruct (negb _); [refine_step |].
  apply refines_bind; [apply getCell_refines | intros h].
  apply refines_bind; [apply putCell_refines | intros ?].
  apply refines_bind; [refine_step | intros total].
  apply refines_bind; [refine_step | intros ?].
  apply refines_bind; [apply getCell_refines | intros h'].
  apply refines_bind; [refine_step | intros cm].
  destruct (cm <=? h'); [| refine_step].
  apply refines_bind; [refine_step | intros u]. refine_step.
Qed.

Lemma getSand_refines (x y : Z) :
  refines (SandPile.getSand x y) (PlainSandPile.getSand x y).
Proof.
  unfold SandPile.getSand, PlainSandPile.getSand.
  apply refines_bind; [refine_step | intros n].
  destruct (negb _); [refine_step | apply getCell_refines].
Qed.

Lemma topple_refines (env : Env) (x y : Z) (new : list (Z * Z)) :
  refines (SandPile.topple env x y new) (PlainSandPile.topple x y new).
Proof.
  unfold SandPile.topple, PlainSandPile.topple.
  apply refines_bind; [apply getCell_refines | intros h]. cbv zeta.
  apply refines_bind; [apply putCell_refines | intros ?].
  apply refines_factor. intros r Hr.
  destruct (Qlt_le_dec 0 r) as [Hlt | _].
  { exfalso. apply (Qlt_not_le _ _ Hlt). exact Hr. }
  apply refines_bind.
  - unfold SandPile.distributeToNeighbors.
    apply refines_forEach. intros neighbor acc.
    apply refines_bind; [refine_step | intros n].
    destruct (MathUtils.isValidGridPosition _ _ _).
    + unfold SandPile.addSandToCell.
      apply refines_bind; [apply getCell_refines | intros h0].
      apply refines_bind; [apply putCell_refines | intros ?].
      apply refines_bind; [apply getCell_refines | intros h1].
      apply refines_bind; [refine_step | intros cm]. refine_step.
    + unfold SandPile.loseSand.
      apply refines_assoc.
      apply refines_bind; [refine_step | intros total].
      apply refines_assoc.
      apply refines_bind; [refine_step | intros ?].
      apply refines_bind; [refine_step | intros ?]. refine_step.
  - intros new'.
    apply refines_bind; [apply getCell_refines | intros h'].
    apply refines_bind; [refine_step | intros cm]. refine_step.
Qed.

Lemma processAvalanches_refines (env : Env) :
  refines (SandPile.processAvalanches env) PlainSandPile.processAvalanches.
Proof.
  unfold SandPile.processAvalanches, PlainSandPile.processAvalanches.
  apply refines_bind; [refine_step | intros u].
  destruct (Z.of_nat (length u) =? 0); [refine_step |].
  apply refines_bind; [refine_step | intros ?].
  apply refines_bind.
  - apply refines_forEach. intros cell [occurred new].
    apply refines_bind; [apply getCell_refines | intros h].
    apply refines_bind; [refine_step | intros cm].
    destruct (cm <=? h); [| refine_step].
    apply refines_bind; [apply topple_refines | intros new'].
    apply refines_bind; [refine_step | intros k].
    apply refines_bind; [refine_step | intros ?]. refine_step.
  - intros [occurred new].
    apply refines_bind; [refine_step | intros ?].
    apply refines_bind; [| intros ?; refine_step].
    destruct occurred; [| refine_step].
    apply refines_bind; [refine_step | intros k]. refine_step.
Qed.

Lemma stabilizeLoop_refines (env : Env) (fuel : nat) :
  forall iterations,
    refines (SandPile.stabilizeLoop env fuel iterations)
            (PlainSandPile.stabilizeLoop fuel iterations).
Proof.
  induction fuel as [| fuel IH]; intros iterations;
    cbn [SandPile.stabilizeLoop PlainSandPile.stabilizeLoop].
  - refine_step.
  - apply refines_bind; [refine_step | intros u].
    destruct (0 <? Z.of_nat (length u)); [| refine_step].
    apply refines_bind; [apply processAvalanches_refines | intros ?]. apply IH.
Qed.

Lemma stabilize_refines (env : Env) (cap : Z) :
  refines (SandPile.stabilize env cap) (PlainSandPile.stabilize cap).
Proof. unfold SandPile.stabilize, PlainSandPile.stabilize. apply stabilizeLoop_refines. Qed.

Lemma isStable_refines : refines SandPile.isStable PlainSandPile.isStable.
Proof.
  unfold SandPile.isStable, PlainSandPile.isStable.
  apply refines_bind; [refine_step | intros u]. refine_step.
Qed.

Lemma calls_refines (env : Env) (ops : list plainOp) :
  refines (calls env (withFactor <$> ops)) (plainCalls ops).
Proof.
  induction ops as [| o ops IH]; cbn [fmap list_fmap calls plainCalls].
  - refine_step.
  - apply refines_bind; [| intros ?; exact IH].
    destruct o; cbn [withFactor call plainCall].
    + apply addSand_refines.
    + apply refines_bind; [apply processAvalanches_refines | intros ?]. refine_step.
    + apply refines_bind; [apply stabilize_refines | intros ?]. refine_step.
Qed.

(** X30.  The pile with the randomness factor is the pile of
    [core/SandPile.js] while the factor is 0.  A pile built by the
    constructor and any calls of [addSand], [processAvalanches] and
    [stabilize] is, but for the factor, in the state that the same calls
    leave the pile of [core/SandPile.js] in, with the same grains
    discarded and the same count of calls of [Math.random()], of which
    that pile has none in its code; and from any state with a
    factor that is not positive each of these methods, [getSand] and
    [isStable] returns the same result and leaves the same pile. *)
Theorem plain_refinement (env : Env) :
  (forall (n cm : Z) (ops : list plainOp),
     option_map plainSt (session env n cm (withFactor <$> ops)) = plainSession n cm ops) /\
  (forall (s : St SandPile.t),
     (SandPile.randomnessFactor (this s) <= 0)%Q ->
     (forall x y a,
        PlainSandPile.addSand x y a (plainSt s) = plainResult (SandPile.addSand x y a s)) /\
     (forall x y,
        PlainSandPile.getSand x y (plainSt s) = plainResult (SandPile.getSand x y s)) /\
     PlainSandPile.processAvalanches (plainSt s) =
       plainResult (SandPile.processAvalanches env s) /\
     (forall cap,
        PlainSandPile.stabilize cap (plainSt s) = plainResult (SandPile.stabilize env cap s)) /\
     PlainSandPile.isStable (plainSt s) = plainResult (SandPile.isStable s)).
Proof.
  split.
  - intros n cm ops. unfold session, plainSession, fresh, SandPile.create,
      PlainSandPile.create.
    destruct (n <? 0); [reflexivity |].
    match goal with |- context [calls env _ ?s0] =>
      destruct (calls_refines env ops s0 ltac:(apply Qle_refl)) as [E _] end.
    unfold plainSt, plain in E.
    cbn [this rt SandPile.size SandPile.criticalMass SandPile.grid
         SandPile.unstableCells SandPile.totalSand SandPile.totalAvalanches
         SandPile.avalancheSize] in E.
    rewrite E.
    destruct (calls env _ _) as [[[] s] |]; reflexivity.
  - intros s Hr.
    split; [intros x y a; apply (addSand_refines x y a s Hr) |].
    split; [intros x y; apply (getSand_refines x y s Hr) |].
    split; [apply (processAvalanches_refines env s Hr) |].
    split; [intros cap; apply (stabilize_refines env cap s Hr) |].
    apply (isStable_refines s Hr).
Qed.

Lemma plain_refinement_witness :
  option_map plainSt
    (session sampleEnv 8 4 [AddSand 4 4 16; Stabilize 1000]) =
  plainSession 8 4 [PlainAddSand 4 4 16; PlainStabilize 1000].
Proof.
  exact (proj1 (plain_refinement sampleEnv) 8 4 [PlainAddSand 4 4 16; PlainStabilize 1000]).
Defined.
